(** * membalance: the memory balancing scheduler, embedded and verified

    A shallow embedding of the parts of [sched.cpp], [domain.cpp],
    [config_parser.cpp], [domain.h] and [membalanced.h] that decide how
    domain reports are parsed and smoothed, how settings are resolved, how
    the hard-reserve, soft-reserve and rebalancing stages move memory
    between domains, and how the free-memory command is answered.

    Conventions of the embedding:
    - [long], [u_long], [int] and [u_int] values are integers of [Z]; the
      wrap-around of unsigned arithmetic and of conversions between widths
      is written out where the source relies on it ([to_ulong], [to_int]).
      Signed overflow is undefined behaviour in C and is not given a meaning.
    - a finite [double] is the rational of [Q] that it denotes.  Where the
      source computes in doubles what it then compares or converts to
      [long] (the averages of [weight_samples] and the threshold product of
      [stage_collect_data]), every operation is the exact one followed by
      the rounding of binary64 arithmetic, [round64].  The forces and the
      size margins are computed exactly.
    - [domain_info*] handles held in a [domvector] are modelled by the key of
      the record in [doms.managed]; every write through a handle updates the
      one record stored in the map, so that both vectors of the rebalancing
      stage observe it. *)

From Stdlib Require Import ZArith QArith Qabs Qreduction String Ascii List Lia Lqa.
From Stdlib Require DecimalString.
From stdpp Require Import gmap strings list sorting.
Import ListNotations.
Open Scope Z_scope.

(** ** Machine arithmetic *)

Definition ULONG_MOD : Z := 2 ^ 64.
Definition LONG_MAX : Z := 2 ^ 63 - 1.
Definition INT_MOD : Z := 2 ^ 32.

(** conversion to [unsigned long] *)
Definition to_ulong (x : Z) : Z := x mod ULONG_MOD.

(** conversion of an [unsigned long] to [long] (two's complement) *)
Definition to_long (x : Z) : Z :=
  let y := x mod ULONG_MOD in
  if y <? 2 ^ 63 then y else y - ULONG_MOD.

(** conversion to [int] (two's complement, 32 bits) *)
Definition to_int (x : Z) : Z :=
  let y := x mod INT_MOD in
  if y <? 2 ^ 31 then y else y - INT_MOD.

(** [(long) x] for a double [x]: truncation towards zero *)
Definition Qtrunc (x : Q) : Z := Z.quot (Qnum x) (Zpos (Qden x)).

(** ** Binary64 arithmetic

    The operations of C on [double] round their exact result to the
    nearest double, a tie going to the double whose significand is even
    (IEEE 754, the default rounding mode).  Results of a magnitude that
    binary64 replaces by an infinity do not arise where the rounding is
    applied: the rates are [long], the weights are at most 10 and the
    thresholds are fractions between 0 and 1. *)

(** The integer nearest to [q], the even one of two that are equally near. *)
Definition round_half_even (q : Q) : Z :=
  let n := Qnum q in
  let d := Z.pos (Qden q) in
  let f := n / d in
  let r := 2 * (n mod d) in
  if r <? d then f
  else if d <? r then f + 1
  else if Z.even f then f else f + 1.

(** The exponent [e] with [2^e <= |q| < 2^(e+1)], for [q] other than 0. *)
Definition binade (q : Q) : Z :=
  let a := Z.abs (Qnum q) in
  let d := Z.pos (Qden q) in
  let e := Z.log2 a - Z.log2 d in
  if (if 0 <=? e then a <? d * 2 ^ e else a * 2 ^ (- e) <? d) then e - 1 else e.

(** [q * 2^k] *)
Definition Qshift (q : Q) (k : Z) : Q :=
  if 0 <=? k then (q * inject_Z (2 ^ k))%Q else (q / inject_Z (2 ^ (- k)))%Q.

(** The double nearest to [q]: 53 significant bits, and below [2^-1022]
    the fixed spacing [2^-1074] of the subnormal numbers. *)
Definition round64 (q : Q) : Q :=
  let q := Qred q in
  if Qeq_bool q 0 then 0%Q
  else
    let e := Z.max (binade q) (-1022) in
    Qred (Qshift (inject_Z (round_half_even (Qshift q (52 - e)))) (e - 52)).

(** [a + b], [a * b] and [a / b] on doubles, and [(double) z] for a [long] *)
Definition fadd (a b : Q) : Q := round64 (a + b).
Definition fmul (a b : Q) : Q := round64 (a * b).
Definition fdiv (a b : Q) : Q := round64 (a / b).
Definition double_of_long (z : Z) : Q := round64 (inject_Z z).

(** [#define roundup(n, r)  ((((n) + (r) - 1) / (r)) * (r))] and
    [#define rounddown(n, r)  (((n) / (r)) * (r))], with the truncating
    division of C.  The macros are applied to a [long] [n] and the [u_long]
    quantum [r], so that C evaluates them in [unsigned long] and stores the
    result in a [long]; [n] is non-negative wherever they are applied, and
    for operands in the range of [long] the unsigned evaluation is the
    mathematical one ([roundup_unsigned], [rounddown_unsigned] below). *)
Definition roundup (n r : Z) : Z := Z.quot (n + r - 1) r * r.

Definition rounddown (n r : Z) : Z := Z.quot n r * r.

(** ** Outcomes of code that may call [fatal_msg] *)

Inductive outcome (A : Type) : Type :=
  | Ok (a : A)
  | Fatal (msg : string).
Arguments Ok {A} a.
Arguments Fatal {A} msg.

Definition obind {A B} (x : outcome A) (f : A -> outcome B) : outcome B :=
  match x with
  | Ok a => f a
  | Fatal m => Fatal m
  end.

(** ** Data model ([domain_info.h]) *)

Definition CTRL_MODE_AUTO : Z := Z.shiftl 1 0.
Definition CTRL_MODE_DIRECT : Z := Z.shiftl 1 1.

Record rate_record := mk_rate_record {
  tick : Z;       (* u_long *)
  rr_rate : Z     (* long rate *)
}.

Inductive balside_t :=
  | RebalanceSide_NEUTRAL
  | RebalanceSide_EXPANDING
  | RebalanceSide_SHRINKING.

Inductive tribool := TriTrue | TriFalse | TriMaybe.

Global Instance balside_eq_dec : EqDecision balside_t.
Proof. solve_decision. Defined.

(** The fields of Xen's [xc_domaininfo_t] that the scheduler reads. *)
Record xc_domaininfo_t := mk_xcinfo {
  flags : Z;
  tot_pages : Z;
  outstanding_pages : Z
}.

(** Flag bits of Xen's public [domctl.h]. *)
Definition XEN_DOMINF_dying : Z := Z.shiftl 1 0.
Definition XEN_DOMINF_shutdown : Z := Z.shiftl 1 2.
Definition XEN_DOMINF_paused : Z := Z.shiftl 1 3.
Definition XEN_DOMINF_blocked : Z := Z.shiftl 1 4.
Definition XEN_DOMINF_running : Z := Z.shiftl 1 5.

(** [#define XS_MEM_VIDEORAM_UNSET  (-11)] *)
Definition XS_MEM_VIDEORAM_UNSET : Z := -11.

(** Settings read from Xenstore. *)
Record xs_settings := mk_xs {
  vm_name : option string;
  vm_uuid : option string;
  xs_mem_max : Z;
  xs_mem_target : Z;
  xs_mem_videoram : Z
}.

(** Settings read from the Xen domain config file; a negative value (or
    [TriMaybe]) means that the key is absent. *)
Record xc_settings := mk_xc {
  ctrl_modes_allowed : Z;
  xc_memory : Z;
  xc_maxmem : Z;
  xc_dmem_max : Z;
  xc_dmem_quota : Z;
  xc_dmem_min : Z;
  xc_dmem_incr : Q;
  xc_dmem_decr : Q;
  xc_rate_high : Z;
  xc_rate_low : Z;
  xc_rate_zero : Z;
  xc_guest_free_threshold : Q;
  xc_startup_time : Z;
  xc_trim_unresponsive : Z;
  xc_trim_unmanaged : tribool
}.

(** Active settings. *)
Record active_settings := mk_active {
  dmem_max : Z;
  dmem_quota : Z;
  dmem_min : Z;
  dmem_incr : Q;
  dmem_decr : Q;
  rate_high : Z;
  rate_low : Z;
  rate_zero : Z;
  guest_free_threshold : Q;
  startup_time : Z;
  trim_unresponsive : Z;
  trim_unmanaged : bool;
  xen_data_size : Z
}.

(** Scheduler fields that live across invocations of [sched_memory]. *)
Record sched_data := mk_sched {
  last_report_tick : Z;
  no_report_time : Z;
  rate_history : list rate_record;
  time_rate_below_low : Z;
  time_rate_below_high : Z;
  last_expand_tick : Z;
  preshrink : Z;
  preshrink_tick : Z
}.

(** Scheduler fields that live within one invocation of [sched_memory]. *)
Record tick_data := mk_tick {
  xcinfo : xc_domaininfo_t;
  report_raw : option string;
  valid_data : bool;
  valid_memory_data : bool;
  trimming_to_quota : bool;
  balside : balside_t;
  rate : Z;
  freepct : Q;
  fast_rate : Z;
  slow_rate : Z;
  memgoal0 : Z;
  memsize0 : Z;
  memsize : Z;
  memsize_incr : Z;
  memsize_decr : Z;
  expand_force : Q;
  resist_force : Q;
  expand_force0 : Q
}.

(** [class domain_info].  [addr] is the address of the heap record: the
    sort predicates of [domvector] break ties by comparing the pointers. *)
Record domain_info := mk_domain {
  domain_id : Z;
  addr : Z;
  xs :> xs_settings;
  xc :> xc_settings;
  act :> active_settings;
  sched :> sched_data;
  cur :> tick_data
}.

(** *** Field updates

    Assignments [dom->f = v] are written [upd_cur (set_f v) dom] (and
    likewise [upd_sched], [upd_act] for the other groups of fields). *)

Definition upd_cur (f : tick_data -> tick_data) (d : domain_info) : domain_info :=
  mk_domain (domain_id d) (addr d) (xs d) (xc d) (act d) (sched d) (f (cur d)).
Definition upd_sched (f : sched_data -> sched_data) (d : domain_info) : domain_info :=
  mk_domain (domain_id d) (addr d) (xs d) (xc d) (act d) (f (sched d)) (cur d).
Definition upd_act (f : active_settings -> active_settings) (d : domain_info) : domain_info :=
  mk_domain (domain_id d) (addr d) (xs d) (xc d) (f (act d)) (sched d) (cur d).

Definition set_xcinfo (v : xc_domaininfo_t) (t : tick_data) : tick_data :=
  mk_tick v (report_raw t) (valid_data t) (valid_memory_data t) (trimming_to_quota t) (balside t) (rate t) (freepct t) (fast_rate t) (slow_rate t) (memgoal0 t) (memsize0 t) (memsize t) (memsize_incr t) (memsize_decr t) (expand_force t) (resist_force t) (expand_force0 t).
Definition set_report_raw (v : option string) (t : tick_data) : tick_data :=
  mk_tick (xcinfo t) v (valid_data t) (valid_memory_data t) (trimming_to_quota t) (balside t) (rate t) (freepct t) (fast_rate t) (slow_rate t) (memgoal0 t) (memsize0 t) (memsize t) (memsize_incr t) (memsize_decr t) (expand_force t) (resist_force t) (expand_force0 t).
Definition set_valid_data (v : bool) (t : tick_data) : tick_data :=
  mk_tick (xcinfo t) (report_raw t) v (valid_memory_data t) (trimming_to_quota t) (balside t) (rate t) (freepct t) (fast_rate t) (slow_rate t) (memgoal0 t) (memsize0 t) (memsize t) (memsize_incr t) (memsize_decr t) (expand_force t) (resist_force t) (expand_force0 t).
Definition set_valid_memory_data (v : bool) (t : tick_data) : tick_data :=
  mk_tick (xcinfo t) (report_raw t) (valid_data t) v (trimming_to_quota t) (balside t) (rate t) (freepct t) (fast_rate t) (slow_rate t) (memgoal0 t) (memsize0 t) (memsize t) (memsize_incr t) (memsize_decr t) (expand_force t) (resist_force t) (expand_force0 t).
Definition set_trimming_to_quota (v : bool) (t : tick_data) : tick_data :=
  mk_tick (xcinfo t) (report_raw t) (valid_data t) (valid_memory_data t) v (balside t) (rate t) (freepct t) (fast_rate t) (slow_rate t) (memgoal0 t) (memsize0 t) (memsize t) (memsize_incr t) (memsize_decr t) (expand_force t) (resist_force t) (expand_force0 t).
Definition set_balside (v : balside_t) (t : tick_data) : tick_data :=
  mk_tick (xcinfo t) (report_raw t) (valid_data t) (valid_memory_data t) (trimming_to_quota t) v (rate t) (freepct t) (fast_rate t) (slow_rate t) (memgoal0 t) (memsize0 t) (memsize t) (memsize_incr t) (memsize_decr t) (expand_force t) (resist_force t) (expand_force0 t).
Definition set_rate (v : Z) (t : tick_data) : tick_data :=
  mk_tick (xcinfo t) (report_raw t) (valid_data t) (valid_memory_data t) (trimming_to_quota t) (balside t) v (freepct t) (fast_rate t) (slow_rate t) (memgoal0 t) (memsize0 t) (memsize t) (memsize_incr t) (memsize_decr t) (expand_force t) (resist_force t) (expand_force0 t).
Definition set_freepct (v : Q) (t : tick_data) : tick_data :=
  mk_tick (xcinfo t) (report_raw t) (valid_data t) (valid_memory_data t) (trimming_to_quota t) (balside t) (rate t) v (fast_rate t) (slow_rate t) (memgoal0 t) (memsize0 t) (memsize t) (memsize_incr t) (memsize_decr t) (expand_force t) (resist_force t) (expand_force0 t).
Definition set_fast_rate (v : Z) (t : tick_data) : tick_data :=
  mk_tick (xcinfo t) (report_raw t) (valid_data t) (valid_memory_data t) (trimming_to_quota t) (balside t) (rate t) (freepct t) v (slow_rate t) (memgoal0 t) (memsize0 t) (memsize t) (memsize_incr t) (memsize_decr t) (expand_force t) (resist_force t) (expand_force0 t).
Definition set_slow_rate (v : Z) (t : tick_data) : tick_data :=
  mk_tick (xcinfo t) (report_raw t) (valid_data t) (valid_memory_data t) (trimming_to_quota t) (balside t) (rate t) (freepct t) (fast_rate t) v (memgoal0 t) (memsize0 t) (memsize t) (memsize_incr t) (memsize_decr t) (expand_force t) (resist_force t) (expand_force0 t).
Definition set_memgoal0 (v : Z) (t : tick_data) : tick_data :=
  mk_tick (xcinfo t) (report_raw t) (valid_data t) (valid_memory_data t) (trimming_to_quota t) (balside t) (rate t) (freepct t) (fast_rate t) (slow_rate t) v (memsize0 t) (memsize t) (memsize_incr t) (memsize_decr t) (expand_force t) (resist_force t) (expand_force0 t).
Definition set_memsize0 (v : Z) (t : tick_data) : tick_data :=
  mk_tick (xcinfo t) (report_raw t) (valid_data t) (valid_memory_data t) (trimming_to_quota t) (balside t) (rate t) (freepct t) (fast_rate t) (slow_rate t) (memgoal0 t) v (memsize t) (memsize_incr t) (memsize_decr t) (expand_force t) (resist_force t) (expand_force0 t).
Definition set_memsize (v : Z) (t : tick_data) : tick_data :=
  mk_tick (xcinfo t) (report_raw t) (valid_data t) (valid_memory_data t) (trimming_to_quota t) (balside t) (rate t) (freepct t) (fast_rate t) (slow_rate t) (memgoal0 t) (memsize0 t) v (memsize_incr t) (memsize_decr t) (expand_force t) (resist_force t) (expand_force0 t).
Definition set_memsize_incr (v : Z) (t : tick_data) : tick_data :=
  mk_tick (xcinfo t) (report_raw t) (valid_data t) (valid_memory_data t) (trimming_to_quota t) (balside t) (rate t) (freepct t) (fast_rate t) (slow_rate t) (memgoal0 t) (memsize0 t) (memsize t) v (memsize_decr t) (expand_force t) (resist_force t) (expand_force0 t).
Definition set_memsize_decr (v : Z) (t : tick_data) : tick_data :=
  mk_tick (xcinfo t) (report_raw t) (valid_data t) (valid_memory_data t) (trimming_to_quota t) (balside t) (rate t) (freepct t) (fast_rate t) (slow_rate t) (memgoal0 t) (memsize0 t) (memsize t) (memsize_incr t) v (expand_force t) (resist_force t) (expand_force0 t).
Definition set_expand_force (v : Q) (t : tick_data) : tick_data :=
  mk_tick (xcinfo t) (report_raw t) (valid_data t) (valid_memory_data t) (trimming_to_quota t) (balside t) (rate t) (freepct t) (fast_rate t) (slow_rate t) (memgoal0 t) (memsize0 t) (memsize t) (memsize_incr t) (memsize_decr t) v (resist_force t) (expand_force0 t).
Definition set_resist_force (v : Q) (t : tick_data) : tick_data :=
  mk_tick (xcinfo t) (report_raw t) (valid_data t) (valid_memory_data t) (trimming_to_quota t) (balside t) (rate t) (freepct t) (fast_rate t) (slow_rate t) (memgoal0 t) (memsize0 t) (memsize t) (memsize_incr t) (memsize_decr t) (expand_force t) v (expand_force0 t).
Definition set_expand_force0 (v : Q) (t : tick_data) : tick_data :=
  mk_tick (xcinfo t) (report_raw t) (valid_data t) (valid_memory_data t) (trimming_to_quota t) (balside t) (rate t) (freepct t) (fast_rate t) (slow_rate t) (memgoal0 t) (memsize0 t) (memsize t) (memsize_incr t) (memsize_decr t) (expand_force t) (resist_force t) v.

Definition set_last_report_tick (v : Z) (s : sched_data) : sched_data :=
  mk_sched v (no_report_time s) (rate_history s) (time_rate_below_low s) (time_rate_below_high s) (last_expand_tick s) (preshrink s) (preshrink_tick s).
Definition set_no_report_time (v : Z) (s : sched_data) : sched_data :=
  mk_sched (last_report_tick s) v (rate_history s) (time_rate_below_low s) (time_rate_below_high s) (last_expand_tick s) (preshrink s) (preshrink_tick s).
Definition set_rate_history (v : list rate_record) (s : sched_data) : sched_data :=
  mk_sched (last_report_tick s) (no_report_time s) v (time_rate_below_low s) (time_rate_below_high s) (last_expand_tick s) (preshrink s) (preshrink_tick s).
Definition set_time_rate_below_low (v : Z) (s : sched_data) : sched_data :=
  mk_sched (last_report_tick s) (no_report_time s) (rate_history s) v (time_rate_below_high s) (last_expand_tick s) (preshrink s) (preshrink_tick s).
Definition set_time_rate_below_high (v : Z) (s : sched_data) : sched_data :=
  mk_sched (last_report_tick s) (no_report_time s) (rate_history s) (time_rate_below_low s) v (last_expand_tick s) (preshrink s) (preshrink_tick s).
Definition set_last_expand_tick (v : Z) (s : sched_data) : sched_data :=
  mk_sched (last_report_tick s) (no_report_time s) (rate_history s) (time_rate_below_low s) (time_rate_below_high s) v (preshrink s) (preshrink_tick s).
Definition set_preshrink (v : Z) (s : sched_data) : sched_data :=
  mk_sched (last_report_tick s) (no_report_time s) (rate_history s) (time_rate_below_low s) (time_rate_below_high s) (last_expand_tick s) v (preshrink_tick s).
Definition set_preshrink_tick (v : Z) (s : sched_data) : sched_data :=
  mk_sched (last_report_tick s) (no_report_time s) (rate_history s) (time_rate_below_low s) (time_rate_below_high s) (last_expand_tick s) (preshrink s) v.

Definition set_dmem_max (v : Z) (a : active_settings) : active_settings :=
  mk_active v (dmem_quota a) (dmem_min a) (dmem_incr a) (dmem_decr a) (rate_high a) (rate_low a) (rate_zero a) (guest_free_threshold a) (startup_time a) (trim_unresponsive a) (trim_unmanaged a) (xen_data_size a).
Definition set_dmem_quota (v : Z) (a : active_settings) : active_settings :=
  mk_active (dmem_max a) v (dmem_min a) (dmem_incr a) (dmem_decr a) (rate_high a) (rate_low a) (rate_zero a) (guest_free_threshold a) (startup_time a) (trim_unresponsive a) (trim_unmanaged a) (xen_data_size a).
Definition set_dmem_min (v : Z) (a : active_settings) : active_settings :=
  mk_active (dmem_max a) (dmem_quota a) v (dmem_incr a) (dmem_decr a) (rate_high a) (rate_low a) (rate_zero a) (guest_free_threshold a) (startup_time a) (trim_unresponsive a) (trim_unmanaged a) (xen_data_size a).
Definition set_dmem_incr (v : Q) (a : active_settings) : active_settings :=
  mk_active (dmem_max a) (dmem_quota a) (dmem_min a) v (dmem_decr a) (rate_high a) (rate_low a) (rate_zero a) (guest_free_threshold a) (startup_time a) (trim_unresponsive a) (trim_unmanaged a) (xen_data_size a).
Definition set_dmem_decr (v : Q) (a : active_settings) : active_settings :=
  mk_active (dmem_max a) (dmem_quota a) (dmem_min a) (dmem_incr a) v (rate_high a) (rate_low a) (rate_zero a) (guest_free_threshold a) (startup_time a) (trim_unresponsive a) (trim_unmanaged a) (xen_data_size a).
Definition set_rate_high (v : Z) (a : active_settings) : active_settings :=
  mk_active (dmem_max a) (dmem_quota a) (dmem_min a) (dmem_incr a) (dmem_decr a) v (rate_low a) (rate_zero a) (guest_free_threshold a) (startup_time a) (trim_unresponsive a) (trim_unmanaged a) (xen_data_size a).
Definition set_rate_low (v : Z) (a : active_settings) : active_settings :=
  mk_active (dmem_max a) (dmem_quota a) (dmem_min a) (dmem_incr a) (dmem_decr a) (rate_high a) v (rate_zero a) (guest_free_threshold a) (startup_time a) (trim_unresponsive a) (trim_unmanaged a) (xen_data_size a).
Definition set_rate_zero (v : Z) (a : active_settings) : active_settings :=
  mk_active (dmem_max a) (dmem_quota a) (dmem_min a) (dmem_incr a) (dmem_decr a) (rate_high a) (rate_low a) v (guest_free_threshold a) (startup_time a) (trim_unresponsive a) (trim_unmanaged a) (xen_data_size a).
Definition set_guest_free_threshold (v : Q) (a : active_settings) : active_settings :=
  mk_active (dmem_max a) (dmem_quota a) (dmem_min a) (dmem_incr a) (dmem_decr a) (rate_high a) (rate_low a) (rate_zero a) v (startup_time a) (trim_unresponsive a) (trim_unmanaged a) (xen_data_size a).
Definition set_startup_time (v : Z) (a : active_settings) : active_settings :=
  mk_active (dmem_max a) (dmem_quota a) (dmem_min a) (dmem_incr a) (dmem_decr a) (rate_high a) (rate_low a) (rate_zero a) (guest_free_threshold a) v (trim_unresponsive a) (trim_unmanaged a) (xen_data_size a).
Definition set_trim_unresponsive (v : Z) (a : active_settings) : active_settings :=
  mk_active (dmem_max a) (dmem_quota a) (dmem_min a) (dmem_incr a) (dmem_decr a) (rate_high a) (rate_low a) (rate_zero a) (guest_free_threshold a) (startup_time a) v (trim_unmanaged a) (xen_data_size a).
Definition set_trim_unmanaged (v : bool) (a : active_settings) : active_settings :=
  mk_active (dmem_max a) (dmem_quota a) (dmem_min a) (dmem_incr a) (dmem_decr a) (rate_high a) (rate_low a) (rate_zero a) (guest_free_threshold a) (startup_time a) (trim_unresponsive a) v (xen_data_size a).
Definition set_xen_data_size (v : Z) (a : active_settings) : active_settings :=
  mk_active (dmem_max a) (dmem_quota a) (dmem_min a) (dmem_incr a) (dmem_decr a) (rate_high a) (rate_low a) (rate_zero a) (guest_free_threshold a) (startup_time a) (trim_unresponsive a) (trim_unmanaged a) v.

(** ** Configuration ([config.h], [config_def.h]) *)

Module config.

  (** [enum config_item_seq]: the position of each item in [config_def.h]. *)
Definition item_host_reserved_hard : Z := 8.
Definition item_host_reserved_soft : Z := 9.
Definition item_rate_high : Z := 10.
Definition item_rate_low : Z := 11.
Definition item_dmem_incr : Z := 12.
Definition item_dmem_decr : Z := 13.
Definition item_rate_zero : Z := 18.
Definition item_guest_free_threshold : Z := 19.
Definition item_trim_unmanaged : Z := 21.
Definition item_trim_unresponsive : Z := 22.
Definition item_startup_time : Z := 23.

  (** [config_itemmask_##name = (1UL << config_item_##name)] *)
Definition itemmask (item : Z) : Z := Z.shiftl 1 item.

Record t := mk {
    isset_mask : Z;
    isdef_mask : Z;
    interval : Z;
    host_reserved_hard : Z;
    host_reserved_soft : Z;
    rate_high : Z;
    rate_low : Z;
    dmem_incr : Q;
    dmem_decr : Q;
    rate_zero : Z;
    guest_free_threshold : Q;
    trim_unmanaged : bool;
    trim_unresponsive : Z;
    startup_time : Z
  }.

  (** [bool isval_##name(void) const
        { return (isset_mask | isdef_mask) & config_itemmask_##name; }] *)
Definition isval (c : t) (item : Z) : bool :=
    negb (Z.land (Z.lor (isset_mask c) (isdef_mask c)) (itemmask item) =? 0).

  (** [CONFIG_ITEM_CONST(shrink_protection_time, u_int, 1)] and
      [CONFIG_ITEM_CONST(domain_freemem_timeout, int, 700)] *)
Definition shrink_protection_time : Z := 1.
Definition domain_freemem_timeout : Z := 700.

End config.

(** ** Rate smoothing ([sched.cpp]: [calc_rates], [weight_samples]) *)

(** [static const double slow_weights[] = { 10, 3, 2, 2, 1 };] *)
Definition slow_weights : list Q := [10; 3; 2; 2; 1]%Q.
Definition nslow_weights : nat := length slow_weights.

(** The weights are integers: the one of index [k], and the sum of those
    from index [k] on. *)
Definition slow_weight (k : nat) : Z := nth k [10; 3; 2; 2; 1] 0.
Definition weight_left (k : nat) : Z := fold_right Z.add 0 (drop k [10; 3; 2; 2; 1]).

(** The loop of [weight_samples].  [k] is the loop index, which the body
    itself advances by [gap] before the loop's own [k++]; [prev_tick] is
    the tick of the sample visited before.  The accumulators are returned
    when the loop is left, by its condition or by a [break]. *)
Fixpoint weight_samples_loop (fuel : nat) (weights : list Q)
    (history : list rate_record) (nel k : nat) (prev_tick : Z)
    (sum_rate sum_weight : Q) : outcome (Q * Q) :=
  match fuel with
  | O => Ok (sum_rate, sum_weight)
  | S fuel' =>
    if (nel <=? k)%nat then Ok (sum_rate, sum_weight)
    else
      match history !! k with
      | None => Ok (sum_rate, sum_weight)
      | Some rr =>
        let accumulate (k' : nat) :=
          (* prev_tick = rr.tick;  if (k >= nel) break; *)
          if (nel <=? k')%nat then Ok (sum_rate, sum_weight)
          else
            let w := nth k' weights 0%Q in
            (* sum_weight += weights[k];  sum_rate += rr.rate * weights[k]; *)
            weight_samples_loop fuel' weights history nel (S k') (tick rr)
              (fadd sum_rate (fmul (double_of_long (rr_rate rr)) w)) (fadd sum_weight w) in
        if (k =? 0)%nat then accumulate k
        else
          (* int gap = prev_tick - rr.tick - 1; *)
          let gap := to_int (to_ulong (to_ulong (prev_tick - tick rr) - 1)) in
          if gap <? 0 then Fatal "bug: weight_samples bad gap"
          else if gap >? 1 then Ok (sum_rate, sum_weight)
          else accumulate (k + Z.to_nat gap)%nat
      end
  end.

(** [double domain_info::weight_samples(const double* weights, int nweights)] *)
Definition weight_samples (weights : list Q) (nweights : nat)
    (history : list rate_record) : outcome Q :=
  let nel := Nat.min nweights (length history) in
  obind (weight_samples_loop nel weights history nel 0 0 0%Q 0%Q)
        (fun '(sum_rate, sum_weight) => Ok (fdiv sum_rate sum_weight)).

(** [void domain_info::calc_rates(unsigned long tick)] *)
Definition calc_rates (tick : Z) (dom : domain_info) : outcome domain_info :=
  (* insert current element at the start, remove excess *)
  let history := take nslow_weights (mk_rate_record tick (rate dom) :: rate_history dom) in
  let dom := upd_sched (set_rate_history history) dom in
  let dom := upd_cur (set_fast_rate (rate dom)) dom in
  obind (weight_samples slow_weights nslow_weights (rate_history dom)) (fun w =>
  let dom := upd_cur (set_slow_rate (Qtrunc w)) dom in
  Ok (upd_cur (set_slow_rate (Z.max (rate dom) (slow_rate dom))) dom)).

(** ** Report parsing ([sched.cpp]: [parse_domain_report]) *)

(** *** The C library

    [strtol] and [strtod] belong to the C library.  Each is given by the
    value it returns, the number of characters it consumes (the offset of
    [ep] from [cp]) and whether it sets [errno]. *)
Class Libc := {
  strtol : string -> Z * nat * bool;     (* strtol(cp, &ep, 10) *)
  strtod : string -> Q * nat * bool      (* strtod(cp, &ep) *)
}.

Definition isdigit (c : ascii) : bool :=
  ((48 <=? nat_of_ascii c) && (nat_of_ascii c <=? 57))%nat.

(** [isblank]: space and horizontal tab *)
Definition isblank (c : ascii) : bool :=
  ((nat_of_ascii c =? 32) || (nat_of_ascii c =? 9))%nat.

(** [isdigit( *cp )]: the first character of the string, the terminating
    NUL (not a digit) when the string is empty *)
Definition starts_with_digit (cp : string) : bool :=
  match cp with
  | EmptyString => false
  | String c _ => isdigit c
  end.

Section Conversions.
Context `{Libc}.

(** [bool a2long(const char* cp, long* pval)] ([config_parser.cpp]):
    [*pval] is assigned whether or not the conversion succeeds. *)
Definition a2long (cp : string) : bool * Z :=
  let '(v, n, err) := strtol cp in
  (* if (errno || ep == cp || *ep) res = false; *)
  (negb (err || (n =? 0)%nat || negb (n =? String.length cp)%nat), v).

(** [bool a2double(const char* cp, double* pval)] ([config_parser.cpp]) *)
Definition a2double (cp : string) : bool * Q :=
  let '(v, n, err) := strtod cp in
  (* if (errno || ep == cp || *ep || !isdigit( *cp )) res = false; *)
  (negb (err || (n =? 0)%nat || negb (n =? String.length cp)%nat
         || negb (starts_with_digit cp)), v).

End Conversions.

(** *** Tokens and the key-value map *)

Definition newline : ascii := ascii_of_nat 10.
Definition colon : ascii := ascii_of_nat 58.

(** The successive results of [strtok_r(s, "\n", &saveptr)]: the maximal
    runs of characters other than the delimiter, empty runs skipped.
    [tok] is the token being read. *)
Fixpoint strtok_r (s : string) (tok : string) : list string :=
  match s with
  | EmptyString => if String.eqb tok "" then [] else [tok]
  | String c s' =>
    if Ascii.eqb c newline
    then (if String.eqb tok "" then strtok_r s' "" else tok :: strtok_r s' "")
    else strtok_r s' (tok ++ String c "")
  end.

(** [strchr(token, ':')]: the text before the first colon and the text
    after it, or [None] when the token has no colon *)
Fixpoint strchr_colon (token : string) : option (string * string) :=
  match token with
  | EmptyString => None
  | String c s' =>
    if Ascii.eqb c colon then Some (EmptyString, s')
    else match strchr_colon s' with
         | Some (k, v) => Some (String c k, v)
         | None => None
         end
  end.

(** [while (isblank( *val )) val++;] *)
Fixpoint skip_blanks (val : string) : string :=
  match val with
  | EmptyString => EmptyString
  | String c s' => if isblank c then skip_blanks s' else val
  end.

(** [typedef std::map<std::string, std::string> map_ss;] with
    [set_kv] ([kv[key] = val]) and [k2v] ([kv.find(key)]) *)
Definition set_kv (kv : gmap string string) (key val : string) : gmap string string :=
  <[key := val]> kv.

Definition k2v (kv : gmap string string) (key : string) : option string :=
  kv !! key.

(** The body of the loop that breaks the report down into the map. *)
Definition add_token (kv : gmap string string) (token : string) : gmap string string :=
  match strchr_colon token with
  | None => kv                                     (* if (!dp) continue; *)
  | Some (key, val) => set_kv kv key (skip_blanks val)
  end.

(** What [parse_domain_report] does with the domain. *)
Inductive report_status :=
  | ReportParsed      (* return true *)
  | ReportAbsent      (* return false: no raw report *)
  | ReportMalformed.  (* unmanage_domain(domain_id); return false *)

Definition report_ret (st : report_status) : bool :=
  match st with ReportParsed => true | _ => false end.

Section Parse.
Context `{Libc}.

(** [bool domain_info::parse_domain_report(void)].  The record returned
    with [ReportMalformed] is the one handed to [unmanage_domain]. *)
Definition parse_domain_report (dom : domain_info) : report_status * domain_info :=
  match report_raw dom with
  | None => (ReportAbsent, dom)
  | Some raw =>
    let unmanage (dom : domain_info) := (ReportMalformed, upd_cur (set_report_raw None) dom) in
    match raw with
    | String c0 (String c1 body) =>
      (* check report structure version *)
      if negb (Ascii.eqb c0 (ascii_of_nat 65)) || negb (Ascii.eqb c1 newline)
      then unmanage dom
      else
        (* break down report into key-value map *)
        let kv := fold_left add_token (strtok_r body "") ∅ in
        (* must include "action: report" *)
        match k2v kv "action" with
        | Some cp =>
          if negb (String.eqb cp "report") then unmanage dom
          else
            match k2v kv "kbsec" with
            | Some cp =>
              let '(ok, v) := a2long cp in
              let dom := upd_cur (set_rate v) dom in
              if negb ok then unmanage dom
              else
                match k2v kv "freepct" with
                | Some cp =>
                  let '(ok, v) := a2double cp in
                  let dom := upd_cur (set_freepct v) dom in
                  if negb ok then unmanage dom
                  else (ReportParsed, upd_cur (set_report_raw None) dom)
                | None => unmanage dom
                end
            | None => unmanage dom
            end
        | None => unmanage dom
        end
    | _ => unmanage dom
    end
  end.

End Parse.

(** *** Reports as lines of text

    A report seen as the text it is made of: the lines that end in a
    newline, [unlines], followed by a last line that may be left
    unterminated.  [last_value key lines] is the value of the last line
    that has [key] before its first colon: the text after the colon, less
    the blanks it begins with. *)

Fixpoint no_newline (s : string) : bool :=
  match s with
  | EmptyString => true
  | String c s' => negb (Ascii.eqb c newline) && no_newline s'
  end.

Definition unlines (lines : list string) : string :=
  fold_right (fun l s => l +:+ String newline s) EmptyString lines.

Fixpoint last_value (key : string) (lines : list string) : option string :=
  match lines with
  | [] => None
  | l :: lines' =>
    match last_value key lines' with
    | Some v => Some v
    | None =>
      match strchr_colon l with
      | Some (k, v) => if String.eqb k key then Some (skip_blanks v) else None
      | None => None
      end
    end
  end.

(** *** A model of the C library conversions

    [strtol] in base 10 as the C standard describes it, and [strtod] for
    decimal floating constants in the C locale.  The instance is what the
    examples of this file are evaluated with; the theorems about the
    parser hold for every [Libc]. *)

Definition isspace (c : ascii) : bool :=
  let n := nat_of_ascii c in ((n =? 32) || ((9 <=? n) && (n <=? 13)))%nat.

Fixpoint skip_space (s : string) : nat * string :=
  match s with
  | String c s' =>
    if isspace c then let '(n, r) := skip_space s' in (S n, r) else (O, s)
  | EmptyString => (O, s)
  end.

(** an optional sign: characters consumed, whether negative, the rest *)
Definition read_sign (s : string) : nat * bool * string :=
  match s with
  | String c s' =>
    if (nat_of_ascii c =? 45)%nat then (1%nat, true, s')
    else if (nat_of_ascii c =? 43)%nat then (1%nat, false, s')
    else (O, false, s)
  | EmptyString => (O, false, s)
  end.

(** a run of decimal digits: its value after [acc], its length, the rest *)
Fixpoint read_digits (s : string) (acc : Z) : Z * nat * string :=
  match s with
  | String c s' =>
    if isdigit c
    then let '(v, n, r) := read_digits s' (10 * acc + (Z.of_nat (nat_of_ascii c) - 48)) in
         (v, S n, r)
    else (acc, O, s)
  | EmptyString => (acc, O, s)
  end.

Definition strtol_model (cp : string) : Z * nat * bool :=
  let '(nws, s1) := skip_space cp in
  let '(nsg, neg, s2) := read_sign s1 in
  let '(v, nd, _) := read_digits s2 0 in
  match nd with
  | O => (0, O, false)                      (* no conversion: ep == cp *)
  | _ =>
    let v := if neg then - v else v in
    if v >? LONG_MAX then (LONG_MAX, (nws + nsg + nd)%nat, true)
    else if v <? - LONG_MAX - 1 then (- LONG_MAX - 1, (nws + nsg + nd)%nat, true)
    else (v, (nws + nsg + nd)%nat, false)
  end.

(** the exponent part [e[+-]digits], consumed only when digits follow *)
Definition read_exponent (s : string) : Z * nat :=
  match s with
  | String c s' =>
    if ((nat_of_ascii c =? 101) || (nat_of_ascii c =? 69))%nat
    then let '(nsg, neg, s2) := read_sign s' in
         let '(e, nd, _) := read_digits s2 0 in
         match nd with
         | O => (0, O)
         | _ => (if neg then - e else e, (1 + nsg + nd)%nat)
         end
    else (0, O)
  | EmptyString => (0, O)
  end.

Definition strtod_model (cp : string) : Q * nat * bool :=
  let '(nws, s1) := skip_space cp in
  let '(nsg, neg, s2) := read_sign s1 in
  let '(ip, ni, s3) := read_digits s2 0 in
  let '(m, nf, ndot, s4) :=
    match s3 with
    | String c s' =>
      if (nat_of_ascii c =? 46)%nat
      then let '(m, nf, r) := read_digits s' ip in
           match ni, nf with
           | O, O => (ip, O, O, s3)
           | _, _ => (m, nf, 1%nat, r)
           end
      else (ip, O, O, s3)
    | EmptyString => (ip, O, O, s3)
    end in
  match (ni + nf)%nat with
  | O => (0%Q, O, false)                    (* no conversion: ep == cp *)
  | _ =>
    let '(e, ne) := read_exponent s4 in
    let mant := Qmake m (Z.to_pos (10 ^ Z.of_nat nf)) in
    let v := (mant * Qpower 10 e)%Q in
    let v := if neg then Qopp v else v in
    let a := Qabs v in
    let erange := Qle_bool (Qpower 2 1024) a
                  || (negb (Qle_bool a 0) && negb (Qle_bool (Qpower 2 (-1022)) a)) in
    (v, (nws + nsg + ni + ndot + nf + ne)%nat, erange)
  end.

Definition libc_model : Libc := {| strtol := strtol_model; strtod := strtod_model |}.

(** ** Global state ([membalanced.h], static data of [sched.cpp]) *)

Record globals := mk_globals {
  cfg : config.t;                 (* config *)
  memquant_kbs : Z;               (* u_long *)
  pagesize_kbs : Z;               (* u_long *)
  memsched_pause_level : Z;       (* u_int *)
  xen_free_slack : Z;
  sched_tick : Z;                 (* unsigned long *)
  host_free : Z;
  xen_free0 : Z;
  host_lien0 : Z;
  managed : gmap Z domain_info;   (* doms.managed *)
  unmanaged : gset Z              (* doms.unmanaged *)
}.

Definition set_host_free (v : Z) (g : globals) : globals :=
  mk_globals (cfg g) (memquant_kbs g) (pagesize_kbs g) (memsched_pause_level g)
    (xen_free_slack g) (sched_tick g) v (xen_free0 g) (host_lien0 g) (managed g)
    (unmanaged g).

Definition set_managed (v : gmap Z domain_info) (g : globals) : globals :=
  mk_globals (cfg g) (memquant_kbs g) (pagesize_kbs g) (memsched_pause_level g)
    (xen_free_slack g) (sched_tick g) (host_free g) (xen_free0 g) (host_lien0 g) v
    (unmanaged g).

Definition set_unmanaged (v : gset Z) (g : globals) : globals :=
  mk_globals (cfg g) (memquant_kbs g) (pagesize_kbs g) (memsched_pause_level g)
    (xen_free_slack g) (sched_tick g) (host_free g) (xen_free0 g) (host_lien0 g)
    (managed g) v.

Definition set_xen_free_slack (v : Z) (g : globals) : globals :=
  mk_globals (cfg g) (memquant_kbs g) (pagesize_kbs g) (memsched_pause_level g)
    v (sched_tick g) (host_free g) (xen_free0 g) (host_lien0 g) (managed g)
    (unmanaged g).

Definition null_xcinfo : xc_domaininfo_t := mk_xcinfo 0 0 0.

(** The record a default-constructed [domain_info] holds before any
    setting is read ([domain_info::domain_info] marks unset values by -1). *)
Definition null_domain : domain_info :=
  mk_domain (-1) 0 (mk_xs None None (-1) (-1) XS_MEM_VIDEORAM_UNSET)
    (mk_xc 0 (-1) (-1) (-1) (-1) (-1) (-1) (-1) (-1) (-1) (-1) (-1) (-1) (-1) TriMaybe)
    (mk_active (-1) (-1) (-1) (-1) (-1) (-1) (-1) (-1) (-1) (-1) (-1) true 0)
    (mk_sched 0 0 [] 0 0 0 0 0)
    (mk_tick null_xcinfo None false false false RebalanceSide_NEUTRAL 0 0 0 0 0 0 0 0 0 0 0 0).

Global Instance domain_info_inhabited : Inhabited domain_info := populate null_domain.

(** Reading through a handle ([vec[k]->field]) and writing through it. *)
Definition deref (g : globals) (id : Z) : domain_info := managed g !!! id.

Definition upd_dom (id : Z) (f : domain_info -> domain_info) (g : globals) : globals :=
  set_managed (alter f id (managed g)) g.

(** [foreach_managed_domain]: the keys of [doms.managed], a [std::map],
    in ascending order *)
Definition managed_ids (g : globals) : list Z :=
  merge_sort Z.le (elements (dom (managed g))).

(** ** Stage 1: accounting for a fresh report ([stage_collect_data]) *)

Section Collect.
Context `{Libc}.

(** The [if (has_report)] block of [stage_collect_data], for a domain whose
    report has just been parsed. *)
Definition account_report (g : globals) (dom : domain_info) : outcome domain_info :=
  (* record when we saw last report *)
  let dom := upd_sched (set_no_report_time 0) dom in
  let dom := upd_sched (set_last_report_tick (sched_tick g)) dom in
  (* if (dom->freepct > config.guest_free_threshold * 100) dom->rate = 0;
     the product is the one of doubles: a threshold of 29%, held as the
     double nearest to 0.29, gives a product below 29 *)
  let dom :=
    if negb (Qle_bool (freepct dom) (fmul (config.guest_free_threshold (cfg g)) 100))
    then upd_cur (set_rate 0) dom else dom in
  (* if (dom->rate <= dom->rate_zero) dom->rate = 0; *)
  let dom := if rate dom <=? rate_zero dom then upd_cur (set_rate 0) dom else dom in
  obind (calc_rates (sched_tick g) dom) (fun dom =>
  (* account for rate history *)
  let dom :=
    if slow_rate dom <=? rate_low dom
    then upd_sched (set_time_rate_below_low (time_rate_below_low dom + config.interval (cfg g))) dom
    else upd_sched (set_time_rate_below_low 0) dom in
  let dom :=
    if fast_rate dom <? rate_high dom
    then upd_sched (set_time_rate_below_high (time_rate_below_high dom + config.interval (cfg g))) dom
    else upd_sched (set_time_rate_below_high 0) dom in
  Ok dom).

(** Parsing the raw report of a managed domain and accounting for it:
    [has_report = (dom->report_raw != NULL);
     if (has_report && !dom->parse_domain_report()) has_report = false;
     if (has_report) { ... }].
    The result is [None] when there is no valid report. *)
Definition collect_report (g : globals) (dom : domain_info)
  : outcome (option domain_info) :=
  match parse_domain_report dom with
  | (ReportParsed, dom) => obind (account_report g dom) (fun dom => Ok (Some dom))
  | _ => Ok None
  end.

End Collect.

(** ** Inlines of [sched.cpp] *)

(** [runnable]: the domain is neither dying, shut down nor paused (the
    second branch of the source is disabled by [false &&]). *)
Definition runnable (dom : domain_info) : bool :=
  if negb (Z.land (flags (xcinfo dom))
             (Z.lor (Z.lor XEN_DOMINF_dying XEN_DOMINF_shutdown) XEN_DOMINF_paused) =? 0)
  then false
  else true.

Inductive category_t := C_LOW | C_MID | C_HIGH.

Global Instance category_eq_dec : EqDecision category_t.
Proof. solve_decision. Defined.

Definition rate_category (dom : domain_info) (rate : Z) : category_t :=
  if rate >=? rate_high dom then C_HIGH
  else if rate <=? rate_low dom then C_LOW
  else C_MID.

Definition size_resist_category (dom : domain_info) (size : Z) : category_t :=
  if size >? dmem_quota dom then C_HIGH
  else if size <=? dmem_min dom then C_LOW
  else C_MID.

Definition size_expand_category (dom : domain_info) (size : Z) : category_t :=
  if size >=? dmem_quota dom then C_HIGH
  else if size <? dmem_min dom then C_LOW
  else C_MID.

(** [return (sched_tick - dom->last_expand_tick) <= config.shrink_protection_time;]
    in [unsigned long] arithmetic *)
Definition is_shrink_soft_protected (g : globals) (dom : domain_info) : bool :=
  to_ulong (sched_tick g - last_expand_tick dom) <=? config.shrink_protection_time.

(** ** [class domvector] ([domain.h]) *)

Definition Qltb (a b : Q) : bool := negb (Qle_bool b a).

Definition sort_asc_double (d1 d2 : domain_info) (delta : Q) : bool :=
  if Qltb delta 0 then true
  else if Qltb 0 delta then false
  else addr d1 <? addr d2.

Definition sort_desc_double (d1 d2 : domain_info) (delta : Q) : bool :=
  sort_asc_double d1 d2 (- delta)%Q.

Definition sort_asc_long (d1 d2 : domain_info) (delta : Z) : bool :=
  if delta <? 0 then true
  else if delta >? 0 then false
  else addr d1 <? addr d2.

Definition sort_desc_long (d1 d2 : domain_info) (delta : Z) : bool :=
  sort_asc_long d1 d2 (- delta).

Definition sortfunc_desc_by_expand_force (d1 d2 : domain_info) : bool :=
  sort_desc_double d1 d2 (expand_force d1 - expand_force d2)%Q.

Definition sortfunc_asc_by_resist_force (d1 d2 : domain_info) : bool :=
  sort_asc_double d1 d2 (resist_force d1 - resist_force d2)%Q.

Definition sortfunc_desc_by_time_rate_below_low (d1 d2 : domain_info) : bool :=
  sort_desc_long d1 d2 (time_rate_below_low d1 - time_rate_below_low d2).

Definition sortfunc_desc_by_time_rate_below_high (d1 d2 : domain_info) : bool :=
  sort_desc_long d1 d2 (time_rate_below_high d1 - time_rate_below_high d2).

(** [std::sort] with a predicate that orders the elements totally (the
    predicates above fall back on the addresses): the sorted arrangement is
    unique, and is computed here by insertion. *)
Fixpoint sort_insert (less : Z -> Z -> bool) (x : Z) (vec : list Z) : list Z :=
  match vec with
  | [] => [x]
  | y :: vec' => if less y x then y :: sort_insert less x vec' else x :: vec
  end.

Definition std_sort (less : Z -> Z -> bool) (vec : list Z) : list Z :=
  foldr (sort_insert less) [] vec.

Definition sort_by (g : globals) (sortfunc : domain_info -> domain_info -> bool)
    (vec : list Z) : list Z :=
  std_sort (fun a b => sortfunc (deref g a) (deref g b)) vec.

(** [vec.insert(vec.begin() + k, val)] *)
Definition insert_at (vec : list Z) (k : nat) (val : Z) : list Z :=
  take k vec ++ val :: drop k vec.

(** ** Stage 3: the soft reserve ([sched.cpp]) *)

(** The trimming loop shared by the rounds: each domain of [vec] in turn is
    trimmed towards [floor dom], by no more than the remaining [goal]:
    [trim = dom->memsize - floor; if (trim > 0) { trim = min(trim, goal);
     dom->memsize -= trim; goal -= trim; if (goal <= 0) break; }] *)
Fixpoint trim_loop (floor : domain_info -> Z) (vec : list Z) (goal : Z) (g : globals)
  : Z * globals :=
  match vec with
  | [] => (goal, g)
  | id :: vec' =>
    let dom := deref g id in
    let trim := memsize dom - floor dom in
    if trim >? 0 then
      let trim := Z.min trim goal in
      let g := upd_dom id (upd_cur (set_memsize (memsize dom - trim))) g in
      let goal := goal - trim in
      if goal <=? 0 then (goal, g) else trim_loop floor vec' goal g
    else trim_loop floor vec' goal g
  end.

Definition soft_reclaim_round_1 (goal : Z) (g : globals) : Z * globals :=
  if goal <=? 0 then (goal, g)
  else
    let vec := filter (fun id =>
      let dom := deref g id in
      valid_data dom &&
      negb (time_rate_below_low dom =? 0) &&
      (memsize dom >? dmem_quota dom) &&
      Qltb (dmem_decr dom) (inject_Z (memsize dom)) &&
      runnable dom &&
      negb (trimming_to_quota dom) &&
      negb (is_shrink_soft_protected g dom)) (managed_ids g) in
    let vec := sort_by g sortfunc_desc_by_time_rate_below_low vec in
    trim_loop (fun dom => Z.max (memsize_decr dom) (dmem_quota dom)) vec goal g.

Definition soft_reclaim_round_2 (goal : Z) (g : globals) : Z * globals :=
  if goal <=? 0 then (goal, g)
  else
    let vec := filter (fun id =>
      let dom := deref g id in
      valid_data dom &&
      negb (time_rate_below_low dom =? 0) &&
      Qltb (dmem_decr dom) (inject_Z (memsize dom)) &&
      runnable dom &&
      negb (trimming_to_quota dom) &&
      negb (is_shrink_soft_protected g dom)) (managed_ids g) in
    let vec := sort_by g sortfunc_desc_by_time_rate_below_low vec in
    trim_loop (fun dom => Z.max (memsize_decr dom) (dmem_min dom)) vec goal g.

Definition soft_reclaim_round_3 (goal : Z) (g : globals) : Z * globals :=
  if goal <=? 0 then (goal, g)
  else
    let vec := filter (fun id =>
      let dom := deref g id in
      valid_data dom &&
      negb (time_rate_below_high dom =? 0) &&
      (memsize dom >? dmem_quota dom) &&
      Qltb (dmem_decr dom) (inject_Z (memsize dom)) &&
      runnable dom &&
      negb (trimming_to_quota dom) &&
      negb (is_shrink_soft_protected g dom)) (managed_ids g) in
    let vec := sort_by g sortfunc_desc_by_time_rate_below_high vec in
    trim_loop (fun dom => Z.max (memsize_decr dom) (dmem_quota dom)) vec goal g.

(** [static long soft_reclaim(long goal)] *)
Definition soft_reclaim (goal : Z) (g : globals) : Z * globals :=
  let goal := roundup goal (memquant_kbs g) in
  let req := goal in
  let '(goal, g) := soft_reclaim_round_1 goal g in
  let '(goal, g) := soft_reclaim_round_2 goal g in
  let '(goal, g) := soft_reclaim_round_3 goal g in
  (req - goal, g).

(** [static void sched_reserved_soft(void)] *)
Definition sched_reserved_soft (g : globals) : globals :=
  if host_free g <? config.host_reserved_soft (cfg g) then
    let need := config.host_reserved_soft (cfg g) - host_free g in
    let '(reclaimed, g) := soft_reclaim need g in
    set_host_free (host_free g + reclaimed) g
  else g.

(** ** Memory pressure force calculus ([sched.cpp]) *)

(** [class eval_force_context]: [rmax] and the table [base[c_rate][c_size]].
    Only four entries of the table are assigned; the others, which the
    source never reads, are given as 0. *)
Record eval_force_context := mk_ctx {
  rmax : Z;
  base : category_t -> category_t -> Q
}.

Definition force_base (c_rate c_size : category_t) : Q :=
  match c_rate, c_size with
  | C_MID, C_MID => 60
  | C_MID, C_HIGH => 30
  | C_HIGH, C_MID => 100
  | C_HIGH, C_HIGH => 50
  | _, _ => 0
  end.

(** [static const double resist_force_free_soft = 45;] and
    [static const double eps = DBL_EPSILON;] *)
Definition resist_force_free_soft : Q := 45.
Definition eps : Q := 1 # (2 ^ 52).

(** [inline static double eval_force(long rate, double base, long rmax)] *)
Definition eval_force (rate : Z) (base : Q) (rmax : Z) : Q :=
  if negb (rmax =? 0) then (base + inject_Z rate / inject_Z rmax)%Q else base.

(** [eval_force_context::eval_resist_force_context], over the whole vector *)
Definition eval_resist_force_context (g : globals) (vec : list Z) : eval_force_context :=
  mk_ctx (fold_left (fun rmax id =>
            let dom := deref g id in
            if valid_data dom then Z.max rmax (slow_rate dom) else rmax) vec 0)
         force_base.

(** [static void eval_resist_force(eval_force_context& ctx, domain_info* dom)] *)
Definition eval_resist_force (ctx : eval_force_context) (dom : domain_info) : domain_info :=
  if negb (valid_data dom) then
    (* handle domains with no valid data in a special way *)
    match size_resist_category dom (memsize dom) with
    | C_LOW => upd_cur (set_resist_force 500) dom
    | C_MID => upd_cur (set_resist_force 62) dom
    | C_HIGH => upd_cur (set_resist_force 32) dom
    end
  else
    let c_rate := rate_category dom (slow_rate dom) in
    let c_size := size_resist_category dom (memsize dom) in
    match c_size with
    | C_LOW => upd_cur (set_resist_force 500) dom
    | C_MID =>
      match c_rate with
      | C_LOW => upd_cur (set_resist_force 40) dom
      | _ => upd_cur (set_resist_force
                        (eval_force (slow_rate dom) (base ctx c_rate c_size) (rmax ctx))) dom
      end
    | C_HIGH =>
      match c_rate with
      | C_LOW => upd_cur (set_resist_force 0) dom
      | _ => upd_cur (set_resist_force
                        (eval_force (slow_rate dom) (base ctx c_rate c_size) (rmax ctx))) dom
      end
    end.

(** [eval_force_context::eval_expand_force_context], over the whole vector *)
Definition eval_expand_force_context (g : globals) (vec : list Z)
  : outcome eval_force_context :=
  obind (fold_left (fun acc id =>
            obind acc (fun rmax =>
            let dom := deref g id in
            if negb (valid_data dom)
            then Fatal "bug: eval_expand_force: domain with no valid_data"
            else Ok (Z.max rmax (fast_rate dom)))) vec (Ok 0))
        (fun rmax => Ok (mk_ctx rmax force_base)).

(** [static void eval_expand_force(eval_force_context& ctx, domain_info* dom)] *)
Definition eval_expand_force (ctx : eval_force_context) (dom : domain_info) : domain_info :=
  let c_rate := rate_category dom (fast_rate dom) in
  let c_size := size_expand_category dom (memsize dom) in
  match c_rate with
  | C_LOW => upd_cur (set_expand_force 0) dom
  | C_MID =>
    match c_size with
    | C_LOW => upd_cur (set_expand_force 200) dom
    | _ => upd_cur (set_expand_force
                      (eval_force (fast_rate dom) (base ctx c_rate c_size) (rmax ctx))) dom
    end
  | C_HIGH =>
    match c_size with
    | C_LOW => upd_cur (set_expand_force 300) dom
    | _ => upd_cur (set_expand_force
                      (eval_force (fast_rate dom) (base ctx c_rate c_size) (rmax ctx))) dom
    end
  end.

(** ** Stage 4: rebalancing ([sched.cpp]) *)

(** How a loop of the scheduler was left: by its own condition, a [break]
    or a [return] ([Finished]); through [fatal_msg] ([Failed]); or not at
    all within the iterations granted to the model ([OutOfFuel]).  The
    state that comes with the status is the one reached. *)
Inductive status :=
  | Finished
  | OutOfFuel
  | Failed (msg : string).

(** [static long free_allocate(double expand_force, long need)] *)
Definition free_allocate (expand_force : Q) (need : Z) (g : globals)
  : outcome (Z * globals) :=
  if need <? 0 then Fatal "bug: free_allocate: need < 0"
  else
    let reserve := if Qltb resist_force_free_soft expand_force
                   then config.host_reserved_hard (cfg g)
                   else config.host_reserved_soft (cfg g) in
    let avail := host_free g - reserve in
    if avail <=? 0 then Ok (0, g)
    else
      let allocated := Z.min avail need in
      let allocated := rounddown allocated (memquant_kbs g) in
      Ok (allocated, set_host_free (host_free g - allocated) g).

(** [static bool expand_into_freemem(domain_info* dom, long need)] *)
Definition expand_into_freemem (id : Z) (need : Z) (g : globals)
  : outcome (bool * globals) :=
  obind (free_allocate (expand_force (deref g id)) need g) (fun '(chunk, g) =>
  if chunk =? 0 then Ok (false, g)
  else Ok (true, upd_dom id (fun dom => upd_cur (set_memsize (memsize dom + chunk)) dom) g)).

(** The binary search of [insert_into_vec_expand] and
    [insert_into_vec_shrink]: [before mid] is the comparison of the domain
    being inserted with [vec[mid]]. *)
Fixpoint insert_position (fuel : nat) (before : Z -> bool) (vec : list Z)
    (start end_ : Z) : Z :=
  match fuel with
  | O => start
  | S fuel' =>
    if start <=? end_ then
      let mid := Z.quot (start + end_) 2 in
      match vec !! Z.to_nat mid with
      | Some m =>
        if before m then insert_position fuel' before vec start (mid - 1)
        else insert_position fuel' before vec (mid + 1) end_
      | None => start
      end
    else start
  end.

(** [static void insert_into_vec_expand(domvector& vec, domain_info* dom)] *)
Definition insert_into_vec_expand (g : globals) (vec : list Z) (id : Z) : list Z :=
  let start := insert_position (S (length vec))
                 (fun m => Qle_bool (expand_force (deref g m)) (expand_force (deref g id)))
                 vec 0 (Z.of_nat (length vec) - 1) in
  insert_at vec (Z.to_nat start) id.

(** [static void insert_into_vec_shrink(domvector& vec, domain_info* dom)] *)
Definition insert_into_vec_shrink (g : globals) (vec : list Z) (id : Z) : list Z :=
  let start := insert_position (S (length vec))
                 (fun m => Qle_bool (resist_force (deref g id)) (resist_force (deref g m)))
                 vec 0 (Z.of_nat (length vec) - 1) in
  insert_at vec (Z.to_nat start) id.

(** The test by which [rebalance_domains] weeds out a domain that cannot
    be a victim: [victim->balside == RebalanceSide_EXPANDING ||
    victim->memsize <= victim->memsize_decr] *)
Definition ineligible_victim (victim : domain_info) : bool :=
  bool_decide (balside victim = RebalanceSide_EXPANDING)
  || (memsize victim <=? memsize_decr victim).

(** The size that [sched_rebalance] tries to expand a domain to in one
    round: up to the next threshold at which its size category changes. *)
Definition expansion_target (dom : domain_info) : Z :=
  if memsize dom <? dmem_min dom then Z.min (dmem_min dom) (memsize_incr dom)
  else if memsize dom <? dmem_quota dom then Z.min (dmem_quota dom) (memsize_incr dom)
  else memsize_incr dom.

(** [static void rebalance_domains(domain_info* dom, long need,
      eval_force_context& resist_force_context, domvector& vec_shrink)] *)
Fixpoint rebalance_domains (fuel : nat) (ctx : eval_force_context) (id : Z)
    (need : Z) (vec_shrink : list Z) (g : globals) : status * (list Z * globals) :=
  match fuel with
  | O => (OutOfFuel, (vec_shrink, g))
  | S fuel' =>
    if negb (need >? 0) then (Finished, (vec_shrink, g))
    else
      match vec_shrink with
      | [] => (Finished, (vec_shrink, g))
      | victim :: rest =>
        let v := deref g victim in
        (* weed out domains ineligible to be victims *)
        if ineligible_victim v
        then rebalance_domains fuel' ctx id need rest g
        (* if (dom->expand_force <= victim->resist_force) return; *)
        else if Qle_bool (expand_force (deref g id)) (resist_force v)
        then (Finished, (vec_shrink, g))
        else
          let m := if memsize v >? dmem_quota v
                   then Z.max (memsize_decr v) (dmem_quota v)
                   else memsize_decr v in
          let chunk := memsize v - m in
          (* record current size category *)
          let c_size := size_resist_category v (memsize v) in
          (* transfer memory from victim to dom *)
          let chunk := Z.min chunk need in
          let g := upd_dom victim (fun d => upd_cur (set_memsize (memsize d - chunk)) d) g in
          let g := upd_dom id (fun d => upd_cur (set_memsize (memsize d + chunk)) d) g in
          let need := need - chunk in
          let g := upd_dom victim (upd_cur (set_balside RebalanceSide_SHRINKING)) g in
          let v := deref g victim in
          if memsize v <=? memsize_decr v
          then rebalance_domains fuel' ctx id need rest g
          else if negb (bool_decide (c_size = size_resist_category v (memsize v)))
          then
            let g := upd_dom victim (eval_resist_force ctx) g in
            rebalance_domains fuel' ctx id need (insert_into_vec_shrink g rest victim) g
          else rebalance_domains fuel' ctx id need vec_shrink g
      end
  end.

(** The state of the [while (vec_expand.size() != 0)] loop of
    [sched_rebalance]. *)
Record rebalance_state := mk_rebalance {
  vec_expand : list Z;
  vec_shrink : list Z;
  rb_globals : globals
}.

Fixpoint rebalance_loop (fuel : nat) (expand_ctx resist_ctx : eval_force_context)
    (st : rebalance_state) : status * rebalance_state :=
  match fuel with
  | O => (OutOfFuel, st)
  | S fuel' =>
    match vec_expand st with
    | [] => (Finished, st)
    | id :: rest =>
      let g := rb_globals st in
      (* get element with the highest expansion pressure *)
      if bool_decide (balside (deref g id) = RebalanceSide_SHRINKING)
      then rebalance_loop fuel' expand_ctx resist_ctx (mk_rebalance rest (vec_shrink st) g)
      else
        let g := upd_dom id (upd_cur (set_balside RebalanceSide_EXPANDING)) g in
        let dom := deref g id in
        let m := expansion_target dom in
        (* in this round, try to expand dom by need *)
        let need := m - memsize dom in
        (* record current size category *)
        let c_size := size_expand_category dom (memsize dom) in
        (* the part of the body after the attempts to find memory *)
        let finish (m : Z) (vec_shrink : list Z) (g : globals) :=
          let dom := deref g id in
          if memsize dom >=? memsize_incr dom
          then rebalance_loop fuel' expand_ctx resist_ctx (mk_rebalance rest vec_shrink g)
          else if negb (bool_decide (size_expand_category dom (memsize dom) = c_size))
          then
            let g := upd_dom id (eval_expand_force expand_ctx) g in
            rebalance_loop fuel' expand_ctx resist_ctx
              (mk_rebalance (insert_into_vec_expand g rest id) vec_shrink g)
          else if memsize dom =? m
          then (Failed "bug: sched_rebalance: size category did not change",
                mk_rebalance (vec_expand st) vec_shrink g)
          else rebalance_loop fuel' expand_ctx resist_ctx
                 (mk_rebalance (vec_expand st) vec_shrink g) in
        match expand_into_freemem id need g with
        | Fatal msg => (Failed msg, mk_rebalance (vec_expand st) (vec_shrink st) g)
        | Ok (true, g) => finish m (vec_shrink st) g
        | Ok (false, g) =>
          (* try to satisfy the demand at the cost of shrinking other domains *)
          let m := memsize (deref g id) in
          match rebalance_domains fuel' resist_ctx id need (vec_shrink st) g with
          | (Finished, (vec_shrink, g)) =>
            (* if could not grow it at all, we are done with rebalancing *)
            if memsize (deref g id) =? m
            then (Finished, mk_rebalance (vec_expand st) vec_shrink g)
            else finish m vec_shrink g
          | (bad, (vec_shrink, g)) => (bad, mk_rebalance (vec_expand st) vec_shrink g)
          end
        end
    end
  end.

(** [static void sched_rebalance(void)] *)
Definition sched_rebalance (fuel : nat) (g : globals) : status * globals :=
  (* enumerate candidate domains for rebalancing *)
  let vec_expand := filter (fun id =>
    let dom := deref g id in
    valid_data dom && runnable dom && negb (trimming_to_quota dom)) (managed_ids g) in
  match vec_expand with
  | [] => (Finished, g)                        (* no domains to rebalance *)
  | _ =>
    let vec_shrink := vec_expand in
    (* calculate expansion and resistance-to-contraction forces *)
    match eval_expand_force_context g vec_expand with
    | Fatal msg => (Failed msg, g)
    | Ok expand_ctx =>
      let resist_ctx := eval_resist_force_context g vec_shrink in
      let g := fold_left (fun g id =>
                 let g := upd_dom id (eval_expand_force expand_ctx) g in
                 upd_dom id (eval_resist_force resist_ctx) g) vec_expand g in
      (* weed out domains that do not want to or cannot be expanded *)
      let g := fold_left (fun g id =>
                 upd_dom id (fun dom => upd_cur (set_expand_force0 (expand_force dom)) dom) g)
                 vec_expand g in
      let vec_expand := filter (fun id =>
        let dom := deref g id in
        negb (Qle_bool (expand_force dom) eps || (memsize dom >=? memsize_incr dom)))
        vec_expand in
      (* eliminate domains that cannot be shrunk any further in this tick *)
      let vec_shrink := filter (fun id =>
        let dom := deref g id in
        negb ((memsize dom <=? memsize_decr dom) || is_shrink_soft_protected g dom))
        vec_shrink in
      (* sort vectors *)
      let vec_expand := sort_by g sortfunc_desc_by_expand_force vec_expand in
      let vec_shrink := sort_by g sortfunc_asc_by_resist_force vec_shrink in
      (* process domains wishing to expand *)
      let '(st, rs) := rebalance_loop fuel expand_ctx resist_ctx
                         (mk_rebalance vec_expand vec_shrink g) in
      (st, rb_globals rs)
    end
  end.

(** ** Per-tick size margins ([sched.cpp]) *)

(** [inline static long eval_incr(const domain_info* dom)] *)
Definition eval_incr (g : globals) (dom : domain_info) : Z :=
  let m := memsize0 dom in
  let m := Qtrunc (inject_Z m * (1 + dmem_incr dom))%Q in
  let m := roundup m (memquant_kbs g) in
  let m := Z.max (dmem_min dom) m in
  Z.min (dmem_max dom) m.

(** [inline static long eval_decr(const domain_info* dom)] *)
Definition eval_decr (g : globals) (dom : domain_info) : Z :=
  let m0 := memsize0 dom in
  let m := Qtrunc (inject_Z m0 * (1 - dmem_decr dom))%Q in
  let m := roundup m (memquant_kbs g) in
  let m := Z.max (dmem_min dom) m in
  let m := Z.min (dmem_max dom) m in
  (* reduce decrement by the amount of previous trim over the tick *)
  if negb (preshrink dom =? 0) && (to_ulong (sched_tick g - preshrink_tick dom) <=? 1)
  then
    let decr := m0 - m in
    let decr := decr - preshrink dom in
    let decr := Z.max decr 0 in
    let m := m0 - decr in
    let m := roundup m (memquant_kbs g) in
    let m := Z.max (dmem_min dom) m in
    Z.min (dmem_max dom) m
  else m.

(** [inline static long eval_more_decr(domain_info* dom)] *)
Definition eval_more_decr (g : globals) (dom : domain_info) : Z :=
  let m := Qtrunc (inject_Z (memsize dom) * (1 - dmem_decr dom))%Q in
  let m := roundup m (memquant_kbs g) in
  let m := Z.max (dmem_min dom) m in
  Z.min (dmem_max dom) m.

(** [static void record_memory_info(domain_info* dom, const xc_domaininfo_t* xcinfo)] *)
Definition record_memory_info (g : globals) (info : xc_domaininfo_t) (dom : domain_info)
  : outcome domain_info :=
  let dom := upd_cur (set_xcinfo info) dom in
  let dom := upd_cur (set_memsize (to_long (pagesize_kbs g * tot_pages info - xen_data_size dom))) dom in
  let dom := upd_cur (set_memsize0 (memsize dom)) dom in
  if memsize dom <? 0 then Fatal "bug: memsize < 0"
  else
    let dom := upd_cur (set_memgoal0
                 (roundup (xs_mem_target dom + xs_mem_videoram dom) (pagesize_kbs g))) dom in
    let dom := upd_cur (set_memsize_incr (eval_incr g dom)) dom in
    let dom := upd_cur (set_memsize_decr (eval_decr g dom)) dom in
    Ok (upd_cur (set_valid_memory_data true) dom).

(** ** The host ([xen.cpp], [xenstore.cpp] and the Xen libraries behind them) *)

(** The daemon observes and drives the hypervisor through these calls.
    [xen] is the state of the host as far as the daemon can tell.
    [refresh_xs] processes the pending xenstore watch events, which may
    move domains between the registries. *)
Class Host := {
  xen : Type;
  get_xen_free_slack : xen -> Z;
  xen_wait_free_memory_stable : Z -> xen -> Z * xen;
  xen_wait_free_memory : Z -> Z -> xen -> Z * xen;
  xen_domain_uptime : Z -> xen -> Z;
  xcinfo_collect : xen -> gmap Z xc_domaininfo_t;           (* id2xcinfo.collect() *)
  set_memory_target : domain_info -> Z -> xen -> Z * xen;   (* returns rc *)
  refresh_xs : globals * xen -> globals * xen
}.

Section HostCalls.
Context `{Host}.

(** [bool trim_to_quota(domain_info* dom)] ([xen.cpp]) *)
Definition trim_to_quota (g : globals) (dom : domain_info) (x : xen) : bool * xen :=
  (* quota not defined? *)
  if dmem_quota dom <? 0 then (false, x)
  else
    (* if not above quota, do nothing *)
    let goal := roundup (xs_mem_target dom + xs_mem_videoram dom) (pagesize_kbs g) in
    if goal <=? dmem_quota dom then (false, x)
    else
      let '(rc, x) := set_memory_target dom (dmem_quota dom) x in
      if rc <? 0 then (false, x) else (true, x).

(** [void do_shrink_domain(domain_info* dom, long size)] ([xen.cpp]) *)
Definition do_shrink_domain (dom : domain_info) (size : Z) (x : xen) : xen :=
  snd (set_memory_target dom size x).

(** [void unmanage_domain(long domain_id)] ([domain.cpp]) for a domain of
    [doms.managed]: [transition_managed_unmanaged].  The registry of
    pending domains, which the second branch of the source consults, is
    not part of [globals]. *)
Definition unmanage_domain (domain_id : Z) (w : globals * xen) : globals * xen :=
  let '(g, x) := w in
  match (managed g !! domain_id : option domain_info) with
  | Some dom =>
    let x := if trim_unmanaged dom then snd (trim_to_quota g dom x) else x in
    (set_unmanaged ({[domain_id]} ∪ unmanaged g) (set_managed (delete domain_id (managed g)) g), x)
  | None => w
  end.

End HostCalls.

(** ** Stage 2: the hard reserve ([sched.cpp]) *)

Definition hard_reclaim_round_1 (goal : Z) (g : globals) : Z * globals :=
  if goal <=? 0 then (goal, g)
  else
    let vec := filter (fun id =>
      let dom := deref g id in
      valid_data dom &&
      negb (time_rate_below_low dom =? 0) &&
      runnable dom &&
      negb (trimming_to_quota dom)) (managed_ids g) in
    let vec := sort_by g sortfunc_desc_by_time_rate_below_low vec in
    trim_loop (fun dom => memsize_decr dom) vec goal g.

Definition hard_reclaim_round_2 (goal : Z) (g : globals) : Z * globals :=
  if goal <=? 0 then (goal, g)
  else
    let vec := filter (fun id =>
      let dom := deref g id in
      valid_data dom &&
      negb (time_rate_below_high dom =? 0) &&
      (memsize dom >? dmem_quota dom) &&
      (memsize dom =? memsize0 dom) &&
      runnable dom &&
      negb (trimming_to_quota dom)) (managed_ids g) in
    let vec := sort_by g sortfunc_desc_by_time_rate_below_high vec in
    trim_loop (fun dom => Z.max (memsize_decr dom) (dmem_quota dom)) vec goal g.

Definition hard_reclaim_round_3 (goal : Z) (g : globals) : Z * globals :=
  if goal <=? 0 then (goal, g)
  else
    let vec := filter (fun id =>
      let dom := deref g id in
      valid_data dom &&
      negb (time_rate_below_high dom =? 0) &&
      (memsize dom >? dmem_quota dom) &&
      runnable dom &&
      negb (trimming_to_quota dom)) (managed_ids g) in
    let vec := sort_by g sortfunc_desc_by_time_rate_below_high vec in
    trim_loop (fun dom => Z.max (eval_more_decr g dom) (dmem_quota dom)) vec goal g.

(** One pass of the [for] loop of rounds 4 and 5 over [vec]: every domain
    is grazed by one slice, down to [floor dom] at most, and leaves the
    vector once it has reached [floor dom].  The vector returned is the
    one the enclosing [while] loop goes on with. *)
Fixpoint slice_pass (floor : domain_info -> Z) (vec : list Z) (goal : Z) (g : globals)
  : list Z * Z * globals :=
  match vec with
  | [] => ([], goal, g)
  | id :: vec' =>
    let dom := deref g id in
    let m := eval_more_decr g dom in
    let trim := memsize dom - Z.max m (floor dom) in
    let '(goal', g', stop) :=
      if trim >? 0 then
        let trim := Z.min trim goal in
        let g := upd_dom id (upd_cur (set_memsize (memsize dom - trim))) g in
        (goal - trim, g, goal - trim <=? 0)
      else (goal, g, false) in
    if (stop : bool) then (vec, goal', g')
    else
      let dom := deref g' id in
      let '(rest, goal'', g'') := slice_pass floor vec' goal' g' in
      if memsize dom <=? floor dom then (rest, goal'', g'')   (* remove_at(vec, k--) *)
      else (id :: rest, goal'', g'')
  end.

(** [while (goal > 0 && vec.size()) { eval_resist_force(vec);
      vec.sort_asc_by_resist_force(); for (...) ... }] *)
Fixpoint slice_loop (fuel : nat) (floor : domain_info -> Z) (vec : list Z) (goal : Z)
    (g : globals) : status * (Z * globals) :=
  match fuel with
  | O => (OutOfFuel, (goal, g))
  | S fuel' =>
    if (goal >? 0) && negb (bool_decide (vec = [])) then
      let ctx := eval_resist_force_context g vec in
      let g := fold_left (fun g id => upd_dom id (eval_resist_force ctx) g) vec g in
      let vec := sort_by g sortfunc_asc_by_resist_force vec in
      let '(vec, goal, g) := slice_pass floor vec goal g in
      slice_loop fuel' floor vec goal g
    else (Finished, (goal, g))
  end.

(** [dom->rate = dom->slow_rate = dom->fast_rate = v] *)
Definition set_rates (v : Z) (dom : domain_info) : domain_info :=
  upd_cur (set_rate v) (upd_cur (set_slow_rate v) (upd_cur (set_fast_rate v) dom)).

Definition hard_reclaim_round_4 (fuel : nat) (goal : Z) (g : globals)
  : status * (Z * globals) :=
  if goal <=? 0 then (Finished, (goal, g))
  else
    let vec := filter (fun id =>
      let dom := deref g id in
      (memsize dom >? dmem_quota dom) && runnable dom && negb (trimming_to_quota dom))
      (managed_ids g) in
    (* treat domains with no recent valid data rate as having rate = 0 *)
    let g := fold_left (fun g id =>
               if negb (valid_data (deref g id)) then upd_dom id (set_rates 0) g else g)
               vec g in
    slice_loop fuel (fun dom => dmem_quota dom) vec goal g.

Section HardReclaim.
Context `{Host}.

Definition hard_reclaim_round_5 (fuel : nat) (goal : Z) (x : xen) (g : globals)
  : status * (Z * globals) :=
  if goal <=? 0 then (Finished, (goal, g))
  else
    let vec := filter (fun id =>
      let dom := deref g id in
      (memsize dom >? dmem_min dom) && runnable dom) (managed_ids g) in
    let g := fold_left (fun g id =>
               let dom := deref g id in
               if negb (valid_data dom) then
                 (* Dom0 is never young *)
                 if negb (domain_id dom =? 0) && (startup_time dom >=? 0)
                    && (xen_domain_uptime (domain_id dom) x <=? startup_time dom)
                 then upd_dom id (set_rates (rate_high dom + 1)) g
                 else upd_dom id (set_rates 0) g
               else g) vec g in
    slice_loop fuel (fun dom => dmem_min dom) vec goal g.

(** [static long hard_reclaim(long goal)] *)
Definition hard_reclaim (fuel : nat) (goal : Z) (x : xen) (g : globals)
  : status * (Z * globals) :=
  (* memory allocation is in quants *)
  let goal := roundup goal (memquant_kbs g) in
  let req := goal in
  let '(goal, g) := hard_reclaim_round_1 goal g in
  let '(goal, g) := hard_reclaim_round_2 goal g in
  let '(goal, g) := hard_reclaim_round_3 goal g in
  match hard_reclaim_round_4 fuel goal g with
  | (Finished, (goal, g)) =>
    let '(st, (goal, g)) := hard_reclaim_round_5 fuel goal x g in
    (st, (req - goal, g))
  | (bad, (goal, g)) => (bad, (req - goal, g))
  end.

(** [static void sched_reserved_hard(void)] *)
Definition sched_reserved_hard (fuel : nat) (x : xen) (g : globals) : status * globals :=
  if host_free g <? config.host_reserved_hard (cfg g) then
    let need := config.host_reserved_hard (cfg g) - host_free g in
    let '(st, (reclaimed, g)) := hard_reclaim fuel need x g in
    (st, set_host_free (host_free g + reclaimed) g)
  else (Finished, g).

End HardReclaim.

(** ** The free-memory operator command ([sched.cpp]: [sched_freemem]) *)

(** [inline static long calc_avail(long mfree, long lien, bool above_slack,
      bool draw_reserved_hard)] *)
Definition calc_avail (g : globals) (mfree lien : Z) (above_slack draw_reserved_hard : bool)
  : Z :=
  let mfree := if above_slack then mfree - xen_free_slack g else mfree in
  let mfree := if negb draw_reserved_hard
               then mfree - config.host_reserved_hard (cfg g) else mfree in
  let mfree := mfree - lien in
  let mfree := Z.max mfree 0 in
  rounddown mfree (memquant_kbs g).

(** [static long eval_memory_lien(void)] *)
Definition eval_memory_lien (g : globals) : Z :=
  fold_left (fun lien id =>
    let dom := deref g id in
    if negb (Z.land (flags (xcinfo dom)) XEN_DOMINF_paused =? 0)
    then lien + Z.max 0 (memgoal0 dom + xen_data_size dom - memsize0 dom)
    else lien) (managed_ids g) 0.

(** The reply of [sched_freemem]: the status character and the two
    free-memory figures stored through the [u_quad_t] pointers. *)
Record freemem_reply := mk_reply {
  reply_status : ascii;
  freemem_with_slack : Z;
  freemem_less_slack : Z
}.

Section FreeMem.
Context `{Host}.

(** [void collect_domain_memory_info(void)] *)
Definition collect_domain_memory_info (w : globals * xen) : outcome (globals * xen) :=
  (* process xenstore watch events *)
  let w := refresh_xs w in
  let infos := xcinfo_collect (snd w) in
  fold_left (fun acc id =>
    obind acc (fun w =>
    match (managed (fst w) !! id : option domain_info) with
    | None => Ok w
    | Some dom =>
      match infos !! domain_id dom with
      | None => Ok (unmanage_domain (domain_id dom) w)      (* domain is dead *)
      | Some info =>
        obind (record_memory_info (fst w) info dom) (fun dom =>
        Ok (upd_dom id (fun _ => dom) (fst w), snd w))
      end
    end)) (managed_ids (fst w)) (Ok w).

(** The loop of [sched_freemem] that executes the scheduled shrinking and
    records it in [preshrink]. *)
Definition execute_shrinking (w : globals * xen) : globals * xen :=
  fold_left (fun '(g, x) id =>
    let dom := deref g id in
    if (memsize dom <? memgoal0 dom) && runnable dom then
      let x := do_shrink_domain dom (memsize dom) x in
      (* record shrinkage data *)
      let g := if negb (preshrink_tick dom =? sched_tick g)
               then upd_dom id (fun dom =>
                      upd_sched (set_preshrink 0)
                        (upd_sched (set_preshrink_tick (sched_tick g)) dom)) g
               else g in
      let g := upd_dom id (fun dom =>
                 upd_sched (set_preshrink
                   (preshrink dom + Z.max 0 (memsize0 dom - memsize dom))) dom) g in
      (g, x)
    else (g, x)) (managed_ids (fst w)) w.

(** [int sched_freemem(u_quad_t u_reqamt, bool above_slack,
      bool draw_reserved_hard, bool must, int timeout,
      u_quad_t* p_freemem_with_slack, u_quad_t* p_freemem_less_slack)].
    Log output is left out; [testmode] is 0 outside development builds. *)
Definition sched_freemem (fuel : nat) (u_reqamt : Z) (above_slack draw_reserved_hard must : bool)
    (timeout : Z) (w : globals * xen) : status * (freemem_reply * (globals * xen)) :=
  let req := to_long u_reqamt in
  let reply (c : ascii) (a b : Z) := mk_reply c (to_ulong a) (to_ulong b) in
  (* automatic memory adjustment must be paused, or the request does not make sense *)
  if memsched_pause_level (fst w) =? 0 then (Finished, (reply "P"%char 0 0, w))
  else
    (* collect memory allocation data *)
    let timeout := timeout * 1000 - config.domain_freemem_timeout in
    let timeout := Z.max 0 timeout in
    let '(xen_free_memory, x) := xen_wait_free_memory_stable timeout (snd w) in
    let g := set_xen_free_slack (get_xen_free_slack x) (fst w) in
    match collect_domain_memory_info (g, x) with
    | Fatal msg => (Failed msg, (reply "A"%char 0 0, (g, x)))
    | Ok (g, x) =>
      let lien := eval_memory_lien g in
      (* absolute maximum of memory attainable after shrinking all managed
         runnable domains down to dmem_min *)
      let freeable := fold_left (fun freeable id =>
        let dom := deref g id in
        if (memsize dom >? dmem_min dom) && runnable dom
        then freeable + (memsize dom - dmem_min dom) else freeable) (managed_ids g) 0 in
      let max_xen_free_memory := xen_free_memory + freeable in
      let max_avail := calc_avail g max_xen_free_memory lien above_slack draw_reserved_hard in
      let max_avail_with_slack := calc_avail g max_xen_free_memory lien false draw_reserved_hard in
      let max_avail_less_slack := calc_avail g max_xen_free_memory lien true draw_reserved_hard in
      if req <=? 0
      then (Finished, (reply "A"%char max_avail_with_slack max_avail_less_slack, (g, x)))
      else if req >=? Z.quot LONG_MAX 2
      then (Finished, (reply "A"%char 0 0, (g, x)))
      else
        (* allocation will be in quants *)
        let req := roundup req (memquant_kbs g) in
        if must && (req >? max_avail)
        then (Finished, (reply "N"%char max_avail_with_slack max_avail_less_slack, (g, x)))
        else
          let avail := calc_avail g xen_free_memory lien above_slack false in
          let avail_with_slack := calc_avail g xen_free_memory lien false false in
          let avail_less_slack := calc_avail g xen_free_memory lien true false in
          if req <=? avail
          then (Finished, (reply "A"%char avail_with_slack avail_less_slack, (g, x)))
          else
            (* perform domain squeeze scheduling *)
            let cond_free_slack := if above_slack then xen_free_slack g else 0 in
            let reclaim := req + config.host_reserved_hard (cfg g) + cond_free_slack
                           + lien - xen_free_memory in
            let reclaim := Z.max reclaim 0 in
            let reclaim := Z.min reclaim freeable in
            let reclaim := roundup reclaim (memquant_kbs g) in
            match hard_reclaim fuel reclaim x g with
            | (Finished, (reclaimed, g)) =>
              if (reclaimed <? reclaim) && must
              then (Finished, (reply "N"%char avail_with_slack avail_less_slack, (g, x)))
              else
                (* execute shrinking *)
                let '(g, x) := execute_shrinking (g, x) in
                (* wait for a limited time for shrinking to complete *)
                let xen_free_target := xen_free_memory + Z.min reclaimed reclaim in
                let '(xen_free_memory, x) :=
                  xen_wait_free_memory xen_free_target config.domain_freemem_timeout x in
                (* outstanding lien might have changed *)
                match collect_domain_memory_info (g, x) with
                | Fatal msg => (Failed msg, (reply "A"%char 0 0, (g, x)))
                | Ok (g, x) =>
                  let lien := eval_memory_lien g in
                  (Finished,
                   (reply "A"%char (calc_avail g xen_free_memory lien false draw_reserved_hard)
                              (calc_avail g xen_free_memory lien true draw_reserved_hard),
                    (g, x)))
                end
            | (bad, (_, g)) => (bad, (reply "A"%char 0 0, (g, x)))
            end
    end.

(** [rcmd_freemem_1_svc] ([rcmd_server.cpp]): the RPC service routine of
    the operator's free-memory command stores the status and the two
    figures in its result. *)
Definition rcmd_freemem_1_svc (fuel : nat) (amt : Z) (above_slack use_reserved_hard must : bool)
    (timeout : Z) (w : globals * xen) : status * (freemem_reply * (globals * xen)) :=
  sched_freemem fuel amt above_slack use_reserved_hard must timeout w.

End FreeMem.

(** ** Settings resolution ([domain.cpp]: [resolve_settings]) *)

(** Messages sent to the log by [error_msg] and [warning_msg]. *)
Inductive log_entry :=
  | error_msg (text : string)
  | warning_msg (text : string).

(** [%ld] *)
Definition ld (z : Z) : string := DecimalString.NilZero.string_of_int (Z.to_int z).

(** [const char* domain_info::printable_name(void)] *)
Definition printable_name (dom : domain_info) : string :=
  let s := ld (domain_id dom) in
  match vm_name dom, vm_uuid dom with
  | Some name, Some uuid => s +:+ " (name: " +:+ name +:+ ", uuid: " +:+ uuid +:+ ")"
  | Some name, None => s +:+ " (name: " +:+ name +:+ ")"
  | None, Some uuid => s +:+ " (uuid: " +:+ uuid +:+ ")"
  | None, None => s
  end.

(** [void domain_info::undefined_setting(const char* key)] *)
Definition undefined_setting (dom : domain_info) (key : string) : log_entry :=
  error_msg ("parameter " +:+ key +:+ " undefined for domain " +:+ printable_name dom).

(** One link of the resolution chain of a [long] or [int] setting that
    falls back on the global configuration:
    [if (xc_f >= 0) f = xc_f; else if (config.isval_f()) f = config.f;
     else { undefined_setting("f"); valid = false; }].
    The result is the value to assign, if any. *)
Definition resolve_long (xc_value : Z) (g : globals) (item : Z) (config_value : Z)
  : option Z :=
  if xc_value >=? 0 then Some xc_value
  else if config.isval (cfg g) item then Some config_value
  else None.

Definition resolve_double (xc_value : Q) (g : globals) (item : Z) (config_value : Q)
  : option Q :=
  if Qle_bool 0 xc_value then Some xc_value
  else if config.isval (cfg g) item then Some config_value
  else None.

(** The resolution state threaded through the first part of
    [resolve_settings]: the record, the messages logged and [valid]. *)
Definition assign {A} (key : string) (set : A -> active_settings -> active_settings)
    (v : option A) (required : bool) (st : domain_info * list log_entry * bool)
  : domain_info * list log_entry * bool :=
  let '(dom, log, valid) := st in
  match v with
  | Some v => (upd_act (set v) dom, log, valid)
  | None =>
    if required then (dom, log ++ [undefined_setting dom key], false)
    else st
  end.

(** The consistency checks in the order of the source: whether the check
    applies and fails, and the text appended to [msg] when it does.  (The
    remainder [xs_mem_videoram % memquant_kbs] is taken of a positive
    [long], which its conversion to [unsigned long] preserves.) *)
Definition unfulfilled (g : globals) (automode : bool) (dom : domain_info)
  : list (bool * string) :=
  [ (automode && negb (rate_low dom <? rate_high dom),
     "rate_low (" +:+ ld (rate_low dom) +:+ ") < rate_high (" +:+ ld (rate_high dom) +:+ ")");
    (automode && negb (dmem_min dom <=? dmem_quota dom),
     "dmem_min (" +:+ ld (dmem_min dom) +:+ ") <= dmem_quota (" +:+ ld (dmem_quota dom) +:+ ")");
    (automode && negb (dmem_quota dom <=? dmem_max dom),
     "dmem_quota (" +:+ ld (dmem_quota dom) +:+ ") <= dmem_max (" +:+ ld (dmem_max dom) +:+ ")");
    (negb automode && negb (dmem_min dom <=? dmem_max dom),
     "dmem_min (" +:+ ld (dmem_min dom) +:+ ") <= dmem_max (" +:+ ld (dmem_max dom) +:+ ")");
    (negb (dmem_max dom <=? xs_mem_max dom),
     "dmem_max (rounded up to page size: " +:+ ld (dmem_max dom) +:+ ") <= maxmem ("
       +:+ ld (xs_mem_max dom) +:+ ")");
    ((xs_mem_videoram dom >? 0)
       && negb (xs_mem_videoram dom mod memquant_kbs g =? 0),
     "videoram (" +:+ ld (xs_mem_videoram dom) +:+ ") is multiple of page size ("
       +:+ ld (memquant_kbs g) +:+ "K)") ].

(** [if (msg.length() != 0) msg += ", ";  msg += buf;  valid = false;]
    for each check that fails *)
Definition append_unfulfilled (acc : string * bool) (check : bool * string) : string * bool :=
  let '(msg, valid) := acc in
  if fst check
  then ((if negb (String.length msg =? 0)%nat then msg +:+ ", " else msg) +:+ snd check, false)
  else acc.

(** The values that the resolution chain finds for the settings, [None]
    when no link of the chain defines one. *)
Definition chain_dmem_min (dom : domain_info) : option Z :=
  if xc_dmem_min dom >=? 0 then Some (xc_dmem_min dom)
  else if xc_memory dom >=? 0 then Some (xc_memory dom)
  else None.

Definition chain_dmem_max (dom : domain_info) : option Z :=
  if xc_dmem_max dom >=? 0 then Some (xc_dmem_max dom)
  else if xs_mem_max dom >=? 0 then Some (xs_mem_max dom)
  else if xc_memory dom >=? 0 then Some (xc_memory dom)
  else None.

Definition chain_dmem_quota (dom : domain_info) : option Z :=
  if xc_dmem_quota dom >=? 0 then Some (xc_dmem_quota dom)
  else if xc_memory dom >=? 0 then Some (xc_memory dom)
  else None.

Definition chain_dmem_incr (g : globals) (dom : domain_info) : option Q :=
  resolve_double (xc_dmem_incr dom) g config.item_dmem_incr (config.dmem_incr (cfg g)).

Definition chain_dmem_decr (g : globals) (dom : domain_info) : option Q :=
  resolve_double (xc_dmem_decr dom) g config.item_dmem_decr (config.dmem_decr (cfg g)).

Definition chain_rate_high (g : globals) (dom : domain_info) : option Z :=
  resolve_long (xc_rate_high dom) g config.item_rate_high (to_long (config.rate_high (cfg g))).

Definition chain_rate_low (g : globals) (dom : domain_info) : option Z :=
  resolve_long (xc_rate_low dom) g config.item_rate_low (to_long (config.rate_low (cfg g))).

Definition chain_rate_zero (g : globals) (dom : domain_info) : option Z :=
  resolve_long (xc_rate_zero dom) g config.item_rate_zero (to_long (config.rate_zero (cfg g))).

Definition chain_guest_free_threshold (g : globals) (dom : domain_info) : option Q :=
  resolve_double (xc_guest_free_threshold dom) g config.item_guest_free_threshold
    (config.guest_free_threshold (cfg g)).

Definition chain_startup_time (g : globals) (dom : domain_info) : option Z :=
  resolve_long (xc_startup_time dom) g config.item_startup_time (config.startup_time (cfg g)).

Definition chain_trim_unresponsive (g : globals) (dom : domain_info) : option Z :=
  resolve_long (xc_trim_unresponsive dom) g config.item_trim_unresponsive
    (config.trim_unresponsive (cfg g)).

Definition chain_trim_unmanaged (g : globals) (dom : domain_info) : option bool :=
  match xc_trim_unmanaged dom with
  | TriTrue => Some true
  | TriFalse => Some false
  | TriMaybe =>
    if config.isval (cfg g) config.item_trim_unmanaged
    then Some (config.trim_unmanaged (cfg g)) else None
  end.

(** [bool automode = 0 != (ctrl_modes_allowed & CTRL_MODE_AUTO);] *)
Definition automode (dom : domain_info) : bool :=
  negb (Z.land (ctrl_modes_allowed dom) CTRL_MODE_AUTO =? 0).

(** The first part of [resolve_settings], up to [CHECK(valid)]. *)
Definition resolve_chain (g : globals) (dom : domain_info)
  : domain_info * list log_entry * bool :=
  let st := (dom, [], true) in
  let st := assign "dmem_min" set_dmem_min (chain_dmem_min dom) true st in
  let st := assign "dmem_max" set_dmem_max (chain_dmem_max dom) true st in
  if automode dom then
    let st := assign "dmem_quota" set_dmem_quota (chain_dmem_quota dom) true st in
    let st := assign "dmem_incr" set_dmem_incr (chain_dmem_incr g dom) true st in
    let st := assign "dmem_decr" set_dmem_decr (chain_dmem_decr g dom) true st in
    let st := assign "rate_high" set_rate_high (chain_rate_high g dom) true st in
    let st := assign "rate_low" set_rate_low (chain_rate_low g dom) true st in
    let st := assign "rate_zero" set_rate_zero (chain_rate_zero g dom) true st in
    let st := assign "guest_free_threshold" set_guest_free_threshold
                (chain_guest_free_threshold g dom) true st in
    let st := assign "startup_time" set_startup_time (chain_startup_time g dom) false st in
    let st := assign "trim_unresponsive" set_trim_unresponsive
                (chain_trim_unresponsive g dom) false st in
    assign "trim_unmanaged" set_trim_unmanaged (chain_trim_unmanaged g dom) false st
  else st.

(** [round up memory sizes to Xen allocation quant size] *)
Definition round_sizes (g : globals) (dom : domain_info) : domain_info :=
  let dom := if dmem_max dom >=? 0
             then upd_act (set_dmem_max (roundup (dmem_max dom) (memquant_kbs g))) dom
             else dom in
  let dom := if dmem_min dom >=? 0
             then upd_act (set_dmem_min (roundup (dmem_min dom) (memquant_kbs g))) dom
             else dom in
  if dmem_quota dom >=? 0
  then upd_act (set_dmem_quota (roundup (dmem_quota dom) (memquant_kbs g))) dom
  else dom.

(** [bool domain_info::resolve_settings(void)]: the value returned, the
    messages logged and the record with its active settings assigned. *)
Definition resolve_settings (g : globals) (dom : domain_info)
  : bool * list log_entry * domain_info :=
  let '(dom, log, valid) := resolve_chain g dom in
  (* CHECK(valid); *)
  if negb valid then (false, log, dom)
  else
    let dom := round_sizes g dom in
    let '(msg, valid) :=
      fold_left append_unfulfilled (unfulfilled g (automode dom) dom) (""%string, true) in
    if negb valid then
      (false,
       log ++ [error_msg ("parameter values are incoherent for domain " +:+ printable_name dom
                          +:+ ", unfulfilled: " +:+ msg)],
       dom)
    else if dmem_min dom =? dmem_max dom then
      (false,
       log ++ [warning_msg ("domain " +:+ printable_name dom
                            +:+ " cannot be managed by membalance because "
                            +:+ "dmem_min == dmem_max (" +:+ ld (dmem_min dom) +:+ ")")],
       dom)
    else (true, log, dom).

(** *** What the checks of [resolve_settings] stand for *)

Definition is_some {A} (v : option A) : bool :=
  match v with Some _ => true | None => false end.

(** Every setting that the control modes require is defined by some link
    of its chain. *)
Definition settings_defined (g : globals) (dom : domain_info) : bool :=
  is_some (chain_dmem_min dom) && is_some (chain_dmem_max dom) &&
  (if automode dom then
     is_some (chain_dmem_quota dom) && is_some (chain_dmem_incr g dom) &&
     is_some (chain_dmem_decr g dom) && is_some (chain_rate_high g dom) &&
     is_some (chain_rate_low g dom) && is_some (chain_rate_zero g dom) &&
     is_some (chain_guest_free_threshold g dom)
   else true).

(** The required settings that no link of their chain defines, by their
    keys and in the order in which [resolve_settings] looks for them. *)
Definition missing {A} (key : string) (v : option A) : list string :=
  if is_some v then [] else [key].

Definition undefined_keys (g : globals) (dom : domain_info) : list string :=
  missing "dmem_min" (chain_dmem_min dom) ++
  missing "dmem_max" (chain_dmem_max dom) ++
  (if automode dom then
     missing "dmem_quota" (chain_dmem_quota dom) ++
     missing "dmem_incr" (chain_dmem_incr g dom) ++
     missing "dmem_decr" (chain_dmem_decr g dom) ++
     missing "rate_high" (chain_rate_high g dom) ++
     missing "rate_low" (chain_rate_low g dom) ++
     missing "rate_zero" (chain_rate_zero g dom) ++
     missing "guest_free_threshold" (chain_guest_free_threshold g dom)
   else []).

(** The consistency conditions on resolved settings. *)
Definition settings_consistent (g : globals) (dom : domain_info) : Prop :=
  (automode dom = true ->
     rate_low dom < rate_high dom /\ dmem_min dom <= dmem_quota dom <= dmem_max dom) /\
  (automode dom = false -> dmem_min dom <= dmem_max dom) /\
  dmem_max dom <= xs_mem_max dom /\
  (xs_mem_videoram dom > 0 -> xs_mem_videoram dom mod memquant_kbs g = 0).

(** The texts of the checks that fail, in the order of the source. *)
Definition unfulfilled_texts (g : globals) (dom : domain_info) : list string :=
  map snd (filter (fun c => fst c = true) (unfulfilled g (automode dom) dom)).

(** ** Sample states

    Concrete configurations, domains and reports on which the model is run. *)

(** The defaults of [config_def.h]; every item is marked as defaulted. *)
Definition default_config : config.t :=
  config.mk 0 (Z.ones 30) 5 0 0 200 0 (6 # 100) (4 # 100) 30 (15 # 100) true 200 300.

(** A host with 4 KB pages at tick 1000, scheduling not paused. *)
Definition sample_globals (c : config.t) (host_free : Z) (doms : list domain_info) : globals :=
  mk_globals c 4 4 0 0 1000 host_free 0 0
    (list_to_map (map (fun d => (domain_id d, d)) doms)) ∅.

Definition running : xc_domaininfo_t := mk_xcinfo XEN_DOMINF_running 0 0.

(** A managed domain in AUTO mode with [dmem_min] = 1000, [dmem_quota] =
    2000 and [dmem_max] = 4000 KB and the default thresholds, holding
    valid data for the current tick. *)
Definition sample_domain (id : Z) (history : sched_data) (now : tick_data) : domain_info :=
  mk_domain id (4096 * id) (mk_xs None None 4000 (memsize0 now) 0)
    (mk_xc CTRL_MODE_AUTO (-1) (-1) 4000 2000 1000 (-1) (-1) (-1) (-1) (-1) (-1) (-1) (-1) TriMaybe)
    (mk_active 4000 2000 1000 (6 # 100) (4 # 100) 200 0 30 (15 # 100) 300 200 true 0)
    history now.

Definition fresh_tick (report : option string) : tick_data :=
  mk_tick running report false false false RebalanceSide_NEUTRAL 0 0 0 0 0 1500 1500 1592 1440 0 0 0.

Definition report_idle : string :=
"A
action: report
progname: memprobed
progversion: 0.1
seq: 7
kb: 0
kbsec: 0
freepct: 100
".


(** A domain that reported 0 KB/s at ticks 999 and 998. *)
Definition was_idle : domain_info :=
  sample_domain 1 (mk_sched 999 0 [mk_rate_record 999 0; mk_rate_record 998 0] 10 10 0 0 0)
    (fresh_tick (Some report_idle)).

(** A domain with five samples of 50 KB/s at ticks 995 to 999, at tick 1000. *)
Definition steady : domain_info :=
  sample_domain 1
    (mk_sched 999 0 [mk_rate_record 999 50; mk_rate_record 998 50; mk_rate_record 997 50;
                     mk_rate_record 996 50; mk_rate_record 995 50] 0 25 0 0 0)
    (mk_tick running None false false false RebalanceSide_NEUTRAL 50 5 0 0 0
       1500 1500 1592 1440 0 0 0).

(** [steady] with the rate 2^53 + 3 in the place of 50: a rate that is
    not a double, and that the conversion to [double] takes to 2^53 + 4. *)
Definition flooded : domain_info :=
  sample_domain 1
    (mk_sched 999 0 [mk_rate_record 999 (2 ^ 53 + 3); mk_rate_record 998 (2 ^ 53 + 3);
                     mk_rate_record 997 (2 ^ 53 + 3); mk_rate_record 996 (2 ^ 53 + 3);
                     mk_rate_record 995 (2 ^ 53 + 3)] 0 25 0 0 0)
    (mk_tick running None false false false RebalanceSide_NEUTRAL (2 ^ 53 + 3) 5 0 0 0
       1500 1500 1592 1440 0 0 0).

(** A pending domain whose config file sets
    [membalance_guest_free_threshold = 10%], below the global 15%. *)
Definition picky : domain_info :=
  mk_domain 2 8192 (mk_xs None None 4000 1500 0)
    (mk_xc CTRL_MODE_AUTO 1500 4000 4000 2000 1000 (-1) (-1) (-1) (-1) (-1) (10 # 100)
       (-1) (-1) TriMaybe)
    (act null_domain) (mk_sched 0 0 [] 0 0 0 0 0) (fresh_tick None).

Definition report_12pct_free : string :=
"A
action: report
progname: memprobed
progversion: 0.1
seq: 8
kb: 5000
kbsec: 1000
freepct: 12.000000
".

(** A pending domain in AUTO mode whose config file sets
    [membalance_dmem_min], [membalance_dmem_quota] and [membalance_dmem_max]
    to the same 2048 KB. *)
Definition fixed_size : domain_info :=
  mk_domain 3 12288 (mk_xs (Some "web") None 4000 2048 0)
    (mk_xc CTRL_MODE_AUTO 2048 4000 2048 2048 2048 (-1) (-1) (-1) (-1) (-1) (-1)
       (-1) (-1) TriMaybe)
    (act null_domain) (mk_sched 0 0 [] 0 0 0 0 0) (fresh_tick None).

(** The record of a tick for a running domain with valid data that is
    [size] KB large and pages at [kbsec] KB/s; [incr] and [decr] are the
    margins of [eval_incr] and [eval_decr] for that size. *)
Definition sized_tick (kbsec size incr decr : Z) : tick_data :=
  mk_tick running None true true false RebalanceSide_NEUTRAL kbsec 50 kbsec kbsec 0
    size size incr decr 0 0 0.

(** An idle domain of 3000 KB, above its quota, last expanded long ago. *)
Definition idle_big : domain_info :=
  sample_domain 1
    (mk_sched 1000 0 [mk_rate_record 1000 0; mk_rate_record 999 0] 10 10 0 0 0)
    (sized_tick 0 3000 3180 2880).

(** A domain of 1500 KB paging at 500 KB/s, above [rate_high]. *)
Definition hungry : domain_info :=
  sample_domain 2 (mk_sched 1000 0 [mk_rate_record 1000 500] 0 0 0 0 0)
    (sized_tick 500 1500 1592 1440).

(** A domain like [idle_big] that was expanded at tick 999. *)
Definition just_expanded : domain_info :=
  sample_domain 3
    (mk_sched 1000 0 [mk_rate_record 1000 0; mk_rate_record 999 0] 10 10 999 0 0)
    (sized_tick 0 3000 3180 2880).

(** A domain of 3000 KB paging at 500 KB/s. *)
Definition starving : domain_info :=
  sample_domain 4 (mk_sched 1000 0 [mk_rate_record 1000 500] 0 0 0 0 0)
    (sized_tick 500 3000 3180 2880).

(** [idle_big] after a transfer of 120 KB to another domain has taken it
    from 3000 KB down to its [memsize_decr]. *)
Definition spent : domain_info :=
  sample_domain 1
    (mk_sched 1000 0 [mk_rate_record 1000 0; mk_rate_record 999 0] 10 10 0 0 0)
    (mk_tick running None true true false RebalanceSide_SHRINKING 0 50 0 0 0
       3000 2880 3180 2880 0 0 0).

(** [starving] with the expansion force that stage 4 gives it when its
    rate is the highest of all. *)
Definition bidding : domain_info := upd_cur (set_expand_force 51) starving.

(** A domain of 3000 KB paging at 100 KB/s, with a resist force of 60. *)
Definition resisting : domain_info :=
  upd_cur (set_resist_force 60)
    (sample_domain 5 (mk_sched 1000 0 [mk_rate_record 1000 100] 0 5 0 0 0)
       (sized_tick 100 3000 3180 2880)).

(** The defaults with a soft reserve of 1000 KB. *)
Definition reserve_config : config.t :=
  config.mk 0 (Z.ones 30) 5 0 1000 200 0 (6 # 100) (4 # 100) 30 (15 # 100) true 200 300.

(** A host at tick 1000 with no free memory, short of its soft reserve. *)
Definition short_host : globals :=
  sample_globals reserve_config 0 [idle_big; hungry; just_expanded].

(** A host at tick 1000 with no free memory and no reserve to keep. *)
Definition full_host : globals :=
  sample_globals default_config 0 [idle_big; just_expanded; starving].

(** [full_host] with [spent] in the place of [idle_big]. *)
Definition spent_host : globals :=
  sample_globals default_config 0 [spent; just_expanded; starving].

(** A host with no free memory where the requester is weaker than the
    only other domain. *)
Definition contested_host : globals :=
  sample_globals default_config 0 [bidding; resisting].

(** A report without the fields [progname], [progversion] and [kb], with
    a [seq] that is no number, a line without a colon, an empty line, and
    a last line that is not terminated. *)
Definition report_sparse : string :=
"A
action: report
seq: x y z
garbage

kbsec: 7
freepct: 12.5".

Definition sparse : domain_info :=
  sample_domain 1 (mk_sched 999 0 [] 0 0 0 0 0) (fresh_tick (Some report_sparse)).

(** A report with two lines for the key [action]. *)
Definition report_two_actions : string :=
"A
action: report
action: stop
kbsec: 0
freepct: 100
".

(** A report whose [freepct] is a number that begins with the point. *)
Definition report_point : string :=
"A
action: report
kbsec: 0
freepct: .5
".

(** A host with no free memory where one domain has no valid data. *)
Definition quiet_host : globals :=
  sample_globals default_config 0 [was_idle; just_expanded; starving].

(** A report whose first line is not the version [A]. *)
Definition report_unversioned : string :=
"B
action: report
kbsec: 0
freepct: 100
".

Definition unversioned : domain_info :=
  sample_domain 1 (mk_sched 999 0 [mk_rate_record 999 0] 10 10 0 0 0)
    (fresh_tick (Some report_unversioned)).

(** A domain that last reported at tick 998 and has no report at tick 1000. *)
Definition silent : domain_info :=
  sample_domain 1 (mk_sched 998 5 [mk_rate_record 998 50] 0 25 0 0 0) (fresh_tick None).

(** The defaults with a hard reserve of 1000 KB. *)
Definition hard_reserve_config : config.t :=
  config.mk 0 (Z.ones 30) 5 1000 0 200 0 (6 # 100) (4 # 100) 30 (15 # 100) true 200 300.

(** [idle_big], paused. *)
Definition paused : domain_info :=
  upd_cur (set_xcinfo (mk_xcinfo XEN_DOMINF_paused 0 0)) idle_big.

(** A host at tick 1000 with no free memory, short of its hard reserve. *)
Definition starved_host : globals :=
  sample_globals hard_reserve_config 0 [paused; hungry; just_expanded].



(** A host that never changes: 8 GB free, no slack, no domain known to Xen. *)
Definition still_host : Host := {|
  xen := unit;
  get_xen_free_slack := fun _ => 0;
  xen_wait_free_memory_stable := fun _ x => (8388608, x);
  xen_wait_free_memory := fun _ _ x => (8388608, x);
  xen_domain_uptime := fun _ _ => 1000;
  xcinfo_collect := fun _ => ∅;
  set_memory_target := fun _ _ x => (0, x);
  refresh_xs := fun w => w
|}.

(** ** Invariants

    The predicates that the proofs below carry through the loops. *)

(** The ticks of a history descend, and no sample is more than [2^31]
    ticks older than a sample before it: the [int] that [weight_samples]
    holds the gap in then has the value of the gap. *)
Definition ticks_descend (h : list rate_record) : Prop :=
  forall (i j : nat) (ri rj : rate_record), (i < j)%nat ->
    h !! i = Some ri -> h !! j = Some rj -> 1 <= tick ri - tick rj <= 2 ^ 31.

(** What the resolution chain keeps: the identity of the domain and the
    settings it reads; nothing is logged while [valid] holds, and what is
    logged are [undefined_setting] messages. *)
Definition chain_inv (dom0 : domain_info) (st : domain_info * list log_entry * bool) : Prop :=
  let '(dom, log, valid) := st in
  xs dom = xs dom0 /\ xc dom = xc dom0 /\ domain_id dom = domain_id dom0
  /\ (valid = true -> log = [])
  /\ (valid = false -> log <> [])
  /\ Forall (fun e => exists key, e = undefined_setting dom0 key) log.

(** What a stage keeps of a domain.  [id] is a handle, [d0] the record it
    stood for when the stage was entered, [tick0] the tick being scheduled,
    and [candidate] says that the stage selected the domain as a candidate
    for shrinking.  The domain stays in the registry with its per-tick
    floor and its history; its scheduled size is not reduced, except that
    a candidate may be taken down to [memsize_decr]. *)
Definition kept (id : Z) (d0 : domain_info) (tick0 : Z) (candidate : Prop) (g : globals)
  : Prop :=
  sched_tick g = tick0 /\
  exists d : domain_info, managed g !! id = Some d
    /\ memsize_decr d = memsize_decr d0
    /\ sched d = sched d0
    /\ (memsize d0 <= memsize d \/ (candidate /\ memsize_decr d0 <= memsize d)).

(** What stages 3 and 4 leave of the domain that the handle [id] stood
    for when the stage was entered in [g] with record [d]: the tick, the
    floor [memsize_decr] and the history are the same, and the scheduled
    size is not reduced, unless the domain was not shrink-protected, and
    then it is not taken below [memsize_decr]. *)
Definition unshrunk (g : globals) (id : Z) (d : domain_info) (g' : globals) : Prop :=
  kept id d (sched_tick g) (is_shrink_soft_protected g d = false) g'.

(** ** Memory accounts

    The quantities the stages move memory between: the scheduled sizes of
    the managed domains, and the free memory of the host. *)
Definition total_memsize (g : globals) : Z :=
  map_fold (fun (_ : Z) (d : domain_info) (acc : Z) => memsize d + acc) 0 (managed g).

Definition total_memory (g : globals) : Z := host_free g + total_memsize g.

(** A property [R] holds of the record that the handle [id] stands for. *)
Definition tracked (R : domain_info -> Prop) (id : Z) (g : globals) : Prop :=
  exists d : domain_info, managed g !! id = Some d /\ R d.

(** [d] is [d0] with a scheduled size that is not above that of [d0]. *)
Definition shrunk_from (d0 d : domain_info) : Prop :=
  d = upd_cur (set_memsize (memsize d)) d0 /\ memsize d <= memsize d0.

(** What a trimming pass that started in [g] with the goal [goal] has
    done when it ends with [r]: the memory taken from the domains is what
    the goal has decreased by, nothing but records of the registry has
    changed, and a goal that was not negative is neither exceeded nor
    raised. *)
Definition trimmed_from (g : globals) (goal : Z) (r : Z * globals) : Prop :=
  total_memsize (snd r) - fst r = total_memsize g - goal
  /\ (exists m', snd r = set_managed m' g /\ dom m' = dom (managed g))
  /\ (0 <= goal -> 0 <= fst r <= goal).

(** What the rebalancing stage may have done to the state [g] when it has
    reached [g']: memory is neither created nor lost, nothing but the free
    memory of the host and records of the registry has changed, and the free
    memory is not raised, nor drawn below the lower of the two reserves
    when it was not below it. *)
Definition rebalanced_from (g g' : globals) : Prop :=
  total_memory g' = total_memory g
  /\ (exists h m', g' = set_host_free h (set_managed m' g) /\ dom m' = dom (managed g))
  /\ Z.min (host_free g)
           (Z.min (config.host_reserved_hard (cfg g)) (config.host_reserved_soft (cfg g)))
     <= host_free g' <= host_free g.

(** [d] is [d0] but for the scheduled size, the side of the rebalancing
    and the three forces. *)
Definition rebalance_frame (d0 d : domain_info) : Prop :=
  d = upd_cur (fun t =>
        set_expand_force0 (expand_force0 d)
          (set_resist_force (resist_force d)
             (set_expand_force (expand_force d)
                (set_balside (balside d) (set_memsize (memsize d) t))))) d0.

(** What the rebalancing stage may have done to a domain whose record was
    [d0]: a domain that does not take part is left as it is, and no
    domain is expanded unless it is [expandable], and then not above its
    [memsize_incr]. *)
Definition rebalanced_domain (d0 : domain_info) (participant expandable : Prop)
    (d : domain_info) : Prop :=
  rebalance_frame d0 d
  /\ (memsize d <= memsize d0 \/ (expandable /\ memsize d <= memsize_incr d0))
  /\ (participant \/ d = d0).

(** A domain takes part in the rebalancing stage when it has valid data,
    is runnable and is not being trimmed to its quota; it can be expanded
    when, besides, its rate is not in the low category and its size is
    below the ceiling of the tick. *)
Definition rebalance_participant (d : domain_info) : Prop :=
  valid_data d && runnable d && negb (trimming_to_quota d) = true.

Definition rebalance_expandable (d : domain_info) : Prop :=
  rate_category d (fast_rate d) <> C_LOW /\ memsize d < memsize_incr d.

(** The domains that no round of the soft-reserve stage selects. *)
Definition soft_reserve_exempt (d : domain_info) : Prop :=
  valid_data d = false \/ runnable d = false \/ trimming_to_quota d = true
  \/ (time_rate_below_low d = 0 /\ time_rate_below_high d = 0).

(** ** Stage 1: one managed domain in the second loop of [stage_collect_data]

    [void domain_info::begin_sched_tick(void)] *)
Definition begin_sched_tick (dom : domain_info) : domain_info :=
  let dom := upd_cur (set_trimming_to_quota false) dom in
  let dom := upd_cur (set_valid_data false) dom in
  let dom := upd_cur (set_valid_memory_data false) dom in
  let dom := upd_cur (set_balside RebalanceSide_NEUTRAL) dom in
  upd_cur (set_expand_force0 0) dom.

(** How an iteration of the second loop of [stage_collect_data] ends for a
    domain: with its record brought up to date, the state of the host, and
    what the domain adds to [freeing]; or, when its report was malformed,
    with the domain unmanaged by [parse_domain_report], the state of the
    host and what the iteration still adds to [freeing]. *)
Inductive collected {xen : Type} :=
  | Collected (dom : domain_info) (x : xen) (freeing : Z)
  | Discarded (w : globals * xen) (freeing : Z).

Section CollectDomain.
Context `{Libc} `{Host}.

(** The end of the body, reached when no [continue] has been taken before:
    [if (!runnable(dom)) continue;
     if (sched_tick > dom->last_report_tick + 1) continue;
     dom->valid_data = true;] *)
Definition participate (g : globals) (dom : domain_info) : domain_info :=
  if negb (runnable dom) then dom
  else if sched_tick g >? to_ulong (last_report_tick dom + 1) then dom
  else upd_cur (set_valid_data true) dom.

(** The body from [else if (runnable(dom))] on, which is what remains of
    it when [has_report] is false: the record, the state of the host and
    what is added to [freeing]. *)
Definition without_report (g : globals) (dom : domain_info) (x : xen)
  : domain_info * xen * Z :=
  if runnable dom then
    (* if domain did not report in for a while, trim it down to quota *)
    let dom := upd_sched (set_no_report_time
                            (no_report_time dom + config.interval (cfg g))) dom in
    if (trim_unresponsive dom >? 0)
       && (no_report_time dom >? trim_unresponsive dom)
       && (memsched_pause_level g =? 0)
    then
      let '(trimming, x) := trim_to_quota g dom x in
      if trimming then
        let dom := upd_cur (set_trimming_to_quota true) dom in
        let freeing := Z.max 0 (memsize dom - dmem_quota dom) in
        let dom := upd_cur (set_memsize (dmem_quota dom)) dom in
        let dom := upd_cur (set_memsize0 (memsize dom)) dom in
        let dom := upd_cur (set_memgoal0 (memsize0 dom)) dom in
        (dom, x, freeing)
      else (participate g dom, x, 0)
    else (participate g dom, x, 0)
  else (participate g dom, x, 0).

(** The body of the second [foreach_managed_domain] loop of
    [stage_collect_data].  When the report is malformed,
    [parse_domain_report] has unmanaged the domain by the time it returns
    false, and [transition_managed_unmanaged] has deleted its record; the
    source has no [continue] there, so that with [has_report] false the
    body goes on through the pointer to the deleted record.  What it reads
    there is taken to be what the record held when it was deleted; what it
    writes there is lost with the record. *)
Definition collect_domain (g : globals) (dom : domain_info) (x : xen)
  : outcome collected :=
  match parse_domain_report dom with
  | (ReportMalformed, dom) =>
    let '(g', x) := unmanage_domain (domain_id dom) (g, x) in
    let '(_, x, freeing) := without_report g' dom x in
    Ok (Discarded (g', x) freeing)
  | (ReportParsed, dom) =>
    obind (account_report g dom) (fun dom => Ok (Collected (participate g dom) x 0))
  | (ReportAbsent, dom) =>
    let '(dom, x, freeing) := without_report g dom x in
    Ok (Collected dom x freeing)
  end.

End CollectDomain.

(** The rate that [stage_collect_data] gives a tick for which the domain
    has reported [kbsec] and [pct]: the report is overridden by 0 when the
    guest has more free memory than the global [guest_free_threshold]
    (the product by 100 is the rounded one of the source), and when the
    rate is not above the domain's [rate_zero]. *)
Definition tick_rate (g : globals) (dom : domain_info) (kbsec : Z) (pct : Q) : Z :=
  if negb (Qle_bool pct (fmul (config.guest_free_threshold (cfg g)) 100)) then 0
  else if kbsec <=? rate_zero dom then 0
  else kbsec.


(** What stage 2 may write of a domain's record: the scheduled size and,
    in rounds 4 and 5, the rates and the resist force. *)
Definition reclaim_frame (d0 d : domain_info) : Prop :=
  d = upd_cur (fun t => set_rate (rate d) (set_slow_rate (slow_rate d)
        (set_fast_rate (fast_rate d) (set_resist_force (resist_force d)
        (set_memsize (memsize d) t))))) d0.

(** The record [d] of a domain in or after stage 2, against the record
    [d0] it had when the stage was entered. *)
Definition hard_reclaimed (d0 d : domain_info) : Prop :=
  reclaim_frame d0 d
  /\ Z.min (memsize d0) (Z.min (memsize_decr d0) (Z.min (dmem_quota d0) (dmem_min d0)))
     <= memsize d <= memsize d0
  /\ (runnable d0 = true \/ d = d0).


(** * Properties *)

(** ** Machine arithmetic *)

(** The macros evaluated in [unsigned long], as C does, give the
    mathematical values for operands in the range of [long]. *)
Lemma rounddown_unsigned (n r : Z) :
  0 <= n <= LONG_MAX -> 0 < r ->
  to_long (to_ulong (to_ulong n / r * r)) = rounddown n r.
Proof.
  intros Hn Hr. unfold rounddown, to_long, to_ulong, ULONG_MOD, LONG_MAX in *.
  rewrite Z.quot_div_nonneg by lia.
  assert (0 <= n / r * r <= n).
  { pose proof (Z.mul_div_le n r Hr). pose proof (Z.div_pos n r). nia. }
  rewrite (Z.mod_small n) by lia.
  rewrite !(Z.mod_small (n / r * r)) by lia.
  destruct (Z.ltb_spec (n / r * r) (2 ^ 63)); lia.
Qed.

Lemma roundup_unsigned (n r : Z) :
  0 <= n <= LONG_MAX -> 0 < r -> n + r <= LONG_MAX ->
  to_long (to_ulong (to_ulong (to_ulong (to_ulong n + r) - 1) / r) * r) = roundup n r.
Proof.
  intros Hn Hr Hs. unfold roundup, to_long, to_ulong, ULONG_MOD, LONG_MAX in *.
  rewrite Z.quot_div_nonneg by lia.
  rewrite (Z.mod_small n) by lia.
  rewrite (Z.mod_small (n + r)) by lia.
  rewrite (Z.mod_small (n + r - 1)) by lia.
  assert (0 <= (n + r - 1) / r * r <= n + r - 1).
  { pose proof (Z.mul_div_le (n + r - 1) r Hr).
    pose proof (Z.div_pos (n + r - 1) r). nia. }
  assert (0 <= (n + r - 1) / r <= n + r - 1) by nia.
  rewrite (Z.mod_small ((n + r - 1) / r)) by lia.
  rewrite !(Z.mod_small ((n + r - 1) / r * r)) by lia.
  destruct (Z.ltb_spec ((n + r - 1) / r * r) (2 ^ 63)); lia.
Qed.

Lemma rounddown_nonneg (n r : Z) : 0 <= n -> 0 <= rounddown n r.
Proof.
  intros Hn. unfold rounddown.
  destruct (Z.lt_trichotomy r 0) as [Hr|[->|Hr]].
  - replace (Z.quot n r * r) with (Z.quot n (- r) * (- r)).
    + pose proof (Z.quot_pos n (- r)). nia.
    + rewrite Z.quot_opp_r by lia. ring.
  - rewrite Z.mul_0_r. lia.
  - pose proof (Z.quot_pos n r). nia.
Qed.

Lemma rounddown_spec (n r : Z) :
  0 <= n -> 0 < r ->
  rounddown n r mod r = 0 /\ rounddown n r <= n < rounddown n r + r.
Proof.
  intros Hn Hr. unfold rounddown. rewrite Z.quot_div_nonneg by lia. split.
  - apply Z.mod_mul. lia.
  - pose proof (Z.mul_div_le n r Hr).
    pose proof (Z.mul_succ_div_gt n r Hr). lia.
Qed.

(** ** Binary64 arithmetic *)

Lemma Qred_inject_Z (q : Q) (z : Z) : (q == inject_Z z)%Q -> Qred q = inject_Z z.
Proof.
  intros E.
  assert (E' : (Qred q == inject_Z z)%Q) by (rewrite Qred_correct; exact E).
  pose proof (gcd_Qred q) as G.
  destruct (Qred q) as [n d]. cbn [Qnum Qden] in G.
  assert (En : n = z * Z.pos d).
  { unfold Qeq in E'. cbn in E'. lia. }
  subst n. rewrite Z.gcd_comm, Z.mul_comm, Z.gcd_mul_diag_l in G by lia.
  injection G as ->. unfold inject_Z. f_equal. lia.
Qed.

Lemma round_half_even_inject (y : Q) (k : Z) :
  (y == inject_Z k)%Q -> round_half_even y = k.
Proof.
  destruct y as [n d]. unfold Qeq, round_half_even. cbn. intros E.
  assert (En : n = k * Z.pos d) by lia. subst n.
  rewrite Z.div_mul, Z.mod_mul by lia. cbn. reflexivity.
Qed.

Lemma round_half_even_le (y : Q) (N : Z) :
  (y <= inject_Z N)%Q -> round_half_even y <= N.
Proof.
  destruct y as [n d]. unfold Qle, round_half_even. cbn. rewrite Z.mul_1_r. intros E.
  assert (Hf : n / Z.pos d <= N).
  { apply Z.div_le_upper_bound; lia. }
  destruct (Z.eq_dec (n / Z.pos d) N) as [Ef|Hne].
  - assert (Hm : n mod Z.pos d = 0).
    { pose proof (Z.div_mod n (Z.pos d)). pose proof (Z.mod_pos_bound n (Z.pos d)). nia. }
    rewrite Hm. change (2 * 0) with 0. destruct (Z.ltb_spec 0 (Z.pos d)); lia.
  - repeat match goal with |- context [if ?c then _ else _] => destruct c end; lia.
Qed.

Lemma round_half_even_ge (y : Q) (N : Z) :
  (inject_Z N <= y)%Q -> N <= round_half_even y.
Proof.
  destruct y as [n d]. unfold Qle, round_half_even. cbn. rewrite Z.mul_1_r. intros E.
  assert (Hf : N <= n / Z.pos d).
  { apply Z.div_le_lower_bound; lia. }
  repeat match goal with |- context [if ?c then _ else _] => destruct c end; lia.
Qed.

Lemma binade_inject_Z (z : Z) : z <> 0 -> binade (inject_Z z) = Z.log2 (Z.abs z).
Proof.
  intros Hz. unfold binade. cbn [Qnum Qden inject_Z]. change (Z.log2 1) with 0.
  rewrite Z.sub_0_r.
  destruct (Z.leb_spec 0 (Z.log2 (Z.abs z))) as [_|H];
    [|pose proof (Z.log2_nonneg (Z.abs z)); lia].
  destruct (Z.ltb_spec (Z.abs z) (1 * 2 ^ Z.log2 (Z.abs z))) as [H|_]; [|reflexivity].
  pose proof (Z.log2_spec (Z.abs z)). lia.
Qed.

Lemma binade_bound (q : Q) :
  0 < Z.abs (Qnum q) < 2 ^ 53 * Z.pos (Qden q) -> binade q <= 52.
Proof.
  intros [Hpos Hlt]. unfold binade.
  set (a := Z.abs (Qnum q)) in *. set (d := Z.pos (Qden q)) in *.
  assert (Hlog : Z.log2 a <= 53 + Z.log2 d).
  { rewrite <- Z.log2_mul_pow2 by lia. apply Z.log2_le_mono. lia. }
  set (e := Z.log2 a - Z.log2 d).
  destruct (Z.eq_dec e 53) as [E|Hne].
  - rewrite E. cbn [Z.leb Z.compare]. change (0 <=? 53) with true. cbv iota.
    destruct (Z.ltb_spec a (d * 2 ^ 53)); lia.
  - destruct (if 0 <=? e then _ else _); lia.
Qed.

Lemma Qshift_pos (q : Q) (s : Z) :
  0 <= s -> (Qshift q s == q * inject_Z (2 ^ s))%Q.
Proof. intros Hs. unfold Qshift. destruct (Z.leb_spec 0 s); [reflexivity|lia]. Qed.

Lemma Qshift_neg (q : Q) (s : Z) :
  0 <= s -> (Qshift q (- s) == q / inject_Z (2 ^ s))%Q.
Proof.
  intros Hs. unfold Qshift. destruct (Z.leb_spec 0 (- s)).
  - assert (s = 0) by lia. subst s.
    change (inject_Z (2 ^ (- 0))) with 1%Q. change (inject_Z (2 ^ 0)) with 1%Q. field.
  - now rewrite Z.opp_involutive.
Qed.

Lemma pow2_Qpos (s : Z) : 0 <= s -> (0 < inject_Z (2 ^ s))%Q.
Proof.
  intros Hs. change 0%Q with (inject_Z 0). rewrite <- Zlt_Qlt.
  apply Z.pow_pos_nonneg; lia.
Qed.

(** A rational that is an integer below 2^53 in magnitude is a double. *)
Lemma round64_inject (q : Q) (z : Z) :
  (q == inject_Z z)%Q -> Z.abs z < 2 ^ 53 -> round64 q = inject_Z z.
Proof.
  intros E Hz. unfold round64. rewrite (Qred_inject_Z q z E).
  destruct (Z.eq_dec z 0) as [->|Hne]; [reflexivity|].
  destruct (Qeq_bool (inject_Z z) 0) eqn:E0.
  { apply Qeq_bool_iff in E0. unfold Qeq in E0. cbn in E0. lia. }
  rewrite (binade_inject_Z z Hne).
  assert (He : 0 <= Z.log2 (Z.abs z) <= 52).
  { split; [apply Z.log2_nonneg|].
    assert (Z.log2 (Z.abs z) < 53); [|lia].
    apply Z.log2_lt_pow2; lia. }
  rewrite Z.max_l by lia.
  set (s := 52 - Z.log2 (Z.abs z)).
  replace (Z.log2 (Z.abs z) - 52) with (- s) by (subst s; lia).
  assert (Hs : 0 <= s) by (subst s; lia).
  rewrite (round_half_even_inject _ (z * 2 ^ s)).
  2:{ rewrite Qshift_pos by exact Hs. now rewrite inject_Z_mult. }
  apply Qred_inject_Z. rewrite Qshift_neg by exact Hs.
  rewrite inject_Z_mult. pose proof (pow2_Qpos s Hs). field. lra.
Qed.

Lemma round64_le (q : Q) (M : Z) :
  (Qabs q < inject_Z (2 ^ 53))%Q -> (q <= inject_Z M)%Q -> (round64 q <= inject_Z M)%Q.
Proof.
  intros Hb Hle. unfold round64.
  pose proof (Qred_correct q) as C. set (q' := Qred q) in *.
  destruct (Qeq_bool q' 0) eqn:E0.
  { apply Qeq_bool_iff in E0. rewrite <- C, E0 in Hle. exact Hle. }
  assert (Hne : ~ (q' == 0)%Q) by (intros E; apply Qeq_bool_iff in E; congruence).
  assert (He : binade q' <= 52).
  { apply binade_bound. split.
    - destruct q' as [n d]. unfold Qeq in Hne. cbn in *. lia.
    - rewrite <- C in Hb. destruct q' as [n d]. unfold Qlt, Qabs in Hb. cbn in *. lia. }
  set (e := Z.max (binade q') (-1022)).
  set (s := 52 - e).
  assert (Hs : 0 <= s) by (subst s e; lia).
  replace (e - 52) with (- s) by (subst s; lia).
  rewrite Qred_correct, Qshift_neg by exact Hs.
  pose proof (pow2_Qpos s Hs) as Hp.
  assert (HK : round_half_even (Qshift q' s) <= M * 2 ^ s).
  { apply round_half_even_le. rewrite Qshift_pos by exact Hs.
    rewrite inject_Z_mult, C. apply Qmult_le_compat_r; [exact Hle|lra]. }
  apply Qle_shift_div_r; [exact Hp|].
  rewrite <- inject_Z_mult, <- Zle_Qle. exact HK.
Qed.

Lemma round64_ge (q : Q) (M : Z) :
  (Qabs q < inject_Z (2 ^ 53))%Q -> (inject_Z M <= q)%Q -> (inject_Z M <= round64 q)%Q.
Proof.
  intros Hb Hle. unfold round64.
  pose proof (Qred_correct q) as C. set (q' := Qred q) in *.
  destruct (Qeq_bool q' 0) eqn:E0.
  { apply Qeq_bool_iff in E0. rewrite <- C, E0 in Hle. exact Hle. }
  assert (Hne : ~ (q' == 0)%Q) by (intros E; apply Qeq_bool_iff in E; congruence).
  assert (He : binade q' <= 52).
  { apply binade_bound. split.
    - destruct q' as [n d]. unfold Qeq in Hne. cbn in *. lia.
    - rewrite <- C in Hb. destruct q' as [n d]. unfold Qlt, Qabs in Hb. cbn in *. lia. }
  set (e := Z.max (binade q') (-1022)).
  set (s := 52 - e).
  assert (Hs : 0 <= s) by (subst s e; lia).
  replace (e - 52) with (- s) by (subst s; lia).
  rewrite Qred_correct, Qshift_neg by exact Hs.
  pose proof (pow2_Qpos s Hs) as Hp.
  assert (HK : M * 2 ^ s <= round_half_even (Qshift q' s)).
  { apply round_half_even_ge. rewrite Qshift_pos by exact Hs.
    rewrite inject_Z_mult, C. apply Qmult_le_compat_r; [exact Hle|lra]. }
  apply Qle_shift_div_l; [exact Hp|].
  rewrite <- inject_Z_mult, <- Zle_Qle. exact HK.
Qed.

(** Sums and products of integers that stay below 2^53 are exact. *)
Lemma double_of_long_inject (z : Z) : Z.abs z < 2 ^ 53 -> double_of_long z = inject_Z z.
Proof. intros Hz. apply round64_inject; [reflexivity|exact Hz]. Qed.

Lemma fadd_inject (a b : Z) :
  Z.abs (a + b) < 2 ^ 53 -> fadd (inject_Z a) (inject_Z b) = inject_Z (a + b).
Proof. intros H. apply round64_inject; [now rewrite inject_Z_plus|exact H]. Qed.

Lemma fmul_inject (a b : Z) :
  Z.abs (a * b) < 2 ^ 53 -> fmul (inject_Z a) (inject_Z b) = inject_Z (a * b).
Proof. intros H. apply round64_inject; [now rewrite inject_Z_mult|exact H]. Qed.

(** The rounding on values known from the format: 0.29 is held as
    5224175567749775 / 2^54, and its product by 100 as
    8162774324609023 / 2^48, which is below 29; the products of 0.15 and of
    0.10 by 100 are 15 and 10; one third is held as
    6004799503160661 / 2^54; and 2^53 + 3 becomes 2^53 + 4 when it is
    converted. *)
Example round64_ex1 : round64 (29 # 100) = 5224175567749775 # 18014398509481984.
Proof. vm_compute. reflexivity. Qed.
Example round64_ex2 :
  fmul (round64 (29 # 100)) 100 = 8162774324609023 # 281474976710656.
Proof. vm_compute. reflexivity. Qed.
Example round64_ex3 : Qle_bool 29 (fmul (round64 (29 # 100)) 100) = false.
Proof. vm_compute. reflexivity. Qed.
Example round64_ex4 : fmul (round64 (15 # 100)) 100 = 15%Q.
Proof. vm_compute. reflexivity. Qed.
Example round64_ex5 : fmul (round64 (10 # 100)) 100 = 10%Q.
Proof. vm_compute. reflexivity. Qed.
Example round64_ex6 : fdiv 1 3 = 6004799503160661 # 18014398509481984.
Proof. vm_compute. reflexivity. Qed.
Example round64_ex7 : double_of_long (2 ^ 53 + 3) = inject_Z (2 ^ 53 + 4).
Proof. vm_compute. reflexivity. Qed.

(** ** Rate smoothing *)

Lemma gap_small (d : Z) :
  1 <= d <= 2 ^ 31 -> to_int (to_ulong (to_ulong d - 1)) = d - 1.
Proof.
  intros Hd. unfold to_int, to_ulong, ULONG_MOD, INT_MOD.
  rewrite (Z.mod_small d) by lia.
  rewrite (Z.mod_small (d - 1) (2 ^ 64)) by lia.
  rewrite (Z.mod_small (d - 1) (2 ^ 32)) by lia.
  destruct (Z.ltb_spec (d - 1) (2 ^ 31)); lia.
Qed.

Lemma Qtrunc_inject (q : Q) (z : Z) : (q == inject_Z z)%Q -> Qtrunc q = z.
Proof.
  unfold Qeq, Qtrunc. simpl. intros E. rewrite Z.mul_1_r in E. rewrite E.
  apply Z.quot_mul. lia.
Qed.

Lemma Qtrunc_le (q : Q) (z : Z) : (q <= inject_Z z)%Q -> Qtrunc q <= z.
Proof.
  unfold Qle, Qtrunc. simpl. rewrite Z.mul_1_r. intros E.
  rewrite <- (Z.quot_mul z (Z.pos (Qden q))) by lia.
  apply Z.quot_le_mono; lia.
Qed.

Lemma Qtrunc_ge (q : Q) (z : Z) : (inject_Z z <= q)%Q -> z <= Qtrunc q.
Proof.
  unfold Qle, Qtrunc. simpl. rewrite Z.mul_1_r. intros E.
  rewrite <- (Z.quot_mul z (Z.pos (Qden q))) by lia.
  apply Z.quot_le_mono; lia.
Qed.

Lemma slow_weights_nonneg (k : nat) : (0 <= nth k slow_weights 0)%Q.
Proof.
  do 5 (destruct k as [|k]; [unfold Qle; simpl; lia|]).
  destruct k; unfold Qle; simpl; lia.
Qed.

Lemma slow_weights_inject (k : nat) : nth k slow_weights 0%Q = inject_Z (slow_weight k).
Proof. do 5 (destruct k as [|k]; [reflexivity|]). destruct k; reflexivity. Qed.

Lemma slow_weight_bounds (k : nat) : 0 <= slow_weight k <= 10.
Proof. do 5 (destruct k as [|k]; [cbn; lia|]). destruct k; cbn; lia. Qed.

Lemma weight_left_step (k k' : nat) :
  (k <= k')%nat ->
  0 <= weight_left (S k') /\ weight_left (S k') + slow_weight k' <= weight_left k.
Proof.
  intros Hk.
  do 5 (destruct k' as [|k'];
        [do 5 (destruct k as [|k]; [cbn; lia|]); lia|]).
  assert (E : forall m, weight_left (S (S (S (S (S m))))) = 0) by (intros m; now destruct m).
  assert (E' : forall m, slow_weight (S (S (S (S (S m))))) = 0) by (intros m; now destruct m).
  rewrite E'. rewrite (E (S k')).
  do 5 (destruct k as [|k]; [cbn; lia|]). rewrite E. lia.
Qed.

Lemma weight_left_nonneg (k : nat) : 0 <= weight_left k.
Proof. do 5 (destruct k as [|k]; [cbn; lia|]). destruct k; cbn; lia. Qed.

Lemma ticks_descend_take (n : nat) (h : list rate_record) :
  ticks_descend h -> ticks_descend (take n h).
Proof.
  intros Hh i j ri rj Hij Hi Hj.
  apply lookup_take_Some in Hi as [Hi _]. apply lookup_take_Some in Hj as [Hj _].
  eapply Hh; eauto.
Qed.

(** On well-ordered ticks the loop of [weight_samples] does not fail.
    Over samples whose rates lie between [lo] and [M], all of a magnitude
    [B] at most with [18 * B < 2^53], no operation of the loop rounds: the
    weight accumulated is an integer [n], 18 at most, and the sum
    accumulated is an integer between [lo * n] and [M * n]. *)
Lemma weight_samples_loop_ok (h : list rate_record) (nel : nat) :
  ticks_descend h ->
  forall (fuel k : nat) (prev : Z) (sr sw : Q),
    (k <> 0%nat -> forall j r, (k <= j)%nat -> h !! j = Some r ->
        1 <= prev - tick r <= 2 ^ 31) ->
    exists sr' sw',
      weight_samples_loop fuel slow_weights h nel k prev sr sw = Ok (sr', sw')
      /\ forall (lo M B n s : Z),
           (forall r, r ∈ h -> lo <= rr_rate r <= M) ->
           18 * B < 2 ^ 53 -> - B <= lo -> M <= B ->
           0 <= n -> n + weight_left k <= 18 ->
           sw = inject_Z n -> sr = inject_Z s -> lo * n <= s <= M * n ->
           exists n' s',
             n <= n' <= 18 /\ sw' = inject_Z n' /\ sr' = inject_Z s'
             /\ lo * n' <= s' <= M * n'.
Proof.
  intros Hord. induction fuel as [|fuel IH]; intros k prev sr sw Hprev.
  - exists sr, sw. split; [reflexivity|].
    intros lo M B n s _ _ _ _ Hn Hleft -> -> Hs. exists n, s.
    pose proof (weight_left_nonneg k). repeat split; auto; lia.
  - assert (Hstop : exists sr' sw',
              Ok (sr, sw) = Ok (sr', sw')
              /\ forall (lo M B n s : Z),
                   (forall r, r ∈ h -> lo <= rr_rate r <= M) ->
                   18 * B < 2 ^ 53 -> - B <= lo -> M <= B ->
                   0 <= n -> n + weight_left k <= 18 ->
                   sw = inject_Z n -> sr = inject_Z s -> lo * n <= s <= M * n ->
                   exists n' s',
                     n <= n' <= 18 /\ sw' = inject_Z n' /\ sr' = inject_Z s'
                     /\ lo * n' <= s' <= M * n').
    { exists sr, sw. split; [reflexivity|].
      intros lo M B n s _ _ _ _ Hn Hleft -> -> Hs. exists n, s.
      pose proof (weight_left_nonneg k). repeat split; auto; lia. }
    simpl. destruct (nel <=? k)%nat eqn:Hk; [exact Hstop|].
    destruct (h !! k) as [rr|] eqn:Hrr; [|exact Hstop].
    assert (Hacc : forall k', (k <= k')%nat ->
      exists sr' sw',
        (if (nel <=? k')%nat then Ok (sr, sw)
         else weight_samples_loop fuel slow_weights h nel (S k') (tick rr)
                (fadd sr (fmul (double_of_long (rr_rate rr)) (nth k' slow_weights 0%Q)))
                (fadd sw (nth k' slow_weights 0%Q))) = Ok (sr', sw')
        /\ forall (lo M B n s : Z),
             (forall r, r ∈ h -> lo <= rr_rate r <= M) ->
             18 * B < 2 ^ 53 -> - B <= lo -> M <= B ->
             0 <= n -> n + weight_left k <= 18 ->
             sw = inject_Z n -> sr = inject_Z s -> lo * n <= s <= M * n ->
             exists n' s',
               n <= n' <= 18 /\ sw' = inject_Z n' /\ sr' = inject_Z s'
               /\ lo * n' <= s' <= M * n').
    { intros k' Hk'. destruct (nel <=? k')%nat; [exact Hstop|].
      destruct (IH (S k') (tick rr)
                  (fadd sr (fmul (double_of_long (rr_rate rr)) (nth k' slow_weights 0%Q)))
                  (fadd sw (nth k' slow_weights 0%Q))) as (sr' & sw' & E & E2).
      - intros _ j r Hj Hr. eapply (Hord k j); eauto; lia.
      - exists sr', sw'. split; [exact E|].
        intros lo M B n s Hall HB Hlo HM Hn Hleft -> -> Hs.
        pose proof (Hall rr ltac:(eapply list_elem_of_lookup_2; eauto)) as Hr.
        pose proof (slow_weight_bounds k') as Hw.
        pose proof (weight_left_step k k' Hk') as [Hl0 Hl].
        set (r := rr_rate rr) in *. set (w := slow_weight k') in *.
        assert (Hrw : lo * w <= r * w <= M * w) by nia.
        destruct (E2 lo M B (n + w) (s + r * w)) as (n' & s' & Hn' & -> & -> & Hs');
          try assumption; try lia.
        + rewrite slow_weights_inject. fold w. apply fadd_inject. lia.
        + rewrite slow_weights_inject. fold w.
          rewrite double_of_long_inject by lia.
          rewrite fmul_inject by nia. apply fadd_inject. nia.
        + exists n', s'. repeat split; auto; lia. }
    destruct (k =? 0)%nat eqn:Hk0.
    { specialize (Hacc k (Nat.le_refl _)). rewrite Hk in Hacc. exact Hacc. }
    apply Nat.eqb_neq in Hk0.
    rewrite gap_small by (eapply Hprev; eauto).
    destruct (Z.ltb_spec (prev - tick rr - 1) 0).
    { specialize (Hprev Hk0 k rr (Nat.le_refl _) Hrr). lia. }
    destruct (prev - tick rr - 1 >? 1); [exact Hstop|].
    apply Hacc. lia.
Qed.

(** [weight_samples] over a non-empty, well-ordered history returns; over
    samples whose rates lie between [lo] and [M], of a magnitude small
    enough for the sums to be exact, so does the average it returns. *)
Lemma weight_samples_ok (r0 : rate_record) (h : list rate_record) :
  ticks_descend (r0 :: h) ->
  exists w, weight_samples slow_weights nslow_weights (r0 :: h) = Ok w
    /\ forall lo M B : Z,
         (forall r, r ∈ r0 :: h -> lo <= rr_rate r <= M) ->
         18 * B < 2 ^ 53 -> - B <= lo -> M <= B ->
         (inject_Z lo <= w <= inject_Z M)%Q.
Proof.
  intros Hord. unfold weight_samples.
  change (length (r0 :: h)) with (S (length h)).
  change nslow_weights with 5%nat.
  destruct (Nat.min 5 (S (length h))) as [|n] eqn:Hn; [lia|].
  cbn [weight_samples_loop].
  replace (S n <=? 0)%nat with false by (symmetry; apply Nat.leb_gt; lia).
  change ((r0 :: h) !! 0%nat) with (Some r0).
  cbn [Nat.eqb].
  destruct (weight_samples_loop_ok (r0 :: h) (S n) Hord n 1%nat (tick r0)
              (fadd 0 (fmul (double_of_long (rr_rate r0)) (nth 0 slow_weights 0%Q)))
              (fadd 0 (nth 0 slow_weights 0%Q))) as (sr' & sw' & E & E2).
  - intros _ j r Hj Hr. eapply (Hord 0%nat j); eauto; lia.
  - rewrite E. cbn [obind]. eexists; split; [reflexivity|].
    intros lo M B Hall HB Hlo HM.
    pose proof (Hall r0 ltac:(apply list_elem_of_here)) as Hr.
    destruct (E2 lo M B 10 (rr_rate r0 * 10)) as (n' & s' & Hn' & -> & -> & Hs');
      try assumption; try lia.
    + cbn. lia.
    + change 0%Q with (inject_Z 0). change (nth 0 slow_weights (inject_Z 0)) with (inject_Z 10).
      apply fadd_inject. lia.
    + change 0%Q with (inject_Z 0). change (nth 0 slow_weights (inject_Z 0)) with (inject_Z 10).
      rewrite double_of_long_inject by lia.
      rewrite fmul_inject by lia. apply fadd_inject. lia.
    + assert (Hn0 : (0 < inject_Z n')%Q).
      { change 0%Q with (inject_Z 0). rewrite <- Zlt_Qlt. lia. }
      assert (Hq : (inject_Z lo <= inject_Z s' / inject_Z n' <= inject_Z M)%Q).
      { split.
        - apply Qle_shift_div_l; [exact Hn0|].
          rewrite <- inject_Z_mult, <- Zle_Qle. lia.
        - apply Qle_shift_div_r; [exact Hn0|].
          rewrite <- inject_Z_mult, <- Zle_Qle. lia. }
      assert (Hb : (Qabs (inject_Z s' / inject_Z n') < inject_Z (2 ^ 53))%Q).
      { apply Qabs_Qlt_condition. split.
        - apply Qlt_le_trans with (inject_Z lo); [|tauto].
          rewrite <- inject_Z_opp, <- Zlt_Qlt. lia.
        - apply Qle_lt_trans with (inject_Z M); [tauto|].
          rewrite <- Zlt_Qlt. lia. }
      unfold fdiv. split; [apply round64_ge|apply round64_le]; tauto.
Qed.

(** [calc_rates] on a well-ordered history: it returns, [fast_rate] is the
    current rate, and [slow_rate] lies between the current rate and every
    bound [M] on the current rate and the rates of the history, when these
    are of a magnitude small enough for the sums to be exact. *)
Lemma calc_rates_ok (now : Z) (dom : domain_info) :
  ticks_descend (mk_rate_record now (rate dom) :: rate_history dom) ->
  exists dom', calc_rates now dom = Ok dom'
    /\ rate dom' = rate dom /\ fast_rate dom' = rate dom
    /\ act dom' = act dom
    /\ rate_history dom'
       = take 5 (mk_rate_record now (rate dom) :: rate_history dom)
    /\ rate dom <= slow_rate dom'
    /\ (forall lo M B : Z,
          lo <= rate dom <= M ->
          (forall r, r ∈ rate_history dom -> lo <= rr_rate r <= M) ->
          18 * B < 2 ^ 53 -> - B <= lo -> M <= B ->
          slow_rate dom' <= M).
Proof.
  intros Hord. unfold calc_rates.
  change (take nslow_weights (mk_rate_record now (rate dom) :: rate_history dom))
    with (mk_rate_record now (rate dom) :: take 4 (rate_history dom)).
  destruct (weight_samples_ok (mk_rate_record now (rate dom)) (take 4 (rate_history dom)))
    as (w & E & Ew).
  - apply (ticks_descend_take 5 _ Hord).
  - cbn [rate_history sched upd_sched set_rate_history upd_cur cur].
    rewrite E. cbn [obind]. eexists; split; [reflexivity|].
    cbn. repeat split; [lia|].
    intros lo M B HR Hall HB Hlo HM.
    destruct (Ew lo M B) as [_ Hw]; try assumption.
    { intros r Hr. apply elem_of_cons in Hr as [->|Hr]; [exact HR|].
      apply Hall. apply elem_of_take in Hr as (i & Hi & _).
      eapply list_elem_of_lookup_2; eauto. }
    apply Qtrunc_le in Hw. lia.
Qed.

(** C9 (amended): when [rate_history] holds five samples of consecutive
    ticks that all carry the rate [R], the rate of the current (next) tick
    is [R] too, and [R] is small enough for the weighted sum of the
    samples to be a double ([18 * |R| < 2^53]), [calc_rates] returns and
    leaves [slow_rate] equal to [R]. *)
Theorem C9_slow_rate_of_constant_run (R t : Z) (dom : domain_info) :
  18 * Z.abs R < 2 ^ 53 ->
  rate dom = R ->
  rate_history dom = [ mk_rate_record t R; mk_rate_record (t - 1) R;
                       mk_rate_record (t - 2) R; mk_rate_record (t - 3) R;
                       mk_rate_record (t - 4) R ] ->
  exists dom', calc_rates (t + 1) dom = Ok dom' /\ slow_rate dom' = R.
Proof.
  intros HB HR Hh.
  destruct (calc_rates_ok (t + 1) dom) as (dom' & E & _ & _ & _ & _ & Hlow & Hslow).
  - rewrite Hh, HR. intros i j ri rj Hij Hi Hj.
    do 6 (destruct i as [|i]; [do 6 (destruct j as [|j]; [try lia; cbn in Hi, Hj;
      try (injection Hi as <-; injection Hj as <-; cbn; lia)|]); cbn in Hj; discriminate|]).
    cbn in Hi. discriminate.
  - exists dom'. split; [exact E|].
    assert (Hup : slow_rate dom' <= R); [|lia].
    apply (Hslow R R (Z.abs R)); try lia.
    intros r Hr. rewrite Hh in Hr.
    repeat (apply elem_of_cons in Hr as [->|Hr]; [cbn; lia|]).
    apply elem_of_nil in Hr. contradiction.
Qed.

(** ** Stage 1: reports *)

Section ReportProperties.
Context `{Libc}.

(** Parsing a report writes [rate], [freepct] and [report_raw] only. *)
Lemma parse_domain_report_frame (dom dom1 : domain_info) (st : report_status) :
  parse_domain_report dom = (st, dom1) ->
  sched dom1 = sched dom /\ act dom1 = act dom /\ xc dom1 = xc dom /\ xs dom1 = xs dom.
Proof.
  unfold parse_domain_report. intros E.
  repeat case_match; simplify_eq; auto.
Qed.



End ReportProperties.



Lemma C9_slow_rate_of_constant_run_witness :
  18 * Z.abs 50 < 2 ^ 53
  /\ rate steady = 50
  /\ rate_history steady = [ mk_rate_record 999 50; mk_rate_record (999 - 1) 50;
                             mk_rate_record (999 - 2) 50; mk_rate_record (999 - 3) 50;
                             mk_rate_record (999 - 4) 50 ]
  /\ exists dom', calc_rates (999 + 1) steady = Ok dom' /\ slow_rate dom' = 50.
Proof.
  split; [reflexivity|]. split; [reflexivity|]. split; [reflexivity|].
  apply (C9_slow_rate_of_constant_run 50 999 steady); reflexivity.
Defined.

(** C9 as stated fails.  The rate 2^53 + 3 is no double: five samples of
    it at consecutive ticks and the same rate at the current tick leave
    [slow_rate] at 2^53 + 4, the rate plus 1. *)
Lemma C9_counterexample :
  rate flooded = 2 ^ 53 + 3
  /\ rate_history flooded
     = [ mk_rate_record 999 (2 ^ 53 + 3); mk_rate_record (999 - 1) (2 ^ 53 + 3);
         mk_rate_record (999 - 2) (2 ^ 53 + 3); mk_rate_record (999 - 3) (2 ^ 53 + 3);
         mk_rate_record (999 - 4) (2 ^ 53 + 3) ]
  /\ exists dom', calc_rates (999 + 1) flooded = Ok dom'
                  /\ slow_rate dom' = 2 ^ 53 + 4
                  /\ slow_rate dom' <> rate flooded.
Proof.
  split; [reflexivity|]. split; [reflexivity|].
  eexists. split; [vm_compute; reflexivity|].
  split; [reflexivity|]. cbn. lia.
Qed.

(** C2 (the code at a failing input): the config file of [picky] sets
    [guest_free_threshold] to 10%, and [resolve_settings] resolves the
    domain's active threshold to that value; [stage_collect_data] however
    compares the report with the global threshold (15%), so that a report
    with [freepct = 12], above the domain's resolved threshold, keeps its
    rate of 1000 KB/s. *)
Theorem C2_resolved_threshold_not_used :
  let g := sample_globals default_config 0 [] in
  let '(ok, _, dom) := resolve_settings g picky in
  ok = true
  /\ (guest_free_threshold dom == 10 # 100)%Q
  /\ exists dom',
       @collect_report libc_model g (upd_cur (set_report_raw (Some report_12pct_free)) dom)
         = Ok (Some dom')
       /\ (freepct dom' == 12)%Q
       /\ Qltb (guest_free_threshold dom' * 100) (freepct dom') = true
       /\ rate dom' = 1000.
Proof.
  vm_compute. split; [reflexivity|]. split; [reflexivity|].
  eexists. split; [reflexivity|]. cbn. repeat split; reflexivity.
Qed.

(** ** Settings resolution *)

Lemma string_app_assoc (a b c : string) : ((a +:+ b) +:+ c = a +:+ (b +:+ c))%string.
Proof.
  induction a as [|x a IH]; [reflexivity|].
  change (String x ((a +:+ b) +:+ c) = String x (a +:+ (b +:+ c))). now f_equal.
Qed.

Lemma string_app_length (a b : string) :
  String.length (a +:+ b) = (String.length a + String.length b)%nat.
Proof.
  induction a as [|x a IH]; [reflexivity|].
  change (S (String.length (a +:+ b)) = S (String.length a + String.length b)).
  now f_equal.
Qed.

(** Joining with a separator, one text at a time. *)
Lemma concat_snoc (sep : string) (l : list string) (t : string) :
  String.concat sep (l ++ [t]) =
  match l with
  | [] => t
  | _ => (String.concat sep l +:+ sep +:+ t)%string
  end.
Proof.
  induction l as [|x l IH]; [reflexivity|].
  destruct l as [|y l]; [reflexivity|].
  change (String.concat sep ((x :: y :: l) ++ [t]))
    with (x +:+ sep +:+ String.concat sep ((y :: l) ++ [t]))%string.
  rewrite IH.
  change (String.concat sep (x :: y :: l))
    with (x +:+ sep +:+ String.concat sep (y :: l))%string.
  now rewrite !string_app_assoc.
Qed.

Lemma concat_nonempty (sep : string) (l : list string) :
  Forall (fun t => String.length t <> 0%nat) l -> l <> [] ->
  String.length (String.concat sep l) <> 0%nat.
Proof.
  intros Hl Hne. destruct l as [|x l]; [congruence|].
  apply Forall_cons in Hl as [Hx _].
  destruct l; simpl; [exact Hx|]. rewrite string_app_length. lia.
Qed.

(** The message that the failing checks are accumulated in is the
    comma-separated list of their texts, and [valid] tells whether there
    is none. *)
Lemma append_unfulfilled_fold (checks : list (bool * string)) :
  Forall (fun c => String.length (snd c) <> 0%nat) checks ->
  forall (done : list string) (valid : bool),
    Forall (fun t => String.length t <> 0%nat) done ->
    fold_left append_unfulfilled checks (String.concat ", " done, valid) =
    (String.concat ", " (done ++ map snd (filter (fun c => fst c = true) checks)),
     valid && forallb (fun c => negb (fst c)) checks).
Proof.
  induction 1 as [|[b t] checks Ht _ IH]; intros done valid Hdone.
  - simpl. rewrite app_nil_r. now rewrite andb_true_r.
  - cbn [fold_left append_unfulfilled fst snd forallb].
    destruct b; cbn [negb andb].
    + rewrite filter_cons_True by reflexivity. cbn [map snd].
      assert (Hacc :
        ((if negb (String.length (String.concat ", " done) =? 0)%nat
          then String.concat ", " done +:+ ", " else String.concat ", " done) +:+ t)%string
        = String.concat ", " (done ++ [t])).
      { rewrite concat_snoc. destruct done as [|d done]; [reflexivity|].
        destruct (String.length (String.concat ", " (d :: done)) =? 0)%nat eqn:E.
        { apply Nat.eqb_eq in E. exfalso.
          revert E. apply concat_nonempty; [exact Hdone|discriminate]. }
        cbn [negb]. now rewrite string_app_assoc. }
      rewrite Hacc, IH.
      * rewrite <- app_assoc. cbn [app]. f_equal. now rewrite andb_false_r.
      * apply Forall_app. split; [exact Hdone|]. constructor; [exact Ht|constructor].
    + rewrite filter_cons_False by (simpl; discriminate).
      apply IH. exact Hdone.
Qed.

Lemma unfulfilled_texts_nonempty (g : globals) (a : bool) (dom : domain_info) :
  Forall (fun c => String.length (snd c) <> 0%nat) (unfulfilled g a dom).
Proof. unfold unfulfilled. repeat constructor; cbn; discriminate. Qed.

(** No check fails exactly when the settings are consistent. *)
Lemma unfulfilled_none (g : globals) (dom : domain_info) :
  forallb (fun c => negb (fst c)) (unfulfilled g (automode dom) dom) = true
  <-> settings_consistent g dom.
Proof.
  unfold unfulfilled, settings_consistent. cbn [forallb fst].
  destruct (automode dom); cbn [andb negb];
    rewrite ?andb_true_r, ?andb_true_iff, ?negb_true_iff, ?negb_false_iff,
            ?andb_false_iff, ?negb_true_iff, ?negb_false_iff;
    rewrite ?Z.ltb_lt, ?Z.leb_le, ?Z.gtb_ltb, ?Z.ltb_ge, ?Z.eqb_eq;
    intuition (try discriminate; try lia).
Qed.

Lemma assign_inv {A} (dom0 : domain_info) (key : string)
    (set : A -> active_settings -> active_settings) (v : option A) (required : bool)
    (st : domain_info * list log_entry * bool) :
  chain_inv dom0 st -> chain_inv dom0 (assign key set v required st).
Proof.
  destruct st as [[dom log] valid]. intros (Hxs & Hxc & Hid & Ht & Hf & Hall).
  unfold assign. destruct v as [v|]; [|destruct required].
  - cbn. auto 10.
  - cbn. repeat split; auto; try discriminate.
    + intros _ E. apply app_eq_nil in E as [_ E]. discriminate.
    + apply Forall_app. split; [exact Hall|]. constructor; [|constructor].
      exists key. unfold undefined_setting, printable_name. now rewrite Hid, Hxs.
  - cbn. auto 10.
Qed.

Lemma assign_valid {A} (key : string) (set : A -> active_settings -> active_settings)
    (v : option A) (required : bool) (st : domain_info * list log_entry * bool) :
  snd (assign key set v required st) = snd st && (negb required || is_some v).
Proof.
  destruct st as [[dom log] valid]. unfold assign.
  destruct v, required; cbn; now rewrite ?andb_true_r, ?andb_false_r.
Qed.

Lemma resolve_chain_inv (g : globals) (dom : domain_info) :
  chain_inv dom (resolve_chain g dom).
Proof.
  unfold resolve_chain. destruct (automode dom); repeat apply assign_inv;
    (cbn; repeat split; auto; discriminate).
Qed.

Lemma resolve_chain_valid (g : globals) (dom : domain_info) :
  snd (resolve_chain g dom) = settings_defined g dom.
Proof.
  unfold resolve_chain, settings_defined.
  destruct (automode dom); rewrite !assign_valid; cbn [snd negb orb];
    now rewrite ?andb_true_r, ?andb_true_l, ?andb_assoc.
Qed.


(** What [assign] logs, and the name under which it logs. *)
Lemma assign_log {A} (key : string) (set : A -> active_settings -> active_settings)
    (v : option A) (required : bool) (st : domain_info * list log_entry * bool) :
  (assign key set v required st).1.2
  = st.1.2 ++ (if required then map (undefined_setting st.1.1) (missing key v) else []).
Proof.
  destruct st as [[dom log] valid]. unfold assign, missing.
  destruct v, required; cbn; now rewrite ?app_nil_r.
Qed.

Lemma assign_printable {A} (key : string) (set : A -> active_settings -> active_settings)
    (v : option A) (required : bool) (st : domain_info * list log_entry * bool) :
  printable_name (assign key set v required st).1.1 = printable_name st.1.1.
Proof. destruct st as [[dom log] valid]. unfold assign. now destruct v, required. Qed.

(** The chain logs one [undefined_setting] message for every required
    setting that is undefined, in the order of the source. *)
Lemma resolve_chain_log (g : globals) (dom : domain_info) :
  (resolve_chain g dom).1.2 = map (undefined_setting dom) (undefined_keys g dom).
Proof.
  unfold resolve_chain, undefined_keys. destruct (automode dom); cbv zeta;
    rewrite !assign_log; unfold undefined_setting; rewrite !assign_printable;
    cbn [fst snd app]; rewrite ?map_app, ?app_nil_r, <- ?app_assoc; reflexivity.
Qed.

(** C7 (amended): [resolve_settings] returns true exactly when every
    required setting is defined, the resolved settings satisfy the
    consistency conditions, and [dmem_min] differs from [dmem_max].  When a
    required setting is undefined it returns false after logging one
    [undefined_setting] message for each required setting that is
    undefined, in the order of the source; when the settings are defined
    but a condition fails, it returns false after logging one error message
    that lists the unfulfilled conditions, separated by commas; and when
    they are defined and consistent but [dmem_min] equals [dmem_max], it
    returns false after logging one warning. *)
Theorem C7_resolve_settings_result (g : globals) (dom : domain_info) :
  let '(ok, log, dom') := resolve_settings g dom in
  (ok = true <->
     settings_defined g dom = true /\ settings_consistent g dom'
     /\ dmem_min dom' <> dmem_max dom')
  /\ (settings_defined g dom = false ->
        ok = false /\ log <> []
        /\ Forall (fun e => exists key, e = undefined_setting dom key) log
        /\ log = map (undefined_setting dom) (undefined_keys g dom))
  /\ (settings_defined g dom = true -> ~ settings_consistent g dom' ->
        ok = false
        /\ log = [error_msg ("parameter values are incoherent for domain "
                             +:+ printable_name dom' +:+ ", unfulfilled: "
                             +:+ String.concat ", " (unfulfilled_texts g dom'))])
  /\ (settings_defined g dom = true -> settings_consistent g dom' ->
        dmem_min dom' = dmem_max dom' ->
        ok = false
        /\ log = [warning_msg ("domain " +:+ printable_name dom'
                               +:+ " cannot be managed by membalance because "
                               +:+ "dmem_min == dmem_max (" +:+ ld (dmem_min dom') +:+ ")")]).
Proof.
  unfold resolve_settings.
  pose proof (resolve_chain_inv g dom) as Hinv.
  pose proof (resolve_chain_valid g dom) as Hvalid.
  pose proof (resolve_chain_log g dom) as Hlog.
  destruct (resolve_chain g dom) as [[dom1 log1] valid1].
  cbn [fst snd] in Hvalid, Hlog. destruct Hinv as (Hxs & Hxc & Hid & Ht & Hf & Hall).
  rewrite <- Hvalid. destruct valid1; cbn [negb].
  2:{ split; [split; [discriminate|intros [? _]; discriminate]|].
      split; [auto|]. split; discriminate. }
  rewrite (Ht eq_refl). cbn [app].
  pose proof (append_unfulfilled_fold _
                (unfulfilled_texts_nonempty g (automode (round_sizes g dom1))
                   (round_sizes g dom1)) [] true ltac:(constructor)) as Hfold.
  change (String.concat ", " []) with ""%string in Hfold.
  rewrite Hfold. cbn [app andb].
  pose proof (unfulfilled_none g (round_sizes g dom1)) as Hcons.
  destruct (forallb _ _); cbn [negb].
  - destruct Hcons as [Hcons _]. specialize (Hcons eq_refl).
    destruct (Z.eqb_spec (dmem_min (round_sizes g dom1)) (dmem_max (round_sizes g dom1))).
    + split; [split; [discriminate|tauto]|]. split; [discriminate|].
      split; [tauto|]. intros _ _ _. split; reflexivity.
    + split; [tauto|]. split; [discriminate|]. split; [tauto|]. intros _ _ E. contradiction.
  - assert (Hn : ~ settings_consistent g (round_sizes g dom1)).
    { intros Hc. apply Hcons in Hc. discriminate. }
    split; [split; [discriminate|tauto]|]. split; [discriminate|].
    split; [intros _ _; split; reflexivity|]. intros _ Hc. contradiction.
Qed.

(** C7 as stated fails: the settings of [fixed_size] are all defined and
    satisfy every consistency condition, yet [resolve_settings] returns
    false, because [dmem_min == dmem_max]. *)
Lemma C7_counterexample :
  let g := sample_globals default_config 0 [] in
  let '(ok, log, dom') := resolve_settings g fixed_size in
  settings_defined g fixed_size = true
  /\ settings_consistent g dom'
  /\ ok = false
  /\ log = [warning_msg
      "domain 3 (name: web) cannot be managed by membalance because dmem_min == dmem_max (2048)"].
Proof.
  vm_compute. split; [reflexivity|]. split; [|split; reflexivity].
  repeat split; intros; try discriminate; reflexivity.
Qed.

(** ** Stage 4: free memory *)

(** C6: for a request [need >= 0], [free_allocate] grants the largest
    multiple of the allocation quantum that does not exceed
    [min(need, host_free - reserve)], and nothing when
    [host_free - reserve <= 0]; the reserve is [host_reserved_hard] when
    the expand force is above 45 and [host_reserved_soft] otherwise;
    [host_free] is decremented by the amount granted, and
    [expand_into_freemem] adds that amount to the domain's [memsize]. *)
Theorem C6_free_allocate_grant (g : globals) (id : Z) (dom : domain_info) (need : Z) :
  0 <= need -> 0 < memquant_kbs g ->
  managed g !! id = Some dom ->
  let reserve := if Qlt_le_dec 45 (expand_force dom)
                 then config.host_reserved_hard (cfg g)
                 else config.host_reserved_soft (cfg g) in
  let avail := host_free g - reserve in
  exists granted g1 g2,
    free_allocate (expand_force dom) need g = Ok (granted, g1)
    /\ (avail <= 0 -> granted = 0)
    /\ (0 < avail ->
          granted mod memquant_kbs g = 0
          /\ granted <= Z.min need avail < granted + memquant_kbs g)
    /\ host_free g1 = host_free g - granted
    /\ managed g1 = managed g
    /\ expand_into_freemem id need g = Ok (negb (granted =? 0), g2)
    /\ host_free g2 = host_free g - granted
    /\ memsize (deref g2 id) = memsize dom + granted.
Proof.
  intros Hneed Hq Hdom reserve avail.
  assert (Hderef : deref g id = dom) by (apply lookup_total_correct; exact Hdom).
  assert (Hres : (if Qltb resist_force_free_soft (expand_force dom)
                  then config.host_reserved_hard (cfg g)
                  else config.host_reserved_soft (cfg g)) = reserve).
  { subst reserve. unfold Qltb, resist_force_free_soft.
    destruct (Qlt_le_dec 45 (expand_force dom)) as [Hlt|Hle].
    - destruct (Qle_bool (expand_force dom) 45) eqn:E; [|reflexivity].
      apply Qle_bool_iff in E. lra.
    - apply Qle_bool_iff in Hle. now rewrite Hle. }
  unfold expand_into_freemem, free_allocate. rewrite Hderef, Hres.
  destruct (Z.ltb_spec need 0); [lia|].
  fold avail. destruct (Z.leb_spec avail 0) as [Hav|Hav].
  - exists 0, g, g. cbn [obind Z.eqb negb].
    repeat split; auto; try lia. rewrite Hderef. lia.
  - pose proof (rounddown_spec (Z.min avail need) (memquant_kbs g) ltac:(lia) Hq) as [Hm Hb].
    set (granted := rounddown (Z.min avail need) (memquant_kbs g)) in *.
    destruct (Z.eqb_spec granted 0) as [E|E].
    + exists granted, (set_host_free (host_free g - granted) g),
        (set_host_free (host_free g - granted) g).
      cbn [obind]. destruct (Z.eqb_spec granted 0); [|contradiction].
      cbn [negb]. repeat split; auto; try lia.
      unfold deref. cbn [managed set_host_free].
      rewrite (lookup_total_correct _ _ _ Hdom). lia.
    + exists granted, (set_host_free (host_free g - granted) g),
        (upd_dom id (fun dom => upd_cur (set_memsize (memsize dom + granted)) dom)
           (set_host_free (host_free g - granted) g)).
      cbn [obind]. destruct (Z.eqb_spec granted 0); [contradiction|].
      cbn [negb]. repeat split; auto; try lia.
      unfold deref, upd_dom. cbn [managed set_host_free set_managed].
      rewrite lookup_total_alter_eq, Hdom. reflexivity.
Qed.

Lemma C6_free_allocate_grant_witness :
  0 <= 92 /\ 0 < memquant_kbs (sample_globals default_config 50 [steady])
  /\ managed (sample_globals default_config 50 [steady]) !! 1 = Some steady
  /\ exists granted g1 g2,
    free_allocate (expand_force steady) 92 (sample_globals default_config 50 [steady])
      = Ok (granted, g1)
    /\ (50 - 0 <= 0 -> granted = 0)
    /\ (0 < 50 - 0 -> granted mod 4 = 0 /\ granted <= Z.min 92 (50 - 0) < granted + 4)
    /\ host_free g1 = 50 - granted
    /\ managed g1 = managed (sample_globals default_config 50 [steady])
    /\ expand_into_freemem 1 92 (sample_globals default_config 50 [steady])
       = Ok (negb (granted =? 0), g2)
    /\ host_free g2 = 50 - granted
    /\ memsize (deref g2 1) = 1500 + granted.
Proof.
  split; [lia|]. split; [reflexivity|]. split; [reflexivity|].
  apply (C6_free_allocate_grant (sample_globals default_config 50 [steady]) 1 steady 92);
    [lia|reflexivity|reflexivity].
Defined.

(** ** The free-memory operator command *)

(** C8: while the scheduler is not paused, the free-memory command is
    answered with status [P] and both figures 0, and leaves the daemon's
    state and the host as they are: no shrink order is issued. *)
Theorem C8_freemem_requires_pause `{Host} (fuel : nat) (amt : Z)
    (above_slack use_reserved_hard must : bool) (timeout : Z) (g : globals) (x : xen) :
  memsched_pause_level g = 0 ->
  rcmd_freemem_1_svc fuel amt above_slack use_reserved_hard must timeout (g, x)
  = (Finished, (mk_reply "P" 0 0, (g, x))).
Proof.
  intros Hp. unfold rcmd_freemem_1_svc, sched_freemem. cbn [fst].
  rewrite Hp. reflexivity.
Qed.

Lemma C8_freemem_requires_pause_witness :
  memsched_pause_level (sample_globals default_config 0 [steady]) = 0
  /\ @rcmd_freemem_1_svc still_host 10 1048576 false false false 10
       (sample_globals default_config 0 [steady], tt)
     = (Finished, (mk_reply "P" 0 0, (sample_globals default_config 0 [steady], tt))).
Proof.
  split; [reflexivity|].
  apply (@C8_freemem_requires_pause still_host 10 1048576 false false false 10
           (sample_globals default_config 0 [steady]) tt).
  reflexivity.
Defined.

(** ** The registry as a store *)

Lemma lookup_upd_dom (a id : Z) (f : domain_info -> domain_info) (g : globals) :
  managed (upd_dom a f g) !! id =
  if decide (a = id) then f <$> managed g !! a else managed g !! id.
Proof. unfold upd_dom. cbn. apply lookup_alter. Qed.

Lemma lookup_upd_dom_ne (a id : Z) (f : domain_info -> domain_info) (g : globals) :
  a <> id -> managed (upd_dom a f g) !! id = managed g !! id.
Proof. intros Hne. rewrite lookup_upd_dom. now destruct (decide (a = id)). Qed.

Lemma lookup_upd_dom_eq (id : Z) (f : domain_info -> domain_info) (g : globals)
    (d : domain_info) :
  managed g !! id = Some d -> managed (upd_dom id f g) !! id = Some (f d).
Proof.
  intros Hd. rewrite lookup_upd_dom. destruct (decide (id = id)); [|congruence].
  now rewrite Hd.
Qed.

Lemma deref_lookup (g : globals) (id : Z) (d : domain_info) :
  managed g !! id = Some d -> deref g id = d.
Proof. apply lookup_total_correct. Qed.

Lemma deref_upd_dom_ne (a id : Z) (f : domain_info -> domain_info) (g : globals) :
  a <> id -> deref (upd_dom a f g) id = deref g id.
Proof. intros Hne. unfold deref, upd_dom. cbn. now apply lookup_total_alter_ne. Qed.

(** A write through a handle that keeps [memsize] keeps it for every
    domain, whether or not the handle is in the registry. *)
Lemma memsize_upd_dom (a id : Z) (f : domain_info -> domain_info) (g : globals) :
  (forall d, memsize (f d) = memsize d) ->
  memsize (deref (upd_dom a f g) id) = memsize (deref g id).
Proof.
  intros Hf. unfold deref, upd_dom. cbn. rewrite lookup_total_alter.
  destruct (decide (a = id)) as [->|]; [|reflexivity].
  rewrite lookup_total_alt. destruct (managed g !! id); cbn; auto.
Qed.

(** ** Stage 4: the strongest requester against the weakest victim *)

(** [free_allocate] reads and writes [host_free] only. *)
Lemma free_allocate_upd_dom (a : Z) (f : domain_info -> domain_info) (ef : Q) (need : Z)
    (g : globals) :
  free_allocate ef need (upd_dom a f g) =
  match free_allocate ef need g with
  | Ok (chunk, g') => Ok (chunk, upd_dom a f g')
  | Fatal msg => Fatal msg
  end.
Proof. unfold free_allocate. cbn. repeat case_match; reflexivity. Qed.

Lemma free_allocate_zero (ef : Q) (need : Z) (g g0 : globals) :
  free_allocate ef need g = Ok (0, g0) ->
  host_free g0 = host_free g /\ managed g0 = managed g.
Proof.
  unfold free_allocate. repeat case_match; intros E; try discriminate;
    inversion E; subst; unfold set_host_free; cbn [host_free managed];
    try match goal with H : rounddown _ _ = 0 |- _ => rewrite H end;
    (split; [lia|reflexivity]).
Qed.

(** The victims at the head of the shrink vector that are not eligible are
    dropped; at the first eligible one whose resist force the requester
    does not exceed, [rebalance_domains] returns, having moved nothing. *)
Lemma rebalance_domains_stops (ctx : eval_force_context) (id : Z) (need : Z) (g : globals)
    (vid : Z) (others : list Z) :
  ineligible_victim (deref g vid) = false ->
  Qle_bool (expand_force (deref g id)) (resist_force (deref g vid)) = true ->
  forall (skipped : list Z) (fuel : nat),
    Forall (fun s => ineligible_victim (deref g s) = true) skipped ->
    (length skipped < fuel)%nat ->
    exists vec, rebalance_domains fuel ctx id need (skipped ++ vid :: others) g
                = (Finished, (vec, g)).
Proof.
  intros Hv Hle. induction skipped as [|s skipped IH]; intros fuel Hs Hfuel.
  - destruct fuel as [|fuel]; [simpl in Hfuel; lia|]. cbn [rebalance_domains app].
    destruct (need >? 0); cbn [negb]; [|eauto].
    rewrite Hv, Hle. eauto.
  - destruct fuel as [|fuel]; [simpl in Hfuel; lia|].
    apply Forall_cons in Hs as [Hs1 Hs].
    cbn [rebalance_domains app]. destruct (need >? 0); cbn [negb]; [|eauto].
    rewrite Hs1. apply IH; [exact Hs|]. simpl in Hfuel. lia.
Qed.

(** C5: the head expansion candidate [d] gets nothing from free memory,
    and its expand force does not exceed the resist force of the first
    eligible candidate [v] of the shrink vector (the candidates before [v]
    being weeded out as ineligible).  Then the rebalancing loop ends at
    this iteration: no domain's scheduled size and no free memory is
    changed, whatever candidates are left in either vector. *)
Theorem C5_rebalancing_ends_when_not_outbid
    (fuel : nat) (expand_ctx resist_ctx : eval_force_context) (g g0 : globals)
    (id : Z) (d : domain_info) (rest skipped : list Z) (vid : Z) (others : list Z) :
  managed g !! id = Some d ->
  balside d <> RebalanceSide_SHRINKING ->
  free_allocate (expand_force d) (expansion_target d - memsize d) g = Ok (0, g0) ->
  let g1 := upd_dom id (upd_cur (set_balside RebalanceSide_EXPANDING)) g in
  Forall (fun s => ineligible_victim (deref g1 s) = true) skipped ->
  ineligible_victim (deref g1 vid) = false ->
  (expand_force d <= resist_force (deref g1 vid))%Q ->
  (length skipped + 2 <= fuel)%nat ->
  exists st',
    rebalance_loop fuel expand_ctx resist_ctx
      (mk_rebalance (id :: rest) (skipped ++ vid :: others) g) = (Finished, st')
    /\ (forall i, memsize (deref (rb_globals st') i) = memsize (deref g i))
    /\ host_free (rb_globals st') = host_free g.
Proof.
  intros Hd Hbal Hfree g1 Hskip Hv Hle Hfuel.
  destruct fuel as [|fuel]; [lia|].
  cbn [rebalance_loop vec_expand vec_shrink rb_globals].
  rewrite (deref_lookup g id d Hd).
  rewrite bool_decide_eq_false_2 by exact Hbal.
  fold g1.
  assert (Hd1 : deref g1 id = upd_cur (set_balside RebalanceSide_EXPANDING) d).
  { apply deref_lookup. subst g1. now apply lookup_upd_dom_eq. }
  rewrite Hd1.
  change (expansion_target (upd_cur (set_balside RebalanceSide_EXPANDING) d))
    with (expansion_target d).
  change (memsize (upd_cur (set_balside RebalanceSide_EXPANDING) d)) with (memsize d).
  unfold expand_into_freemem. rewrite Hd1.
  change (expand_force (upd_cur (set_balside RebalanceSide_EXPANDING) d))
    with (expand_force d).
  subst g1. rewrite free_allocate_upd_dom, Hfree. cbn [obind Z.eqb].
  destruct (free_allocate_zero _ _ _ _ Hfree) as [Hhf Hm].
  set (g1' := upd_dom id (upd_cur (set_balside RebalanceSide_EXPANDING)) g0).
  assert (Hsame : forall i,
    deref g1' i = deref (upd_dom id (upd_cur (set_balside RebalanceSide_EXPANDING)) g) i).
  { intros i. unfold g1', deref, upd_dom. cbn. now rewrite Hm. }
  destruct (rebalance_domains_stops resist_ctx id (expansion_target d - memsize d) g1'
              vid others) with (skipped := skipped) (fuel := fuel) as [vec Hstop].
  - now rewrite Hsame.
  - rewrite !Hsame, Hd1. apply Qle_bool_iff. exact Hle.
  - eapply Forall_impl; [exact Hskip|]. intros s Hs. now rewrite Hsame.
  - lia.
  - rewrite Hstop. rewrite Z.eqb_refl.
    eexists. split; [reflexivity|]. cbn [rb_globals]. split.
    + intros i. unfold g1'. rewrite memsize_upd_dom by reflexivity.
      unfold deref. now rewrite Hm.
    + unfold g1'. cbn. exact Hhf.
Qed.

Lemma C5_rebalancing_ends_when_not_outbid_witness :
  exists st',
    rebalance_loop 10 (mk_ctx 500 force_base) (mk_ctx 500 force_base)
      (mk_rebalance [4] [4; 5] contested_host) = (Finished, st')
    /\ (forall i, memsize (deref (rb_globals st') i) = memsize (deref contested_host i))
    /\ host_free (rb_globals st') = host_free contested_host.
Proof.
  apply (C5_rebalancing_ends_when_not_outbid 10 (mk_ctx 500 force_base)
           (mk_ctx 500 force_base) contested_host contested_host 4 bidding [] [4] 5 []).
  - reflexivity.
  - discriminate.
  - reflexivity.
  - constructor; [reflexivity|constructor].
  - reflexivity.
  - vm_compute. discriminate.
  - simpl. lia.
Defined.

(** ** Shrinking in stages 3 and 4 *)

Lemma elem_of_sort_insert (less : Z -> Z -> bool) (x y : Z) (vec : list Z) :
  y ∈ sort_insert less x vec -> y = x \/ y ∈ vec.
Proof.
  induction vec as [|z vec IH]; cbn.
  - intros Hy. apply list_elem_of_singleton in Hy. auto.
  - destruct (less z x).
    + intros Hy. apply elem_of_cons in Hy as [->|Hy].
      * right. apply list_elem_of_here.
      * destruct (IH Hy) as [->|Hin]; [auto|]. right. now apply list_elem_of_further.
    + intros Hy. apply elem_of_cons in Hy as [->|Hy]; auto.
Qed.

Lemma elem_of_sort_by (g : globals) (sortfunc : domain_info -> domain_info -> bool)
    (y : Z) (vec : list Z) :
  y ∈ sort_by g sortfunc vec -> y ∈ vec.
Proof.
  unfold sort_by, std_sort. induction vec as [|x vec IH]; cbn; [auto|].
  intros Hy. apply elem_of_sort_insert in Hy as [->|Hy].
  - apply list_elem_of_here.
  - apply list_elem_of_further. auto.
Qed.

Lemma elem_of_insert_at (vec : list Z) (k : nat) (x y : Z) :
  y ∈ insert_at vec k x -> y = x \/ y ∈ vec.
Proof.
  unfold insert_at. intros Hy. apply elem_of_app in Hy as [Hy|Hy].
  - right. rewrite <- (take_drop k vec). apply elem_of_app. auto.
  - apply elem_of_cons in Hy as [->|Hy]; [auto|].
    right. rewrite <- (take_drop k vec). apply elem_of_app. auto.
Qed.

Section Kept.

Variables (id : Z) (d0 : domain_info) (tick0 : Z) (candidate : Prop).

Local Abbreviation keeps := (kept id d0 tick0 candidate).

Lemma kept_managed (g g' : globals) :
  managed g' = managed g -> sched_tick g' = sched_tick g -> keeps g -> keeps g'.
Proof.
  intros E Et (Ht & d & Hd & H). split; [congruence|]. exists d. now rewrite E.
Qed.

(** A write through the handle [a] keeps the domain if, when [a] is [id],
    it does not reduce the size, or leaves a candidate at [memsize_decr]
    or above. *)
Lemma kept_upd (a : Z) (f : domain_info -> domain_info) (g : globals) :
  keeps g ->
  (a = id -> forall d : domain_info, managed g !! id = Some d ->
     memsize_decr (f d) = memsize_decr d /\ sched (f d) = sched d
     /\ (memsize d <= memsize (f d) \/ (candidate /\ memsize_decr d <= memsize (f d)))) ->
  keeps (upd_dom a f g).
Proof.
  intros (Ht & d & Hd & Hdecr & Hs & Hm) Hf. split; [exact Ht|].
  destruct (decide (a = id)) as [->|Hne].
  - destruct (Hf eq_refl d Hd) as (F1 & F2 & F3).
    exists (f d). split; [now apply lookup_upd_dom_eq|].
    split; [congruence|]. split; [congruence|].
    destruct F3 as [F3|[F3 F4]]; destruct Hm as [Hm|[Hm Hm']]; try (left; lia);
      right; split; auto; lia.
  - exists d. split; [now rewrite lookup_upd_dom_ne|]. auto.
Qed.

(** Writes that leave [memsize], [memsize_decr] and the history alone. *)
Lemma kept_frame (a : Z) (f : domain_info -> domain_info) (g : globals) :
  (forall d : domain_info, memsize (f d) = memsize d /\ memsize_decr (f d) = memsize_decr d
             /\ sched (f d) = sched d) ->
  keeps g -> keeps (upd_dom a f g).
Proof.
  intros Hf Hk. apply kept_upd; [exact Hk|]. intros _ d _.
  destruct (Hf d) as (F1 & F2 & F3). repeat split; auto. left. lia.
Qed.

Lemma eval_resist_force_frame (ctx : eval_force_context) (d : domain_info) :
  memsize (eval_resist_force ctx d) = memsize d
  /\ memsize_decr (eval_resist_force ctx d) = memsize_decr d
  /\ sched (eval_resist_force ctx d) = sched d.
Proof. unfold eval_resist_force. repeat case_match; cbn; auto. Qed.

Lemma eval_expand_force_frame (ctx : eval_force_context) (d : domain_info) :
  memsize (eval_expand_force ctx d) = memsize d
  /\ memsize_decr (eval_expand_force ctx d) = memsize_decr d
  /\ sched (eval_expand_force ctx d) = sched d.
Proof. unfold eval_expand_force. repeat case_match; cbn; auto. Qed.

Lemma kept_grow (a : Z) (c : Z) (g : globals) :
  0 <= c -> keeps g ->
  keeps (upd_dom a (fun d => upd_cur (set_memsize (memsize d + c)) d) g).
Proof.
  intros Hc Hk. apply kept_upd; [exact Hk|]. intros _ d _. cbn.
  repeat split; auto. left. lia.
Qed.

(** The trimming loop of the rounds of stage 3, for a floor that is not
    below [memsize_decr]. *)
Lemma trim_loop_kept (floor : domain_info -> Z) :
  (forall d : domain_info, memsize_decr d <= floor d) ->
  forall (vec : list Z) (goal : Z) (g : globals),
    (id ∈ vec -> candidate) -> keeps g -> keeps (snd (trim_loop floor vec goal g)).
Proof.
  intros Hfloor. induction vec as [|a vec IH]; intros goal g Hc Hk; [exact Hk|].
  cbn [trim_loop].
  assert (Hc' : id ∈ vec -> candidate).
  { intros Hin. apply Hc. now apply list_elem_of_further. }
  destruct (Z.gtb_spec (memsize (deref g a) - floor (deref g a)) 0) as [Htrim|Htrim];
    [|now apply IH].
  assert (Hk' : keeps (upd_dom a (upd_cur (set_memsize
                 (memsize (deref g a)
                  - Z.min (memsize (deref g a) - floor (deref g a)) goal))) g)).
  { apply kept_upd; [exact Hk|]. intros -> d Hd.
    rewrite (deref_lookup g id d Hd). cbn. repeat split; auto.
    right. split; [apply Hc, list_elem_of_here|].
    pose proof (Hfloor d). lia. }
  destruct (_ <=? 0); [exact Hk'|]. now apply IH.
Qed.

(** [rebalance_domains] takes memory from the heads of the shrink vector
    only, and never takes a victim below its [memsize_decr]. *)
Lemma rebalance_domains_kept (ctx : eval_force_context) (e : Z) :
  forall (fuel : nat) (need : Z) (vec : list Z) (g : globals),
    (id ∈ vec -> candidate) -> keeps g ->
    (id ∈ fst (snd (rebalance_domains fuel ctx e need vec g)) -> candidate)
    /\ keeps (snd (snd (rebalance_domains fuel ctx e need vec g))).
Proof.
  induction fuel as [|fuel IH]; intros need vec g Hc Hk; [cbn; auto|].
  cbn [rebalance_domains].
  destruct (need >? 0) eqn:Hneed; cbn [negb]; [|cbn; auto].
  destruct vec as [|victim rest]; [cbn; auto|].
  assert (Hc' : id ∈ rest -> candidate).
  { intros Hin. apply Hc. now apply list_elem_of_further. }
  destruct (ineligible_victim (deref g victim)) eqn:Hinel; [now apply IH|].
  destruct (Qle_bool _ _); [cbn; auto|].
  set (v := deref g victim) in *.
  set (m := if memsize v >? dmem_quota v
            then Z.max (memsize_decr v) (dmem_quota v) else memsize_decr v).
  set (chunk := Z.min (memsize v - m) need).
  assert (Hv : memsize_decr v < memsize v).
  { unfold ineligible_victim in Hinel. apply orb_false_iff in Hinel as [_ Hinel].
    apply Z.leb_gt in Hinel. exact Hinel. }
  assert (Hm : memsize_decr v <= m < memsize v).
  { subst m. destruct (Z.gtb_spec (memsize v) (dmem_quota v)); lia. }
  assert (Hchunk : 0 <= chunk <= memsize v - m).
  { subst chunk. apply Z.gtb_lt in Hneed. lia. }
  set (g1 := upd_dom victim (fun d => upd_cur (set_memsize (memsize d - chunk)) d) g).
  set (g2 := upd_dom e (fun d => upd_cur (set_memsize (memsize d + chunk)) d) g1).
  set (g3 := upd_dom victim (upd_cur (set_balside RebalanceSide_SHRINKING)) g2).
  assert (Hk3 : keeps g3).
  { apply kept_frame; [intros d; cbn; auto|].
    apply kept_grow; [lia|].
    apply kept_upd; [exact Hk|]. intros -> d Hd.
    assert (d = v) by (subst v; symmetry; now apply deref_lookup). subst d.
    cbn. repeat split; auto. right. split; [apply Hc, list_elem_of_here|]. lia. }
  destruct (memsize (deref g3 victim) <=? memsize_decr (deref g3 victim));
    [now apply IH|].
  destruct (negb _).
  - apply IH.
    + intros Hin. apply elem_of_insert_at in Hin as [->|Hin]; [|auto].
      apply Hc. apply list_elem_of_here.
    + apply kept_frame; [apply eval_resist_force_frame|exact Hk3].
  - now apply IH.
Qed.

Lemma free_allocate_grant (ef : Q) (need : Z) (g g' : globals) (chunk : Z) :
  free_allocate ef need g = Ok (chunk, g') ->
  0 <= chunk /\ managed g' = managed g /\ sched_tick g' = sched_tick g.
Proof.
  unfold free_allocate. repeat case_match; intros E; try discriminate;
    inversion E; subst; (split; [|split; reflexivity]); try lia.
  all: apply rounddown_nonneg; lia.
Qed.

Lemma expand_into_freemem_kept (e : Z) (need : Z) (g g' : globals) (b : bool) :
  expand_into_freemem e need g = Ok (b, g') -> keeps g -> keeps g'.
Proof.
  unfold expand_into_freemem.
  destruct (free_allocate (expand_force (deref g e)) need g) as [[chunk g1]|] eqn:E;
    [|discriminate].
  destruct (free_allocate_grant _ _ _ _ _ E) as (Hc & Hm & Ht). cbn [obind].
  destruct (chunk =? 0); intros [= <- <-]; intros Hk.
  - now apply (kept_managed g).
  - apply kept_grow; [exact Hc|]. now apply (kept_managed g).
Qed.

(** The loop of [sched_rebalance]. *)
Lemma rebalance_loop_kept (expand_ctx resist_ctx : eval_force_context) :
  forall (fuel : nat) (st : rebalance_state),
    (id ∈ vec_shrink st -> candidate) -> keeps (rb_globals st) ->
    keeps (rb_globals (snd (rebalance_loop fuel expand_ctx resist_ctx st))).
Proof.
  induction fuel as [|fuel IH]; intros [ve vs g] Hc Hk; [exact Hk|].
  cbn [rebalance_loop vec_expand vec_shrink rb_globals] in *.
  destruct ve as [|e rest]; [exact Hk|].
  destruct (bool_decide _); [now apply IH|].
  set (g1 := upd_dom e (upd_cur (set_balside RebalanceSide_EXPANDING)) g).
  assert (Hk1 : keeps g1) by (apply kept_frame; [intros d; cbn; auto|exact Hk]).
  set (need := expansion_target (deref g1 e) - memsize (deref g1 e)).
  assert (Hfinish : forall (b : bool) (vs' : list Z) (g' : globals),
    (id ∈ vs' -> candidate) -> keeps g' ->
    keeps (rb_globals (snd
      (if memsize (deref g' e) >=? memsize_incr (deref g' e)
       then rebalance_loop fuel expand_ctx resist_ctx (mk_rebalance rest vs' g')
       else if negb (bool_decide
                 (size_expand_category (deref g' e) (memsize (deref g' e))
                  = size_expand_category (deref g1 e) (memsize (deref g1 e))))
       then rebalance_loop fuel expand_ctx resist_ctx
              (mk_rebalance
                 (insert_into_vec_expand (upd_dom e (eval_expand_force expand_ctx) g')
                    rest e)
                 vs' (upd_dom e (eval_expand_force expand_ctx) g'))
       else if b
       then (Failed "bug: sched_rebalance: size category did not change",
             mk_rebalance (e :: rest) vs' g')
       else rebalance_loop fuel expand_ctx resist_ctx (mk_rebalance (e :: rest) vs' g'))))).
  { intros b vs' g' Hc' Hk'.
    destruct (_ >=? _); [now apply IH|].
    destruct (negb _).
    - apply IH; [exact Hc'|]. cbn. apply kept_frame; [apply eval_expand_force_frame|exact Hk'].
    - destruct b; [exact Hk'|now apply IH]. }
  destruct (expand_into_freemem e need g1) as [[[|] g2]|msg] eqn:Efree.
  - apply Hfinish; [exact Hc|]. eapply expand_into_freemem_kept; eauto.
  - assert (Hk2 : keeps g2) by (eapply expand_into_freemem_kept; eauto).
    destruct (rebalance_domains_kept resist_ctx e fuel need vs g2 Hc Hk2) as [Hc3 Hk3].
    destruct (rebalance_domains fuel resist_ctx e need vs g2) as [s [vs3 g3]].
    cbn [fst snd] in Hc3, Hk3.
    destruct s; [|exact Hk3|exact Hk3].
    destruct (_ =? _); [exact Hk3|]. now apply (Hfinish false).
  - exact Hk1.
Qed.

Lemma kept_fold (step : globals -> Z -> globals) :
  (forall g a, keeps g -> keeps (step g a)) ->
  forall (vec : list Z) (g : globals), keeps g -> keeps (fold_left step vec g).
Proof.
  intros Hstep. induction vec as [|a vec IH]; intros g Hk; [exact Hk|].
  cbn. apply IH, Hstep, Hk.
Qed.

End Kept.

Lemma unshrunk_refl (g : globals) (id : Z) (d : domain_info) :
  managed g !! id = Some d -> unshrunk g id d g.
Proof.
  intros Hd. split; [reflexivity|]. exists d. repeat split; auto. left. lia.
Qed.

Lemma unshrunk_trans (g g1 g2 : globals) (id : Z) (d : domain_info) :
  unshrunk g id d g1 ->
  (forall d1 : domain_info, managed g1 !! id = Some d1 -> unshrunk g1 id d1 g2) ->
  unshrunk g id d g2.
Proof.
  intros (Ht1 & d1 & Hd1 & Hdecr1 & Hs1 & Hm1) H2.
  destruct (H2 d1 Hd1) as (Ht2 & d2 & Hd2 & Hdecr2 & Hs2 & Hm2).
  split; [congruence|]. exists d2. split; [exact Hd2|].
  split; [congruence|]. split; [congruence|].
  assert (Hp : is_shrink_soft_protected g1 d1 = is_shrink_soft_protected g d).
  { unfold is_shrink_soft_protected. now rewrite Ht1, Hs1. }
  rewrite Hp in Hm2.
  destruct Hm2 as [Hm2|[Hm2 Hm2']]; destruct Hm1 as [Hm1|[Hm1 Hm1']];
    try (left; lia); right; split; auto; lia.
Qed.

(** Stage 3 selects its candidates with filters that end in
    [!is_shrink_soft_protected(dom)]. *)
Ltac soft_candidate Hin Hd :=
  apply elem_of_sort_by, list_elem_of_filter in Hin as [Hin _];
  cbv zeta in Hin; apply Is_true_true in Hin;
  apply andb_true_iff in Hin as [_ Hin]; apply negb_true_iff in Hin;
  rewrite (deref_lookup _ _ _ Hd) in Hin; exact Hin.

Lemma soft_reclaim_round_1_unshrunk (goal : Z) (g : globals) (id : Z) (d : domain_info) :
  managed g !! id = Some d -> unshrunk g id d (snd (soft_reclaim_round_1 goal g)).
Proof.
  intros Hd. unfold soft_reclaim_round_1.
  destruct (goal <=? 0); [now apply unshrunk_refl|].
  apply trim_loop_kept; [intros; lia| |now apply unshrunk_refl].
  intros Hin. soft_candidate Hin Hd.
Qed.

Lemma soft_reclaim_round_2_unshrunk (goal : Z) (g : globals) (id : Z) (d : domain_info) :
  managed g !! id = Some d -> unshrunk g id d (snd (soft_reclaim_round_2 goal g)).
Proof.
  intros Hd. unfold soft_reclaim_round_2.
  destruct (goal <=? 0); [now apply unshrunk_refl|].
  apply trim_loop_kept; [intros; lia| |now apply unshrunk_refl].
  intros Hin. soft_candidate Hin Hd.
Qed.

Lemma soft_reclaim_round_3_unshrunk (goal : Z) (g : globals) (id : Z) (d : domain_info) :
  managed g !! id = Some d -> unshrunk g id d (snd (soft_reclaim_round_3 goal g)).
Proof.
  intros Hd. unfold soft_reclaim_round_3.
  destruct (goal <=? 0); [now apply unshrunk_refl|].
  apply trim_loop_kept; [intros; lia| |now apply unshrunk_refl].
  intros Hin. soft_candidate Hin Hd.
Qed.

Lemma soft_reclaim_unshrunk (goal : Z) (g : globals) (id : Z) (d : domain_info) :
  managed g !! id = Some d -> unshrunk g id d (snd (soft_reclaim goal g)).
Proof.
  intros Hd. unfold soft_reclaim.
  pose proof (soft_reclaim_round_1_unshrunk (roundup goal (memquant_kbs g)) g id d Hd) as H1.
  destruct (soft_reclaim_round_1 _ g) as [goal1 g1]. cbn [snd] in H1.
  pose proof (fun d1 => soft_reclaim_round_2_unshrunk goal1 g1 id d1) as H2.
  destruct (soft_reclaim_round_2 goal1 g1) as [goal2 g2]. cbn [snd] in H2.
  pose proof (fun d2 => soft_reclaim_round_3_unshrunk goal2 g2 id d2) as H3.
  destruct (soft_reclaim_round_3 goal2 g2) as [goal3 g3]. cbn [snd] in *.
  eapply unshrunk_trans; [|exact H3]. eapply unshrunk_trans; [exact H1|exact H2].
Qed.

(** Stage 3 as a whole. *)
Lemma sched_reserved_soft_unshrunk (g : globals) (id : Z) (d : domain_info) :
  managed g !! id = Some d -> unshrunk g id d (sched_reserved_soft g).
Proof.
  intros Hd. unfold sched_reserved_soft.
  destruct (_ <? _); [|now apply unshrunk_refl].
  pose proof (soft_reclaim_unshrunk
                (config.host_reserved_soft (cfg g) - host_free g) g id d Hd) as H.
  destruct (soft_reclaim _ g) as [reclaimed g1]. cbn [snd] in H.
  eapply kept_managed; [| |exact H]; reflexivity.
Qed.

(** Stage 4 as a whole, whatever the fuel. *)
Lemma sched_rebalance_unshrunk (fuel : nat) (g : globals) (id : Z) (d : domain_info) :
  managed g !! id = Some d -> unshrunk g id d (snd (sched_rebalance fuel g)).
Proof.
  intros Hd. unfold sched_rebalance.
  destruct (filter _ (managed_ids g)) as [|a vec]; [now apply unshrunk_refl|].
  destruct (eval_expand_force_context g (a :: vec)) as [expand_ctx|msg];
    [|now apply unshrunk_refl].
  cbv zeta.
  match goal with
  | |- context [rebalance_loop fuel ?ec ?rc ?st] =>
      pose proof (rebalance_loop_kept id d (sched_tick g)
                    (is_shrink_soft_protected g d = false) ec rc fuel st) as Hloop;
      destruct (rebalance_loop fuel ec rc st) as [s rs]
  end.
  cbn [snd vec_shrink rb_globals] in Hloop.
  match type of Hloop with
  | _ -> ?K -> _ => assert (Hk : K)
  end.
  { apply kept_fold.
    { intros g' b Hk. apply kept_frame; [intros d'; cbn; auto|exact Hk]. }
    apply kept_fold.
    { intros g' b Hk. apply kept_frame; [apply eval_resist_force_frame|].
      apply kept_frame; [apply eval_expand_force_frame|exact Hk]. }
    now apply unshrunk_refl. }
  apply Hloop; [|exact Hk].
  intros Hin. apply elem_of_sort_by, list_elem_of_filter in Hin as [Hin _].
  cbv zeta in Hin. apply Is_true_true, negb_true_iff, orb_false_iff in Hin as [_ Hin].
  destruct Hk as (Ht & d2 & Hd2 & _ & Hs & _).
  rewrite (deref_lookup _ _ _ Hd2) in Hin.
  unfold is_shrink_soft_protected in *. now rewrite Ht, Hs in Hin.
Qed.

Lemma to_ulong_elapsed (t k : Z) : to_ulong (to_ulong (t + k) - t) = to_ulong k.
Proof.
  unfold to_ulong. rewrite Zminus_mod_idemp_l. f_equal. lia.
Qed.

Lemma kept_protected (g g' : globals) (id : Z) (d : domain_info) :
  unshrunk g id d g' -> is_shrink_soft_protected g d = true ->
  memsize d <= memsize (deref g' id).
Proof.
  intros (_ & d' & Hd' & _ & _ & Hm) Hp. rewrite (deref_lookup _ _ _ Hd').
  destruct Hm as [Hm|[Hm _]]; [exact Hm|congruence].
Qed.

Lemma kept_spent (g' : globals) (id : Z) (d : domain_info) (t : Z) (candidate : Prop) :
  kept id d t candidate g' -> memsize d <= memsize_decr d ->
  memsize d <= memsize (deref g' id).
Proof.
  intros (_ & d' & Hd' & _ & _ & Hm) Hp. rewrite (deref_lookup _ _ _ Hd').
  destruct Hm as [Hm|[_ Hm]]; lia.
Qed.

(** C3: a domain that was last expanded at tick [t] is shrink-protected
    while tick [t + 1] is scheduled, in unsigned tick arithmetic: none of
    the three rounds of the soft-reserve stage, nor that stage as a whole,
    nor the rebalancing stage with any fuel, nor the two stages in a row,
    reduces its scheduled [memsize].  With [shrink_protection_time] = 1 the
    protection is over at tick [t + 2]. *)
Theorem C3_shrink_protection_after_expand
    (fuel : nat) (g : globals) (id : Z) (d : domain_info) (t : Z) :
  managed g !! id = Some d ->
  last_expand_tick d = t ->
  sched_tick g = to_ulong (t + 1) ->
  is_shrink_soft_protected g d = true
  /\ (forall goal, memsize d <= memsize (deref (snd (soft_reclaim_round_1 goal g)) id))
  /\ (forall goal, memsize d <= memsize (deref (snd (soft_reclaim_round_2 goal g)) id))
  /\ (forall goal, memsize d <= memsize (deref (snd (soft_reclaim_round_3 goal g)) id))
  /\ memsize d <= memsize (deref (sched_reserved_soft g) id)
  /\ memsize d <= memsize (deref (snd (sched_rebalance fuel g)) id)
  /\ memsize d <= memsize (deref (snd (sched_rebalance fuel (sched_reserved_soft g))) id)
  /\ (forall g', sched_tick g' = to_ulong (t + 2) ->
        is_shrink_soft_protected g' d = false).
Proof.
  intros Hd Ht Htick.
  assert (Hp : is_shrink_soft_protected g d = true).
  { unfold is_shrink_soft_protected. rewrite Htick, Ht, to_ulong_elapsed. reflexivity. }
  split; [exact Hp|].
  split; [intros goal; eapply kept_protected; [|exact Hp];
          now apply soft_reclaim_round_1_unshrunk|].
  split; [intros goal; eapply kept_protected; [|exact Hp];
          now apply soft_reclaim_round_2_unshrunk|].
  split; [intros goal; eapply kept_protected; [|exact Hp];
          now apply soft_reclaim_round_3_unshrunk|].
  split; [eapply kept_protected; [|exact Hp]; now apply sched_reserved_soft_unshrunk|].
  split; [eapply kept_protected; [|exact Hp]; now apply sched_rebalance_unshrunk|].
  split.
  - apply (kept_protected g); [|exact Hp].
    apply (unshrunk_trans g (sched_reserved_soft g));
      [now apply sched_reserved_soft_unshrunk|].
    intros d1 Hd1. now apply sched_rebalance_unshrunk.
  - intros g' Htick'. unfold is_shrink_soft_protected.
    rewrite Htick', Ht, to_ulong_elapsed. reflexivity.
Qed.

Lemma C3_shrink_protection_after_expand_witness :
  is_shrink_soft_protected full_host just_expanded = true
  /\ (forall goal, memsize just_expanded
                   <= memsize (deref (snd (soft_reclaim_round_1 goal full_host)) 3))
  /\ (forall goal, memsize just_expanded
                   <= memsize (deref (snd (soft_reclaim_round_2 goal full_host)) 3))
  /\ (forall goal, memsize just_expanded
                   <= memsize (deref (snd (soft_reclaim_round_3 goal full_host)) 3))
  /\ memsize just_expanded <= memsize (deref (sched_reserved_soft full_host) 3)
  /\ memsize just_expanded <= memsize (deref (snd (sched_rebalance 100 full_host)) 3)
  /\ memsize just_expanded
     <= memsize (deref (snd (sched_rebalance 100 (sched_reserved_soft full_host))) 3)
  /\ (forall g', sched_tick g' = to_ulong (999 + 2) ->
        is_shrink_soft_protected g' just_expanded = false).
Proof.
  apply (C3_shrink_protection_after_expand 100 full_host 3 just_expanded 999);
    reflexivity.
Defined.


(** ** The conversions on sample texts *)

Example strtol_model_ex1 : @a2long libc_model "1000" = (true, 1000).
Proof. reflexivity. Qed.
Example strtol_model_ex2 : fst (@a2long libc_model "12 ") = false.
Proof. reflexivity. Qed.
Example strtol_model_ex3 : fst (@a2long libc_model "-7") = true.
Proof. reflexivity. Qed.
Example strtod_model_ex1 : fst (@a2double libc_model "5.000000") = true.
Proof. vm_compute. reflexivity. Qed.
Example strtod_model_ex2 : fst (@a2double libc_model ".5") = false.
Proof. vm_compute. reflexivity. Qed.
Example strtod_model_ex3 : Qeq (snd (@a2double libc_model "12.5e1")) 125.
Proof. vm_compute. reflexivity. Qed.

(** ** Reports that are accepted *)

Lemma string_app_nil_r (s : string) : (s +:+ "")%string = s.
Proof.
  induction s as [|x s IH]; [reflexivity|].
  change (String x (s +:+ "") = String x s). now f_equal.
Qed.

(** The tokenizer on a line that ends in a newline. *)
Lemma strtok_r_line (l s : string) :
  no_newline l = true ->
  forall tok : string,
    strtok_r (l +:+ String newline s) tok =
    if String.eqb (tok +:+ l) "" then strtok_r s "" else (tok +:+ l) :: strtok_r s "".
Proof.
  induction l as [|c l IH]; intros Hl tok.
  - change (strtok_r (String newline s) tok =
            if String.eqb (tok +:+ "") "" then strtok_r s "" else (tok +:+ "") :: strtok_r s "").
    rewrite string_app_nil_r. reflexivity.
  - cbn [no_newline] in Hl. apply andb_true_iff in Hl as [Hc Hl].
    apply negb_true_iff in Hc.
    change (strtok_r (String c (l +:+ String newline s)) tok =
            if String.eqb (tok +:+ String c l) ""
            then strtok_r s "" else (tok +:+ String c l) :: strtok_r s "").
    cbn [strtok_r]. rewrite Hc, (IH Hl).
    change (String c l) with (String c "" +:+ l)%string.
    now rewrite string_app_assoc.
Qed.

(** The tokenizer on the last line. *)
Lemma strtok_r_end (l : string) :
  no_newline l = true ->
  forall tok : string,
    strtok_r l tok = if String.eqb (tok +:+ l) "" then [] else [(tok +:+ l)%string].
Proof.
  induction l as [|c l IH]; intros Hl tok.
  - cbn [strtok_r]. now rewrite string_app_nil_r.
  - cbn [no_newline] in Hl. apply andb_true_iff in Hl as [Hc Hl].
    apply negb_true_iff in Hc.
    cbn [strtok_r]. rewrite Hc, (IH Hl).
    change (String c l) with (String c "" +:+ l)%string.
    now rewrite string_app_assoc.
Qed.

(** The map is built from the lines of the report: the empty lines that
    the tokenizer skips add nothing to it. *)
Lemma tokens_of_lines (lines : list string) (last_line : string) :
  Forall (fun l => no_newline l = true) lines -> no_newline last_line = true ->
  forall kv : gmap string string,
    fold_left add_token (strtok_r (unlines lines +:+ last_line) "") kv
    = fold_left add_token (lines ++ [last_line]) kv.
Proof.
  intros Hlines Hlast. induction Hlines as [|l lines Hl Hlines IH]; intros kv.
  - change (unlines [] +:+ last_line)%string with last_line.
    rewrite (strtok_r_end _ Hlast).
    change ("" +:+ last_line)%string with last_line.
    destruct (String.eqb_spec last_line "") as [->|Hne]; reflexivity.
  - change (unlines (l :: lines)) with (l +:+ String newline (unlines lines))%string.
    rewrite string_app_assoc.
    change (String newline (unlines lines) +:+ last_line)%string
      with (String newline (unlines lines +:+ last_line)).
    rewrite (strtok_r_line _ _ Hl).
    change ("" +:+ l)%string with l.
    destruct (String.eqb_spec l "") as [->|Hne]; cbn [fold_left app]; apply IH.
Qed.

(** What the map holds for a key: the value of the last line with that
    key. *)
Lemma lookup_tokens (key : string) (lines : list string) :
  forall kv : gmap string string,
    k2v (fold_left add_token lines kv) key =
    match last_value key lines with
    | Some v => Some v
    | None => k2v kv key
    end.
Proof.
  unfold k2v. induction lines as [|l lines IH]; intros kv; [reflexivity|].
  cbn [fold_left last_value]. rewrite IH.
  destruct (last_value key lines) as [v|]; [reflexivity|].
  unfold add_token, set_kv. destruct (strchr_colon l) as [[k v]|]; [|reflexivity].
  destruct (String.eqb_spec k key) as [->|Hne].
  - apply lookup_insert_eq.
  - now apply lookup_insert_ne.
Qed.

Section AcceptedReports.
Context `{Libc}.

(** C10 (as the code has it): a report that begins with the line [A], whose
    last line with the key [action] has the value [report], and whose last
    lines with the keys [kbsec] and [freepct] have values that [a2long]
    and [a2double] accept, is parsed, and the two values are stored in the
    domain.  The other lines are any text: no other field is required, and
    none is looked at. *)
Theorem C10_report_accepted (dom : domain_info) (lines : list string)
    (last_line kbsec_text freepct_text : string) :
  Forall (fun l => no_newline l = true) lines ->
  no_newline last_line = true ->
  report_raw dom = Some (String "A" (String newline (unlines lines +:+ last_line))) ->
  last_value "action" (lines ++ [last_line]) = Some "report"%string ->
  last_value "kbsec" (lines ++ [last_line]) = Some kbsec_text ->
  fst (a2long kbsec_text) = true ->
  last_value "freepct" (lines ++ [last_line]) = Some freepct_text ->
  fst (a2double freepct_text) = true ->
  parse_domain_report dom =
    (ReportParsed,
     upd_cur (set_report_raw None)
       (upd_cur (set_freepct (snd (a2double freepct_text)))
          (upd_cur (set_rate (snd (a2long kbsec_text))) dom)))
  /\ report_ret (fst (parse_domain_report dom)) = true.
Proof.
  intros Hlines Hlast Hraw Haction Hkbsec Hlong Hfreepct Hdouble.
  assert (E : parse_domain_report dom =
    (ReportParsed,
     upd_cur (set_report_raw None)
       (upd_cur (set_freepct (snd (a2double freepct_text)))
          (upd_cur (set_rate (snd (a2long kbsec_text))) dom)))).
  { unfold parse_domain_report. rewrite Hraw.
    change (Ascii.eqb "A" (ascii_of_nat 65)) with true.
    change (Ascii.eqb newline newline) with true. cbn [negb orb].
    rewrite (tokens_of_lines lines last_line Hlines Hlast).
    rewrite !lookup_tokens, Haction, Hkbsec, Hfreepct.
    change (String.eqb "report" "report") with true. cbn [negb].
    destruct (a2long kbsec_text) as [ok1 v1]. cbn [fst snd] in *. subst ok1.
    destruct (a2double freepct_text) as [ok2 v2]. cbn [fst snd] in *. subst ok2.
    reflexivity. }
  split; [exact E|]. now rewrite E.
Qed.

End AcceptedReports.

Lemma C10_report_accepted_witness :
  @parse_domain_report libc_model sparse =
    (ReportParsed,
     upd_cur (set_report_raw None)
       (upd_cur (set_freepct (snd (@a2double libc_model "12.5")))
          (upd_cur (set_rate (snd (@a2long libc_model "7"))) sparse)))
  /\ report_ret (fst (@parse_domain_report libc_model sparse)) = true.
Proof.
  apply (@C10_report_accepted libc_model sparse
           ["action: report"; "seq: x y z"; "garbage"; ""; "kbsec: 7"]%string
           "freepct: 12.5" "7" "12.5").
  - repeat constructor.
  - reflexivity.
  - reflexivity.
  - reflexivity.
  - reflexivity.
  - reflexivity.
  - reflexivity.
  - reflexivity.
Defined.

(** C10 as stated fails.  A report that begins with the line [A], holds
    the line [action: report] and has [kbsec] and [freepct] values that are
    numbers is rejected when a later line gives the key [action] another
    value, and when the [freepct] value does not begin with a digit. *)
Lemma C10_counterexample :
  fst (@parse_domain_report libc_model
         (sample_domain 1 (mk_sched 999 0 [] 0 0 0 0 0)
            (fresh_tick (Some report_two_actions)))) = ReportMalformed
  /\ fst (@parse_domain_report libc_model
            (sample_domain 1 (mk_sched 999 0 [] 0 0 0 0 0)
               (fresh_tick (Some report_point)))) = ReportMalformed
  /\ @strtod libc_model ".5" = (5 # 10, 2%nat, false).
Proof. vm_compute. repeat split. Qed.

(** * Further properties *)

(** ** Memory accounts *)

Lemma total_memsize_upd_dom (a : Z) (f : domain_info -> domain_info) (g : globals) :
  total_memsize (upd_dom a f g) =
  total_memsize g +
  match (managed g !! a : option domain_info) with
  | Some d => memsize (f d) - memsize d
  | None => 0
  end.
Proof.
  unfold total_memsize, upd_dom. cbn [managed set_managed].
  destruct (managed g !! a) as [d|] eqn:E.
  - rewrite <- (insert_delete_id (managed g) a d E) at 1 2.
    rewrite alter_insert_eq.
    rewrite !map_fold_insert_L; try apply lookup_delete_eq; intros; lia.
  - rewrite alter_id; [lia|]. intros x Hx. congruence.
Qed.

Lemma dom_upd_dom (a : Z) (f : domain_info -> domain_info) (g : globals) :
  dom (managed (upd_dom a f g)) = dom (managed g).
Proof. unfold upd_dom. cbn [managed set_managed]. apply dom_alter_L. Qed.

Lemma host_free_upd_dom (a : Z) (f : domain_info -> domain_info) (g : globals) :
  host_free (upd_dom a f g) = host_free g.
Proof. reflexivity. Qed.

Lemma managed_ids_dom (g : globals) (id : Z) :
  id ∈ managed_ids g <-> id ∈ dom (managed g).
Proof.
  unfold managed_ids. rewrite merge_sort_Permutation. apply elem_of_elements.
Qed.

Lemma deref_dom (g : globals) (id : Z) :
  id ∈ dom (managed g) -> managed g !! id = Some (deref g id).
Proof.
  intros Hin. apply elem_of_dom in Hin as [d Hd].
  now rewrite (deref_lookup g id d Hd).
Qed.

Lemma tracked_upd (R : domain_info -> Prop) (id a : Z) (f : domain_info -> domain_info)
    (g : globals) :
  tracked R id g ->
  (a = id -> forall d : domain_info, managed g !! id = Some d -> R d -> R (f d)) ->
  tracked R id (upd_dom a f g).
Proof.
  intros (d & Hd & HR) Hf. destruct (decide (a = id)) as [->|Hne].
  - exists (f d). split; [now apply lookup_upd_dom_eq|]. now apply Hf.
  - exists d. split; [now rewrite lookup_upd_dom_ne|exact HR].
Qed.

Lemma tracked_managed (R : domain_info -> Prop) (id : Z) (g g' : globals) :
  managed g' = managed g -> tracked R id g -> tracked R id g'.
Proof. intros E (d & Hd & HR). exists d. now rewrite E. Qed.

Lemma tracked_fold (R : domain_info -> Prop) (id : Z) (step : globals -> Z -> globals) :
  (forall g a, tracked R id g -> tracked R id (step g a)) ->
  forall (vec : list Z) (g : globals), tracked R id g -> tracked R id (fold_left step vec g).
Proof.
  intros Hstep. induction vec as [|a vec IH]; intros g Hk; [exact Hk|].
  cbn. apply IH, Hstep, Hk.
Qed.

(** ** Stage 3: what the soft reserve takes *)

Lemma trimmed_from_refl (g : globals) (goal : Z) : trimmed_from g goal (goal, g).
Proof.
  unfold trimmed_from. cbn [fst snd]. split; [lia|]. split; [|intros; lia].
  exists (managed g). split; [now destruct g|reflexivity].
Qed.

Lemma trimmed_from_trans (g : globals) (goal : Z) (r1 r2 : Z * globals) :
  trimmed_from g goal r1 -> trimmed_from (snd r1) (fst r1) r2 -> trimmed_from g goal r2.
Proof.
  intros (A1 & (m1 & E1 & D1) & B1) (A2 & (m2 & E2 & D2) & B2).
  unfold trimmed_from. split; [lia|]. split; [|intros; lia].
  exists m2. rewrite E2, E1. split; [reflexivity|].
  rewrite D2, E1. exact D1.
Qed.

Lemma trim_loop_trimmed (floor : domain_info -> Z) :
  forall (vec : list Z) (goal : Z) (g : globals),
    (forall x, x ∈ vec -> x ∈ dom (managed g)) ->
    trimmed_from g goal (trim_loop floor vec goal g).
Proof.
  induction vec as [|a vec IH]; intros goal g Hin; [apply trimmed_from_refl|].
  cbn [trim_loop].
  assert (Hin' : forall x, x ∈ vec -> x ∈ dom (managed g)).
  { intros x Hx. apply Hin. now apply list_elem_of_further. }
  destruct (Z.gtb_spec (memsize (deref g a) - floor (deref g a)) 0) as [Htrim|Htrim];
    [|now apply IH].
  set (t := Z.min (memsize (deref g a) - floor (deref g a)) goal).
  set (g1 := upd_dom a (upd_cur (set_memsize (memsize (deref g a) - t))) g).
  assert (H1 : trimmed_from g goal (goal - t, g1)).
  { unfold trimmed_from. cbn [fst snd]. split.
    - subst g1. rewrite total_memsize_upd_dom.
      rewrite (deref_dom g a) by (apply Hin, list_elem_of_here). cbn. lia.
    - split; [|subst t; intros; lia].
      exists (alter (upd_cur (set_memsize (memsize (deref g a) - t))) a (managed g)).
      split; [reflexivity|apply dom_alter_L]. }
  destruct (goal - t <=? 0); [exact H1|].
  eapply trimmed_from_trans; [exact H1|]. cbn [fst snd].
  apply IH. intros x Hx. subst g1. rewrite dom_upd_dom. now apply Hin'.
Qed.

Lemma trim_loop_shrinks (floor : domain_info -> Z) (id : Z) (d0 : domain_info) :
  forall (vec : list Z) (goal : Z) (g : globals),
    0 <= goal ->
    tracked (shrunk_from d0) id g ->
    tracked (shrunk_from d0) id (snd (trim_loop floor vec goal g)).
Proof.
  induction vec as [|a vec IH]; intros goal g Hgoal Hk; [exact Hk|].
  cbn [trim_loop].
  destruct (Z.gtb_spec (memsize (deref g a) - floor (deref g a)) 0) as [Htrim|Htrim];
    [|now apply IH].
  set (t := Z.min (memsize (deref g a) - floor (deref g a)) goal).
  assert (Hk1 : tracked (shrunk_from d0) id
                  (upd_dom a (upd_cur (set_memsize (memsize (deref g a) - t))) g)).
  { apply tracked_upd; [exact Hk|]. intros -> d Hd [E Hle].
    rewrite (deref_lookup g id d Hd). split; [|cbn; lia].
    rewrite E at 2. reflexivity. }
  destruct (Z.leb_spec (goal - t) 0); [exact Hk1|].
  apply IH; [lia|exact Hk1].
Qed.

Lemma roundup_spec (n r : Z) :
  0 <= n -> 0 < r ->
  roundup n r mod r = 0 /\ n <= roundup n r < n + r.
Proof.
  intros Hn Hr. unfold roundup. rewrite Z.quot_div_nonneg by lia. split.
  - apply Z.mod_mul. lia.
  - pose proof (Z.mul_div_le (n + r - 1) r Hr).
    pose proof (Z.mul_succ_div_gt (n + r - 1) r Hr). lia.
Qed.

(** The shape that the three rounds of [soft_reclaim] share. *)
Lemma soft_round_trimmed (floor : domain_info -> Z) (vec : list Z) (goal : Z) (g : globals) :
  (forall x, x ∈ vec -> x ∈ dom (managed g)) ->
  trimmed_from g goal (if goal <=? 0 then (goal, g) else trim_loop floor vec goal g).
Proof.
  intros Hin. destruct (goal <=? 0); [apply trimmed_from_refl|].
  now apply trim_loop_trimmed.
Qed.

Lemma soft_round_shrinks (floor : domain_info -> Z) (vec : list Z) (goal : Z) (g : globals)
    (id : Z) (d0 : domain_info) :
  tracked (shrunk_from d0) id g ->
  tracked (shrunk_from d0) id
    (snd (if goal <=? 0 then (goal, g) else trim_loop floor vec goal g)).
Proof.
  intros Hk. destruct (Z.leb_spec goal 0); [exact Hk|].
  apply trim_loop_shrinks; [lia|exact Hk].
Qed.

Ltac soft_round_ids :=
  let x := fresh "x" in
  let Hx := fresh "Hx" in
  intros x Hx; apply elem_of_sort_by, list_elem_of_filter in Hx as [_ Hx];
  now apply managed_ids_dom.

Lemma soft_reclaim_rounds_trimmed (goal : Z) (g : globals) :
  trimmed_from g goal (soft_reclaim_round_1 goal g)
  /\ trimmed_from g goal (soft_reclaim_round_2 goal g)
  /\ trimmed_from g goal (soft_reclaim_round_3 goal g).
Proof.
  split; [|split]; apply soft_round_trimmed; soft_round_ids.
Qed.

Lemma soft_reclaim_rounds_shrink (goal : Z) (g : globals) (id : Z) (d0 : domain_info) :
  tracked (shrunk_from d0) id g ->
  tracked (shrunk_from d0) id (snd (soft_reclaim_round_1 goal g))
  /\ tracked (shrunk_from d0) id (snd (soft_reclaim_round_2 goal g))
  /\ tracked (shrunk_from d0) id (snd (soft_reclaim_round_3 goal g)).
Proof.
  intros Hk. split; [|split]; now apply soft_round_shrinks.
Qed.

(** [soft_reclaim] returns what it has taken from the domains, which is
    not negative and not more than the goal rounded up to the quantum. *)
Lemma soft_reclaim_account (goal : Z) (g : globals) :
  total_memsize (snd (soft_reclaim goal g)) + fst (soft_reclaim goal g) = total_memsize g
  /\ (exists m', snd (soft_reclaim goal g) = set_managed m' g /\ dom m' = dom (managed g))
  /\ 0 <= fst (soft_reclaim goal g) <= Z.max 0 (roundup goal (memquant_kbs g))
  /\ (roundup goal (memquant_kbs g) <= 0 -> snd (soft_reclaim goal g) = g).
Proof.
  unfold soft_reclaim. set (req := roundup goal (memquant_kbs g)).
  destruct (Z.leb_spec req 0) as [Hreq|Hreq].
  - unfold soft_reclaim_round_1, soft_reclaim_round_2, soft_reclaim_round_3.
    assert (E : (req <=? 0) = true) by now apply Z.leb_le.
    rewrite E. cbn [fst snd]. rewrite E, E. cbn [fst snd].
    split; [lia|]. split; [|split; [lia|reflexivity]].
    exists (managed g). split; [now destruct g|reflexivity].
  - destruct (soft_reclaim_rounds_trimmed req g) as (H1 & _ & _).
    destruct (soft_reclaim_round_1 req g) as [goal1 g1].
    destruct (soft_reclaim_rounds_trimmed goal1 g1) as (_ & H2 & _).
    destruct (soft_reclaim_round_2 goal1 g1) as [goal2 g2].
    destruct (soft_reclaim_rounds_trimmed goal2 g2) as (_ & _ & H3).
    destruct (soft_reclaim_round_3 goal2 g2) as [goal3 g3].
    pose proof (trimmed_from_trans _ _ _ _ (trimmed_from_trans _ _ _ _ H1 H2) H3)
      as (A & B & C).
    cbn [fst snd] in *. split; [lia|]. split; [exact B|]. split; [lia|lia].
Qed.

Lemma soft_reclaim_shrinks (goal : Z) (g : globals) (id : Z) (d0 : domain_info) :
  tracked (shrunk_from d0) id g ->
  tracked (shrunk_from d0) id (snd (soft_reclaim goal g)).
Proof.
  intros Hk. unfold soft_reclaim. set (req := roundup goal (memquant_kbs g)).
  destruct (soft_reclaim_rounds_shrink req g id d0 Hk) as (H1 & _ & _).
  destruct (soft_reclaim_round_1 req g) as [goal1 g1]. cbn [snd] in H1.
  destruct (soft_reclaim_rounds_shrink goal1 g1 id d0 H1) as (_ & H2 & _).
  destruct (soft_reclaim_round_2 goal1 g1) as [goal2 g2]. cbn [snd] in H2.
  destruct (soft_reclaim_rounds_shrink goal2 g2 id d0 H2) as (_ & _ & H3).
  destruct (soft_reclaim_round_3 goal2 g2) as [goal3 g3]. exact H3.
Qed.

(** X1: the soft-reserve stage neither creates nor loses memory: what it
    adds to the free memory of the host is what it takes from the scheduled
    sizes of the managed domains, and it manages the same domains after as
    before. *)
Theorem soft_reserve_conserves_memory (g : globals) :
  total_memory (sched_reserved_soft g) = total_memory g
  /\ dom (managed (sched_reserved_soft g)) = dom (managed g).
Proof.
  unfold sched_reserved_soft. destruct (_ <? _); [|auto].
  destruct (soft_reclaim_account (config.host_reserved_soft (cfg g) - host_free g) g)
    as (A & (m' & E & D) & _).
  destruct (soft_reclaim _ g) as [reclaimed g1]. cbn [fst snd] in *.
  unfold total_memory. rewrite E in *. cbn [host_free managed set_host_free set_managed].
  split; [|exact D].
  unfold total_memsize in *. cbn [managed set_host_free set_managed] in *. lia.
Qed.

(** X2: with a positive allocation quantum, the soft-reserve stage does
    nothing when the free memory is not below [host_reserved_soft];
    otherwise it does not lower the free memory, and raises it to less than
    one quantum above the reserve. *)
Theorem soft_reserve_reclaim_bounds (g : globals) :
  0 < memquant_kbs g ->
  (config.host_reserved_soft (cfg g) <= host_free g -> sched_reserved_soft g = g)
  /\ (host_free g < config.host_reserved_soft (cfg g) ->
      host_free g <= host_free (sched_reserved_soft g)
                  < config.host_reserved_soft (cfg g) + memquant_kbs g).
Proof.
  intros Hq. unfold sched_reserved_soft.
  destruct (Z.ltb_spec (host_free g) (config.host_reserved_soft (cfg g))) as [Hlt|Hge].
  - split; [lia|]. intros _.
    destruct (soft_reclaim_account (config.host_reserved_soft (cfg g) - host_free g) g)
      as (_ & (m' & E & _) & B & _).
    destruct (soft_reclaim _ g) as [reclaimed g1]. cbn [fst snd] in *.
    rewrite E. cbn [host_free set_host_free set_managed].
    pose proof (roundup_spec (config.host_reserved_soft (cfg g) - host_free g)
                  (memquant_kbs g)). lia.
  - split; [reflexivity|lia].
Qed.

Lemma soft_reserve_reclaim_bounds_witness :
  (config.host_reserved_soft (cfg short_host) <= host_free short_host ->
   sched_reserved_soft short_host = short_host)
  /\ (host_free short_host < config.host_reserved_soft (cfg short_host) ->
      host_free short_host <= host_free (sched_reserved_soft short_host)
                  < config.host_reserved_soft (cfg short_host) + memquant_kbs short_host).
Proof. apply (soft_reserve_reclaim_bounds short_host). reflexivity. Defined.


(** X3: the soft-reserve stage changes nothing but the free memory of the
    host and the scheduled sizes of managed domains; it raises no domain's
    scheduled size, and takes no domain below its [memsize_decr], or below
    its size when that is lower. *)
Theorem soft_reserve_only_shrinks (g : globals) (id : Z) (d : domain_info) :
  managed g !! id = Some d ->
  (exists d' : domain_info,
     managed (sched_reserved_soft g) !! id = Some d'
     /\ d' = upd_cur (set_memsize (memsize d')) d
     /\ Z.min (memsize d) (memsize_decr d) <= memsize d' <= memsize d)
  /\ exists h m',
       sched_reserved_soft g = set_host_free h (set_managed m' g).
Proof.
  intros Hd.
  assert (Hk : tracked (shrunk_from d) id g).
  { exists d. split; [exact Hd|]. split; [now destruct d as [? ? ? ? ? ? []]|lia]. }
  destruct (sched_reserved_soft_unshrunk g id d Hd) as (_ & d1 & Hd1 & _ & _ & Hlow).
  revert Hd1 Hlow. unfold sched_reserved_soft. destruct (_ <? _).
  - pose proof (soft_reclaim_shrinks
                  (config.host_reserved_soft (cfg g) - host_free g) g id d Hk) as Hs.
    destruct (soft_reclaim_account (config.host_reserved_soft (cfg g) - host_free g) g)
      as (_ & (m' & E & _) & _).
    destruct (soft_reclaim _ g) as [reclaimed g1]. cbn [fst snd] in *.
    intros Hd1 Hlow. split.
    + destruct Hs as (d' & Hd' & E' & Hle). exists d'.
      cbn [managed set_host_free] in Hd1. rewrite Hd' in Hd1. injection Hd1 as ->.
      split; [exact Hd'|]. split; [exact E'|]. lia.
    + exists (host_free g1 + reclaimed), m'. now rewrite E.
  - intros Hd1 Hlow. split.
    + exists d. split; [exact Hd|]. split; [now destruct d as [? ? ? ? ? ? []]|lia].
    + exists (host_free g), (managed g). now destruct g.
Qed.

Lemma soft_reserve_only_shrinks_witness :
  (exists d' : domain_info,
     managed (sched_reserved_soft short_host) !! 1 = Some d'
     /\ d' = upd_cur (set_memsize (memsize d')) idle_big
     /\ Z.min (memsize idle_big) (memsize_decr idle_big) <= memsize d' <= memsize idle_big)
  /\ exists h m',
       sched_reserved_soft short_host = set_host_free h (set_managed m' short_host).
Proof. apply (soft_reserve_only_shrinks short_host 1 idle_big). reflexivity. Defined.


(** ** Stage 4: what rebalancing moves *)

Lemma rounddown_le (n r : Z) : 0 <= n -> rounddown n r <= n.
Proof.
  intros Hn. unfold rounddown.
  destruct (Z.lt_trichotomy r 0) as [Hr|[->|Hr]].
  - replace (Z.quot n r * r) with (- r * Z.quot n (- r)).
    + apply Z.mul_quot_le; lia.
    + rewrite Z.quot_opp_r by lia. ring.
  - rewrite Z.mul_0_r. lia.
  - rewrite Z.mul_comm. apply Z.mul_quot_le; lia.
Qed.

Lemma rebalanced_from_refl (g : globals) : rebalanced_from g g.
Proof.
  split; [reflexivity|]. split; [|lia].
  exists (host_free g), (managed g). split; [now destruct g|reflexivity].
Qed.

Lemma rebalanced_from_trans (g g1 g2 : globals) :
  rebalanced_from g g1 -> rebalanced_from g1 g2 -> rebalanced_from g g2.
Proof.
  intros (A1 & (h1 & m1 & E1 & D1) & B1) (A2 & (h2 & m2 & E2 & D2) & B2).
  split; [congruence|]. split.
  - exists h2, m2. rewrite E2, E1. split; [reflexivity|].
    rewrite D2, E1. exact D1.
  - assert (cfg g1 = cfg g) by now rewrite E1. rewrite H in B2. lia.
Qed.

(** A write to a record that leaves its scheduled size as it is. *)
Lemma rebalanced_from_frame (a : Z) (f : domain_info -> domain_info) (g : globals) :
  (forall d : domain_info, memsize (f d) = memsize d) ->
  rebalanced_from g (upd_dom a f g).
Proof.
  intros Hf. split; [|split; [|cbn; lia]].
  - unfold total_memory. rewrite total_memsize_upd_dom, host_free_upd_dom.
    destruct (managed g !! a) as [d|]; [rewrite Hf|]; lia.
  - exists (host_free g), (alter f a (managed g)). split; [now destruct g|apply dom_alter_L].
Qed.

(** A domain that the registry does not hold is no victim. *)
Lemma ineligible_unmanaged (g : globals) (v : Z) :
  managed g !! v = None -> ineligible_victim (deref g v) = true.
Proof.
  intros Hv. unfold deref. rewrite lookup_total_alt, Hv. reflexivity.
Qed.

Lemma rebalance_domains_rebalanced (ctx : eval_force_context) (e : Z) :
  forall (fuel : nat) (need : Z) (vec : list Z) (g : globals),
    e ∈ dom (managed g) ->
    rebalanced_from g (snd (snd (rebalance_domains fuel ctx e need vec g)))
    /\ host_free (snd (snd (rebalance_domains fuel ctx e need vec g))) = host_free g.
Proof.
  induction fuel as [|fuel IH]; intros need vec g He;
    [split; [apply rebalanced_from_refl|reflexivity]|].
  cbn [rebalance_domains].
  destruct (need >? 0); cbn [negb]; [|split; [apply rebalanced_from_refl|reflexivity]].
  destruct vec as [|victim rest]; [split; [apply rebalanced_from_refl|reflexivity]|].
  destruct (ineligible_victim (deref g victim)) eqn:Hinel; [now apply IH|].
  destruct (Qle_bool _ _); [split; [apply rebalanced_from_refl|reflexivity]|].
  destruct (managed g !! victim) as [dv|] eqn:Hv;
    [|rewrite (ineligible_unmanaged g victim Hv) in Hinel; discriminate].
  set (v := deref g victim) in *.
  set (m := if memsize v >? dmem_quota v
            then Z.max (memsize_decr v) (dmem_quota v) else memsize_decr v).
  set (chunk := Z.min (memsize v - m) need).
  set (g1 := upd_dom victim (fun d => upd_cur (set_memsize (memsize d - chunk)) d) g).
  set (g2 := upd_dom e (fun d => upd_cur (set_memsize (memsize d + chunk)) d) g1).
  set (g3 := upd_dom victim (upd_cur (set_balside RebalanceSide_SHRINKING)) g2).
  assert (H2 : rebalanced_from g g2 /\ host_free g2 = host_free g).
  { split; [|reflexivity]. split; [|split; [|cbn; lia]].
    - unfold total_memory. subst g2. rewrite total_memsize_upd_dom, host_free_upd_dom.
      assert (He1 : e ∈ dom (managed g1)) by (subst g1; now rewrite dom_upd_dom).
      rewrite (deref_dom g1 e He1). subst g1.
      rewrite total_memsize_upd_dom, host_free_upd_dom, Hv. cbn. lia.
    - exists (host_free g), (managed g2).
      split; [subst g2 g1; unfold upd_dom; destruct g; reflexivity|].
      subst g2 g1. now rewrite !dom_upd_dom. }
  assert (H3 : rebalanced_from g g3 /\ host_free g3 = host_free g).
  { destruct H2 as [H2 H2h]. split; [|exact H2h].
    eapply rebalanced_from_trans; [exact H2|]. now apply rebalanced_from_frame. }
  assert (He3 : e ∈ dom (managed g3)).
  { subst g3 g2 g1. now rewrite !dom_upd_dom. }
  assert (Hnext : forall vec' g',
            rebalanced_from g3 g' /\ host_free g' = host_free g3 -> e ∈ dom (managed g') ->
            rebalanced_from g (snd (snd (rebalance_domains fuel ctx e (need - chunk) vec' g')))
            /\ host_free (snd (snd (rebalance_domains fuel ctx e (need - chunk) vec' g')))
               = host_free g).
  { intros vec' g' [Hr Hh] He'. destruct (IH (need - chunk) vec' g' He') as [R Rh].
    destruct H3 as [H3 H3h]. split; [|congruence].
    eapply rebalanced_from_trans; [exact H3|].
    eapply rebalanced_from_trans; [exact Hr|exact R]. }
  destruct (memsize (deref g3 victim) <=? memsize_decr (deref g3 victim)).
  - apply Hnext; [split; [apply rebalanced_from_refl|reflexivity]|exact He3].
  - destruct (negb _).
    + apply Hnext.
      * split; [|reflexivity]. apply rebalanced_from_frame.
        intros d. apply eval_resist_force_frame.
      * now rewrite dom_upd_dom.
    + apply Hnext; [split; [apply rebalanced_from_refl|reflexivity]|exact He3].
Qed.

Lemma rebalanced_from_dom (g g' : globals) :
  rebalanced_from g g' -> dom (managed g') = dom (managed g).
Proof. intros (_ & (h & m' & E & D) & _). now rewrite E. Qed.

Lemma free_allocate_account (ef : Q) (need : Z) (g g' : globals) (chunk : Z) :
  free_allocate ef need g = Ok (chunk, g') ->
  0 <= chunk <= need
  /\ g' = set_host_free (host_free g - chunk) g
  /\ Z.min (host_free g)
           (Z.min (config.host_reserved_hard (cfg g)) (config.host_reserved_soft (cfg g)))
     <= host_free g'.
Proof.
  unfold free_allocate.
  destruct (Z.ltb_spec need 0) as [|Hneed]; [discriminate|].
  set (reserve := if Qltb resist_force_free_soft ef
                  then config.host_reserved_hard (cfg g)
                  else config.host_reserved_soft (cfg g)).
  assert (Hres : Z.min (config.host_reserved_hard (cfg g)) (config.host_reserved_soft (cfg g))
                 <= reserve) by (subst reserve; destruct (Qltb _ _); lia).
  destruct (Z.leb_spec (host_free g - reserve) 0) as [Havail|Havail]; intros [= <- <-].
  - split; [lia|]. split; [rewrite Z.sub_0_r; now destruct g|lia].
  - pose proof (rounddown_nonneg (Z.min (host_free g - reserve) need) (memquant_kbs g)).
    pose proof (rounddown_le (Z.min (host_free g - reserve) need) (memquant_kbs g)).
    split; [lia|]. split; [reflexivity|]. cbn [host_free set_host_free]. lia.
Qed.

Lemma expand_into_freemem_rebalanced (e : Z) (need : Z) (g g' : globals) (b : bool) :
  expand_into_freemem e need g = Ok (b, g') ->
  e ∈ dom (managed g) ->
  rebalanced_from g g'.
Proof.
  unfold expand_into_freemem.
  destruct (free_allocate (expand_force (deref g e)) need g) as [[chunk g1]|] eqn:E;
    [|discriminate].
  destruct (free_allocate_account _ _ _ _ _ E) as (Hc & -> & Hlo). cbn [obind].
  intros Hres He.
  destruct (Z.eqb_spec chunk 0) as [->|Hne]; injection Hres as <- <-.
  - rewrite Z.sub_0_r. replace (set_host_free (host_free g) g) with g by now destruct g.
    apply rebalanced_from_refl.
  - split; [|split].
    + unfold total_memory. rewrite total_memsize_upd_dom, host_free_upd_dom.
      cbn [managed set_host_free host_free].
      rewrite (deref_dom g e He).
      unfold total_memsize. cbn [managed set_host_free]. cbn. lia.
    + exists (host_free g - chunk),
        (managed (upd_dom e (fun dom => upd_cur (set_memsize (memsize dom + chunk)) dom)
                    (set_host_free (host_free g - chunk) g))).
      split; [unfold upd_dom; destruct g; reflexivity|].
      now rewrite dom_upd_dom.
    + cbn [host_free set_host_free] in *. rewrite host_free_upd_dom. cbn. lia.
Qed.

Lemma rebalance_loop_rebalanced (expand_ctx resist_ctx : eval_force_context) :
  forall (fuel : nat) (st : rebalance_state),
    (forall x, x ∈ vec_expand st -> x ∈ dom (managed (rb_globals st))) ->
    rebalanced_from (rb_globals st)
      (rb_globals (snd (rebalance_loop fuel expand_ctx resist_ctx st))).
Proof.
  induction fuel as [|fuel IH]; intros [ve vs g] Hin; [apply rebalanced_from_refl|].
  cbn [rebalance_loop vec_expand vec_shrink rb_globals] in *.
  destruct ve as [|e rest]; [apply rebalanced_from_refl|].
  assert (He : e ∈ dom (managed g)) by (apply Hin, list_elem_of_here).
  assert (Hrest : forall x, x ∈ rest -> x ∈ dom (managed g)).
  { intros x Hx. apply Hin. now apply list_elem_of_further. }
  destruct (bool_decide _); [now apply (IH (mk_rebalance rest vs g))|].
  set (g1 := upd_dom e (upd_cur (set_balside RebalanceSide_EXPANDING)) g).
  assert (H1 : rebalanced_from g g1) by now apply rebalanced_from_frame.
  set (need := expansion_target (deref g1 e) - memsize (deref g1 e)).
  assert (Hfinish : forall (b : bool) (vs' : list Z) (g' : globals),
    rebalanced_from g g' ->
    rebalanced_from g (rb_globals (snd
      (if memsize (deref g' e) >=? memsize_incr (deref g' e)
       then rebalance_loop fuel expand_ctx resist_ctx (mk_rebalance rest vs' g')
       else if negb (bool_decide
                 (size_expand_category (deref g' e) (memsize (deref g' e))
                  = size_expand_category (deref g1 e) (memsize (deref g1 e))))
       then rebalance_loop fuel expand_ctx resist_ctx
              (mk_rebalance
                 (insert_into_vec_expand (upd_dom e (eval_expand_force expand_ctx) g')
                    rest e)
                 vs' (upd_dom e (eval_expand_force expand_ctx) g'))
       else if b
       then (Failed "bug: sched_rebalance: size category did not change",
             mk_rebalance (e :: rest) vs' g')
       else rebalance_loop fuel expand_ctx resist_ctx (mk_rebalance (e :: rest) vs' g'))))).
  { intros b vs' g' Hr. pose proof (rebalanced_from_dom _ _ Hr) as Hd.
    destruct (_ >=? _).
    - eapply rebalanced_from_trans; [exact Hr|].
      apply (IH (mk_rebalance rest vs' g')). cbn. intros x Hx. rewrite Hd. auto.
    - destruct (negb _).
      + eapply rebalanced_from_trans; [exact Hr|].
        eapply rebalanced_from_trans;
          [apply (rebalanced_from_frame e (eval_expand_force expand_ctx));
           intros d; apply eval_expand_force_frame|].
        apply (IH (mk_rebalance _ vs' _)). cbn [vec_expand rb_globals].
        intros x Hx.
        change (x ∈ dom (managed (upd_dom e (eval_expand_force expand_ctx) g'))).
        rewrite dom_upd_dom, Hd.
        apply elem_of_insert_at in Hx as [->|Hx]; auto.
      + destruct b; [exact Hr|].
        eapply rebalanced_from_trans; [exact Hr|].
        apply (IH (mk_rebalance (e :: rest) vs' g')). cbn. intros x Hx. rewrite Hd. auto. }
  assert (He1 : e ∈ dom (managed g1)) by (subst g1; now rewrite dom_upd_dom).
  destruct (expand_into_freemem e need g1) as [[[|] g2]|msg] eqn:Efree.
  - apply Hfinish. eapply rebalanced_from_trans; [exact H1|].
    eapply expand_into_freemem_rebalanced; eauto.
  - assert (H2 : rebalanced_from g g2).
    { eapply rebalanced_from_trans; [exact H1|].
      eapply expand_into_freemem_rebalanced; eauto. }
    assert (He2 : e ∈ dom (managed g2)) by (rewrite (rebalanced_from_dom _ _ H2); exact He).
    destruct (rebalance_domains_rebalanced resist_ctx e fuel need vs g2 He2) as [H3 _].
    destruct (rebalance_domains fuel resist_ctx e need vs g2) as [s [vs3 g3]].
    cbn [fst snd] in H3.
    assert (H3' : rebalanced_from g g3) by (eapply rebalanced_from_trans; eauto).
    destruct s; [|exact H3'|exact H3'].
    destruct (_ =? _); [exact H3'|]. now apply (Hfinish false).
  - exact H1.
Qed.

Lemma fold_left_ind_rebalanced (g0 : globals) (step : globals -> Z -> globals) :
  (forall g a, rebalanced_from g0 g -> rebalanced_from g0 (step g a)) ->
  forall (vec : list Z) (g : globals),
    rebalanced_from g0 g -> rebalanced_from g0 (fold_left step vec g).
Proof.
  intros Hstep. induction vec as [|a vec IH]; intros g Hk; [exact Hk|].
  cbn. apply IH, Hstep, Hk.
Qed.

Lemma sched_rebalance_rebalanced (fuel : nat) (g : globals) :
  rebalanced_from g (snd (sched_rebalance fuel g)).
Proof.
  unfold sched_rebalance.
  destruct (filter _ (managed_ids g)) as [|a vec] eqn:Evec; [apply rebalanced_from_refl|].
  assert (Hvec : forall x, x ∈ a :: vec -> x ∈ dom (managed g)).
  { intros x Hx. rewrite <- Evec in Hx. apply list_elem_of_filter in Hx as [_ Hx].
    now apply managed_ids_dom. }
  destruct (eval_expand_force_context g (a :: vec)) as [expand_ctx|msg];
    [|apply rebalanced_from_refl].
  cbv zeta.
  match goal with
  | |- context [rebalance_loop fuel ?ec ?rc ?st] =>
      pose proof (rebalance_loop_rebalanced ec rc fuel st) as Hloop;
      destruct (rebalance_loop fuel ec rc st) as [s rs]
  end.
  cbn [snd vec_expand rb_globals] in Hloop.
  match type of Hloop with
  | _ -> rebalanced_from ?g2 _ => assert (H2 : rebalanced_from g g2)
  end.
  { apply fold_left_ind_rebalanced.
    { intros g' b Hr. eapply rebalanced_from_trans; [exact Hr|].
      apply rebalanced_from_frame. intros d. reflexivity. }
    apply fold_left_ind_rebalanced; [|apply rebalanced_from_refl].
    intros g' b Hr. eapply rebalanced_from_trans; [exact Hr|].
    eapply rebalanced_from_trans;
      [apply (rebalanced_from_frame b (eval_expand_force expand_ctx));
       intros d; apply eval_expand_force_frame|].
    apply rebalanced_from_frame. intros d. apply eval_resist_force_frame. }
  eapply rebalanced_from_trans; [exact H2|]. apply Hloop.
  intros x Hx. rewrite (rebalanced_from_dom _ _ H2).
  apply elem_of_sort_by, list_elem_of_filter in Hx as [_ Hx]. auto.
Qed.

Lemma tracked_upd_to (R1 R2 : domain_info -> Prop) (id a : Z)
    (f : domain_info -> domain_info) (g : globals) :
  tracked R1 id g ->
  (a = id -> forall d : domain_info, managed g !! id = Some d -> R1 d -> R2 (f d)) ->
  (a <> id -> forall d : domain_info, R1 d -> R2 d) ->
  tracked R2 id (upd_dom a f g).
Proof.
  intros (d & Hd & HR) Hf Hne. destruct (decide (a = id)) as [->|Hn].
  - exists (f d). split; [now apply lookup_upd_dom_eq|]. now apply Hf.
  - exists d. split; [now rewrite lookup_upd_dom_ne|]. now apply Hne.
Qed.

Lemma tracked_weaken (R1 R2 : domain_info -> Prop) (id : Z) (g : globals) :
  (forall d : domain_info, R1 d -> R2 d) -> tracked R1 id g -> tracked R2 id g.
Proof. intros H (d & Hd & HR). exists d. auto. Qed.

Lemma rebalance_frame_refl (d : domain_info) : rebalance_frame d d.
Proof. now destruct d as [? ? ? ? ? ? []]. Qed.

Lemma rebalance_frame_trans (d0 d1 d2 : domain_info) :
  rebalance_frame d0 d1 -> rebalance_frame d1 d2 -> rebalance_frame d0 d2.
Proof.
  unfold rebalance_frame. intros E1 E2. rewrite E2. rewrite E1 at 1.
  destruct d0 as [? ? ? ? ? ? []]. reflexivity.
Qed.

Lemma rebalance_frame_memsize (v : Z) (d : domain_info) :
  rebalance_frame d (upd_cur (set_memsize v) d).
Proof. now destruct d as [? ? ? ? ? ? []]. Qed.

Lemma rebalance_frame_balside (v : balside_t) (d : domain_info) :
  rebalance_frame d (upd_cur (set_balside v) d).
Proof. now destruct d as [? ? ? ? ? ? []]. Qed.

Lemma rebalance_frame_expand_force0 (v : Q) (d : domain_info) :
  rebalance_frame d (upd_cur (set_expand_force0 v) d).
Proof. now destruct d as [? ? ? ? ? ? []]. Qed.

Lemma rebalance_frame_resist_force (ctx : eval_force_context) (d : domain_info) :
  rebalance_frame d (eval_resist_force ctx d).
Proof.
  unfold eval_resist_force. destruct d as [? ? ? ? ? ? []].
  repeat case_match; reflexivity.
Qed.

Lemma rebalance_frame_expand_force (ctx : eval_force_context) (d : domain_info) :
  rebalance_frame d (eval_expand_force ctx d).
Proof.
  unfold eval_expand_force. destruct d as [? ? ? ? ? ? []].
  repeat case_match; reflexivity.
Qed.

(** What the frame leaves alone. *)
Lemma rebalance_frame_fields (d0 d : domain_info) :
  rebalance_frame d0 d ->
  act d = act d0 /\ sched d = sched d0
  /\ memsize_incr d = memsize_incr d0 /\ memsize_decr d = memsize_decr d0
  /\ fast_rate d = fast_rate d0 /\ valid_data d = valid_data d0
  /\ xcinfo d = xcinfo d0 /\ trimming_to_quota d = trimming_to_quota d0.
Proof. intros ->. now destruct d0 as [? ? ? ? ? ? []]. Qed.

Lemma expansion_target_le (d : domain_info) : expansion_target d <= memsize_incr d.
Proof. unfold expansion_target. repeat case_match; lia. Qed.

Section Rebalanced.

(** [id] is a handle and [d0] the record it stood for when the stage was
    entered. *)
Variables (id : Z) (d0 : domain_info) (participant expandable : Prop).

Local Abbreviation tracks := (tracked (rebalanced_domain d0 participant expandable) id).

(** The record of [id] with room for [need] more below its ceiling, when
    [id] is the domain [e] that is being expanded. *)
Local Abbreviation tracks_room e need :=
  (tracked (fun d : domain_info =>
              rebalanced_domain d0 participant expandable d
              /\ (id = e -> participant /\ expandable
                            /\ memsize d + need <= memsize_incr d0)) id).

Lemma rebalanced_domain_frame (f : domain_info -> domain_info) (d : domain_info) :
  rebalance_frame d (f d) -> memsize (f d) = memsize d -> participant ->
  rebalanced_domain d0 participant expandable d ->
  rebalanced_domain d0 participant expandable (f d).
Proof.
  intros Hf Hm Hp (F & C & _). split; [eapply rebalance_frame_trans; eauto|].
  split; [rewrite Hm; exact C|now left].
Qed.

Lemma rebalance_domains_tracked (ctx : eval_force_context) (e : Z) :
  forall (fuel : nat) (need : Z) (vec : list Z) (g : globals),
    (id ∈ vec -> participant) ->
    tracks_room e need g ->
    tracks (snd (snd (rebalance_domains fuel ctx e need vec g)))
    /\ (id ∈ fst (snd (rebalance_domains fuel ctx e need vec g)) -> participant).
Proof.
  assert (Hweak : forall need g, tracks_room e need g -> tracks g).
  { intros need g. apply tracked_weaken. tauto. }
  induction fuel as [|fuel IH]; intros need vec g Hc Hk; [cbn; eauto|].
  cbn [rebalance_domains].
  destruct (need >? 0) eqn:Hneed; cbn [negb]; [|cbn; eauto].
  destruct vec as [|victim rest]; [cbn; eauto|].
  assert (Hc' : id ∈ rest -> participant).
  { intros Hin. apply Hc. now apply list_elem_of_further. }
  destruct (ineligible_victim (deref g victim)) eqn:Hinel; [now apply IH|].
  destruct (Qle_bool _ _); [cbn; eauto|].
  set (v := deref g victim) in *.
  set (m := if memsize v >? dmem_quota v
            then Z.max (memsize_decr v) (dmem_quota v) else memsize_decr v).
  set (chunk := Z.min (memsize v - m) need).
  assert (Hv : memsize_decr v < memsize v).
  { unfold ineligible_victim in Hinel. apply orb_false_iff in Hinel as [_ Hinel].
    apply Z.leb_gt in Hinel. exact Hinel. }
  assert (Hchunk : 0 <= chunk <= need).
  { subst chunk m. apply Z.gtb_lt in Hneed.
    destruct (Z.gtb_spec (memsize v) (dmem_quota v)); lia. }
  set (g1 := upd_dom victim (fun d => upd_cur (set_memsize (memsize d - chunk)) d) g).
  set (g2 := upd_dom e (fun d => upd_cur (set_memsize (memsize d + chunk)) d) g1).
  set (g3 := upd_dom victim (upd_cur (set_balside RebalanceSide_SHRINKING)) g2).
  assert (Hp : victim = id -> participant).
  { intros ->. apply Hc, list_elem_of_here. }
  assert (Hk1 : tracks_room e need g1).
  { eapply tracked_upd_to; [exact Hk| |tauto].
    intros Hvid d Hd ((F & C & P) & Hroom). split.
    - split; [eapply rebalance_frame_trans; [exact F|apply rebalance_frame_memsize]|].
      split; [cbn; destruct C as [C|[C1 C2]]; [left|right; split; auto]; lia|auto].
    - intros He. specialize (Hroom He). cbn. intuition lia. }
  assert (Hk2 : tracks_room e (need - chunk) g2).
  { eapply tracked_upd_to; [exact Hk1| |].
    - intros He d Hd ((F & C & P) & Hroom).
      destruct (Hroom (eq_sym He)) as (Hpa & Hex & Hle). split.
      + split; [eapply rebalance_frame_trans; [exact F|apply rebalance_frame_memsize]|].
        split; [right; split; [exact Hex|cbn; lia]|auto].
      + intros _. cbn. intuition lia.
    - intros Hne d (HR & Hroom). split; [exact HR|]. intros He. congruence. }
  assert (Hk3 : tracks_room e (need - chunk) g3).
  { eapply tracked_upd_to; [exact Hk2| |tauto].
    intros Hvid d Hd (HR & Hroom). split.
    - apply (rebalanced_domain_frame (upd_cur (set_balside RebalanceSide_SHRINKING)));
        [apply rebalance_frame_balside|reflexivity|auto|exact HR].
    - exact Hroom. }
  destruct (memsize (deref g3 victim) <=? memsize_decr (deref g3 victim));
    [now apply IH|].
  destruct (negb _).
  - apply IH.
    + intros Hin. apply elem_of_insert_at in Hin as [->|Hin]; auto.
    + eapply tracked_upd_to; [exact Hk3| |tauto].
      intros Hvid d Hd (HR & Hroom). split.
      * apply (rebalanced_domain_frame (eval_resist_force ctx));
          [apply rebalance_frame_resist_force|apply eval_resist_force_frame|auto|exact HR].
      * intros He. specialize (Hroom He).
        destruct (eval_resist_force_frame ctx d) as (Em & _). rewrite Em. exact Hroom.
  - now apply IH.
Qed.

Lemma expand_into_freemem_tracked (e : Z) (need : Z) (g g' : globals) (b : bool) :
  expand_into_freemem e need g = Ok (b, g') ->
  tracks_room e need g ->
  tracks g' /\ (b = false -> tracks_room e need g').
Proof.
  unfold expand_into_freemem.
  destruct (free_allocate (expand_force (deref g e)) need g) as [[chunk g1]|] eqn:E;
    [|discriminate].
  destruct (free_allocate_account _ _ _ _ _ E) as (Hc & -> & _). cbn [obind].
  intros Hres Hk.
  destruct (Z.eqb_spec chunk 0) as [->|Hne]; injection Hres as <- <-.
  - split; [|intros _]; eapply tracked_managed; try reflexivity;
      [eapply tracked_weaken; [|exact Hk]; tauto|exact Hk].
  - split; [|discriminate].
    eapply tracked_upd_to;
      [eapply (tracked_managed _ _ g); [reflexivity|exact Hk]| |tauto].
    intros He d Hd ((F & C & P) & Hroom).
    destruct (Hroom (eq_sym He)) as (Hpa & Hex & Hle).
    split; [eapply rebalance_frame_trans; [exact F|apply rebalance_frame_memsize]|].
    split; [right; split; [exact Hex|cbn; lia]|auto].
Qed.

Lemma rebalance_loop_tracked (expand_ctx resist_ctx : eval_force_context) :
  forall (fuel : nat) (st : rebalance_state),
    (id ∈ vec_expand st -> participant /\ expandable) ->
    (id ∈ vec_shrink st -> participant) ->
    tracks (rb_globals st) ->
    tracks (rb_globals (snd (rebalance_loop fuel expand_ctx resist_ctx st))).
Proof.
  induction fuel as [|fuel IH]; intros [ve vs g] Hce Hcs Hk; [exact Hk|].
  cbn [rebalance_loop vec_expand vec_shrink rb_globals] in *.
  destruct ve as [|e rest]; [exact Hk|].
  assert (Hrest : id ∈ rest -> participant /\ expandable).
  { intros Hin. apply Hce. now apply list_elem_of_further. }
  assert (He : e = id -> participant /\ expandable).
  { intros ->. apply Hce, list_elem_of_here. }
  destruct (bool_decide _); [now apply (IH (mk_rebalance rest vs g))|].
  set (g1 := upd_dom e (upd_cur (set_balside RebalanceSide_EXPANDING)) g).
  set (need := expansion_target (deref g1 e) - memsize (deref g1 e)).
  assert (Hk1 : tracks_room e need g1).
  { destruct Hk as (d & Hd & HR).
    destruct (decide (e = id)) as [Heq|Hne].
    - exists (upd_cur (set_balside RebalanceSide_EXPANDING) d).
      assert (Hd1 : managed g1 !! id
                    = Some (upd_cur (set_balside RebalanceSide_EXPANDING) d)).
      { subst g1. rewrite Heq. now apply lookup_upd_dom_eq. }
      split; [exact Hd1|]. destruct (He Heq) as [Hpa Hex]. split.
      + apply (rebalanced_domain_frame (upd_cur (set_balside RebalanceSide_EXPANDING)));
          [apply rebalance_frame_balside|reflexivity|auto|exact HR].
      + intros _. split; [exact Hpa|]. split; [exact Hex|].
        subst need. rewrite Heq, (deref_lookup g1 id _ Hd1).
        pose proof (expansion_target_le (upd_cur (set_balside RebalanceSide_EXPANDING) d)).
        destruct HR as (F & _). destruct (rebalance_frame_fields _ _ F) as (_ & _ & Ei & _).
        cbn in *. lia.
    - exists d. split; [subst g1; now rewrite lookup_upd_dom_ne|].
      split; [exact HR|]. intros Heq. congruence. }
  assert (Hfinish : forall (b : bool) (vs' : list Z) (g' : globals),
    (id ∈ vs' -> participant) -> tracks g' ->
    tracks (rb_globals (snd
      (if memsize (deref g' e) >=? memsize_incr (deref g' e)
       then rebalance_loop fuel expand_ctx resist_ctx (mk_rebalance rest vs' g')
       else if negb (bool_decide
                 (size_expand_category (deref g' e) (memsize (deref g' e))
                  = size_expand_category (deref g1 e) (memsize (deref g1 e))))
       then rebalance_loop fuel expand_ctx resist_ctx
              (mk_rebalance
                 (insert_into_vec_expand (upd_dom e (eval_expand_force expand_ctx) g')
                    rest e)
                 vs' (upd_dom e (eval_expand_force expand_ctx) g'))
       else if b
       then (Failed "bug: sched_rebalance: size category did not change",
             mk_rebalance (e :: rest) vs' g')
       else rebalance_loop fuel expand_ctx resist_ctx (mk_rebalance (e :: rest) vs' g'))))).
  { intros b vs' g' Hc' Hk'.
    destruct (_ >=? _); [now apply (IH (mk_rebalance rest vs' g'))|].
    destruct (negb _).
    - apply (IH (mk_rebalance _ vs' _)); cbn [vec_expand vec_shrink rb_globals].
      + intros Hin. apply elem_of_insert_at in Hin as [->|Hin]; auto.
      + exact Hc'.
      + apply tracked_upd; [exact Hk'|]. intros Heq d Hd HR.
        apply (rebalanced_domain_frame (eval_expand_force expand_ctx));
          [apply rebalance_frame_expand_force|apply eval_expand_force_frame
          |apply (He Heq)|exact HR].
    - destruct b; [exact Hk'|].
      now apply (IH (mk_rebalance (e :: rest) vs' g')). }
  destruct (expand_into_freemem e need g1) as [[[|] g2]|msg] eqn:Efree.
  - apply Hfinish; [exact Hcs|].
    now destruct (expand_into_freemem_tracked _ _ _ _ _ Efree Hk1).
  - destruct (expand_into_freemem_tracked _ _ _ _ _ Efree Hk1) as [_ Hk2].
    specialize (Hk2 eq_refl).
    destruct (rebalance_domains_tracked resist_ctx e fuel need vs g2 Hcs Hk2) as [Hk3 Hc3].
    destruct (rebalance_domains fuel resist_ctx e need vs g2) as [s [vs3 g3]].
    cbn [fst snd] in Hc3, Hk3.
    destruct s; [|exact Hk3|exact Hk3].
    destruct (_ =? _); [exact Hk3|]. now apply (Hfinish false).
  - eapply tracked_weaken; [|exact Hk1]. intros d [HR _]. exact HR.
Qed.

End Rebalanced.

Lemma upd_dom_compose (a : Z) (f1 f2 : domain_info -> domain_info) (g : globals) :
  upd_dom a f2 (upd_dom a f1 g) = upd_dom a (fun d => f2 (f1 d)) g.
Proof.
  unfold upd_dom. cbn [managed set_managed].
  rewrite alter_alter_eq. now destruct g.
Qed.

Lemma eval_expand_force_low (ctx : eval_force_context) (d : domain_info) :
  rate_category d (fast_rate d) = C_LOW -> expand_force (eval_expand_force ctx d) = 0%Q.
Proof. intros H. unfold eval_expand_force. now rewrite H. Qed.

Lemma expand_force_eval_resist_force (ctx : eval_force_context) (d : domain_info) :
  expand_force (eval_resist_force ctx d) = expand_force d.
Proof. unfold eval_resist_force. repeat case_match; reflexivity. Qed.

Section Prelude.

Variables (id : Z) (d : domain_info) (expand_ctx resist_ctx : eval_force_context).

(** The record of [id] while the forces are evaluated: [proc] says that
    the forces of [id] have been evaluated. *)
Local Abbreviation evaluated proc :=
  (tracked (fun d' : domain_info =>
              rebalance_frame d d' /\ memsize d' = memsize d
              /\ (proc \/ d' = d)
              /\ (rate_category d (fast_rate d) = C_LOW -> proc ->
                  expand_force d' = 0%Q)) id).

Lemma eval_forces_tracked :
  forall (vec : list Z) (g : globals) (proc : Prop),
    evaluated proc g ->
    evaluated (proc \/ id ∈ vec)
      (fold_left (fun g a =>
         upd_dom a (eval_resist_force resist_ctx)
           (upd_dom a (eval_expand_force expand_ctx) g)) vec g).
Proof.
  induction vec as [|a vec IH]; intros g proc Hk.
  - cbn. eapply tracked_weaken; [|exact Hk]. cbv beta. intros d' (F & M & P & L).
    split; [exact F|]. split; [exact M|]. split; [tauto|].
    intros Hlow [Hp|Hin]; [auto|]. now apply elem_of_nil in Hin.
  - cbn [fold_left].
    eapply tracked_weaken; [|apply (IH _ (proc \/ a = id))].
    + cbv beta. intros d' (F & M & P & L).
      split; [exact F|]. split; [exact M|]. split.
      * destruct P as [[[P|P]|P]|P]; auto.
        -- left. right. subst a. apply list_elem_of_here.
        -- left. right. now apply list_elem_of_further.
      * intros Hlow [Hp|Hin]; [auto|].
        apply elem_of_cons in Hin as [->|Hin]; auto.
    + rewrite upd_dom_compose. eapply tracked_upd_to; [exact Hk| |].
      * intros Ha d' _ (F & M & P & L).
        destruct (eval_expand_force_frame expand_ctx d') as (M1 & _).
        destruct (eval_resist_force_frame resist_ctx (eval_expand_force expand_ctx d'))
          as (M2 & _).
        split; [|split; [congruence|split; [auto|]]].
        -- eapply rebalance_frame_trans; [exact F|].
           eapply rebalance_frame_trans;
             [apply rebalance_frame_expand_force|apply rebalance_frame_resist_force].
        -- intros Hlow _. rewrite expand_force_eval_resist_force.
           apply eval_expand_force_low.
           destruct (rebalance_frame_fields _ _ F) as (Ea & _ & _ & _ & Ef & _).
           unfold rate_category in *.
           change (rate_high d') with (rate_high (act d')).
           change (rate_low d') with (rate_low (act d')).
           change (rate_high d) with (rate_high (act d)) in Hlow.
           change (rate_low d) with (rate_low (act d)) in Hlow.
           now rewrite Ef, Ea.
      * intros Hne d' (F & M & P & L).
        split; [exact F|]. split; [exact M|]. split; [tauto|].
        intros Hlow [Hp|Heq]; [auto|congruence].
Qed.

Lemma record_expand_force0_tracked (proc : Prop) :
  forall (vec : list Z) (g : globals),
    (id ∈ vec -> proc) ->
    evaluated proc g ->
    evaluated proc
      (fold_left (fun g a =>
         upd_dom a (fun dom => upd_cur (set_expand_force0 (expand_force dom)) dom) g)
         vec g).
Proof.
  induction vec as [|a vec IH]; intros g Hp Hk; [exact Hk|].
  cbn [fold_left]. apply IH.
  - intros Hin. apply Hp. now apply list_elem_of_further.
  - eapply tracked_upd_to; [exact Hk| |auto].
    intros Ha d' Hd' (F & M & P & L).
    split; [eapply rebalance_frame_trans; [exact F|apply rebalance_frame_expand_force0]|].
    split; [exact M|]. split; [|exact L].
    left. apply Hp. subst a. apply list_elem_of_here.
Qed.

End Prelude.

Lemma sched_rebalance_tracked (fuel : nat) (g : globals) (id : Z) (d : domain_info) :
  managed g !! id = Some d ->
  tracked (rebalanced_domain d (rebalance_participant d) (rebalance_expandable d)) id
    (snd (sched_rebalance fuel g)).
Proof.
  intros Hd.
  assert (Hk0 : tracked (rebalanced_domain d (rebalance_participant d)
                           (rebalance_expandable d)) id g).
  { exists d. split; [exact Hd|]. split; [apply rebalance_frame_refl|].
    split; [left; lia|now right]. }
  unfold sched_rebalance.
  destruct (filter _ (managed_ids g)) as [|a vec] eqn:Evec; [exact Hk0|].
  assert (Hvec : id ∈ a :: vec -> rebalance_participant d).
  { intros Hx. rewrite <- Evec in Hx. apply list_elem_of_filter in Hx as [Hx _].
    cbv zeta in Hx. rewrite (deref_lookup g id d Hd) in Hx.
    now apply Is_true_true in Hx. }
  destruct (eval_expand_force_context g (a :: vec)) as [expand_ctx|msg]; [|exact Hk0].
  cbv zeta.
  match goal with
  | |- context [rebalance_loop fuel ?ec ?rc ?st] =>
      pose proof (rebalance_loop_tracked id d (rebalance_participant d)
                    (rebalance_expandable d) ec rc fuel st) as Hloop;
      destruct (rebalance_loop fuel ec rc st) as [s rs]
  end.
  cbn [snd vec_expand vec_shrink rb_globals] in Hloop.
  match type of Hloop with
  | _ -> _ -> tracked _ _ ?g2 -> _ =>
      assert (H2 : tracked (fun d' : domain_info =>
                     rebalance_frame d d' /\ memsize d' = memsize d
                     /\ (id ∈ a :: vec \/ d' = d)
                     /\ (rate_category d (fast_rate d) = C_LOW -> id ∈ a :: vec ->
                         expand_force d' = 0%Q)) id g2)
  end.
  { apply record_expand_force0_tracked; [auto|].
    eapply tracked_weaken;
      [|apply (eval_forces_tracked id d expand_ctx _ (a :: vec) g False)].
    - cbv beta. intros d' (F & M & P & L).
      split; [exact F|]. split; [exact M|]. split; [tauto|]. auto.
    - exists d. split; [exact Hd|]. split; [apply rebalance_frame_refl|].
      split; [reflexivity|]. split; [now right|]. intros _ []. }
  destruct H2 as (d2 & Hd2 & F & M & P & L).
  apply Hloop.
  - intros Hin. apply elem_of_sort_by, list_elem_of_filter in Hin as [Hin Hmem].
    cbv zeta in Hin. rewrite (deref_lookup _ id d2 Hd2) in Hin.
    apply Is_true_true, negb_true_iff, orb_false_iff in Hin as [Hf Hs].
    split; [auto|]. split.
    + intros Hlow. rewrite (L Hlow Hmem) in Hf. discriminate.
    + rewrite Z.geb_leb in Hs. apply Z.leb_gt in Hs.
      destruct (rebalance_frame_fields _ _ F) as (_ & _ & Ei & _).
      rewrite <- M, <- Ei. exact Hs.
  - intros Hin. apply elem_of_sort_by, list_elem_of_filter in Hin as [_ Hmem]. auto.
  - exists d2. split; [exact Hd2|]. split; [exact F|]. split; [left; lia|].
    destruct P as [P|P]; [left; auto|now right].
Qed.

(** X4: the rebalancing stage neither creates nor loses memory: whatever
    it gives a domain it takes from the free memory of the host or from
    another managed domain, and it manages the same domains after as
    before.  This holds wherever the loop stops. *)
Theorem rebalance_conserves_memory (fuel : nat) (g : globals) :
  total_memory (snd (sched_rebalance fuel g)) = total_memory g
  /\ dom (managed (snd (sched_rebalance fuel g))) = dom (managed g).
Proof.
  pose proof (sched_rebalance_rebalanced fuel g) as H.
  split; [apply H|now apply rebalanced_from_dom].
Qed.

(** X5: the rebalancing stage never raises the free memory of the host,
    and never draws it below the lower of [host_reserved_hard] and
    [host_reserved_soft]; free memory that is below that already is left
    as it is. *)
Theorem rebalance_free_memory_bounds (fuel : nat) (g : globals) :
  Z.min (host_free g)
        (Z.min (config.host_reserved_hard (cfg g)) (config.host_reserved_soft (cfg g)))
  <= host_free (snd (sched_rebalance fuel g)) <= host_free g.
Proof. apply (sched_rebalance_rebalanced fuel g). Qed.

(** X6: whatever the rebalancing stage does to a managed domain, it changes
    nothing of its record but the scheduled size, the side of the
    rebalancing and the forces, and the new scheduled size lies between
    [memsize_decr] and [memsize_incr], or is the old one where that lies
    outside. *)
Theorem rebalance_size_window (fuel : nat) (g : globals) (id : Z) (d : domain_info) :
  managed g !! id = Some d ->
  exists d' : domain_info,
    managed (snd (sched_rebalance fuel g)) !! id = Some d'
    /\ rebalance_frame d d'
    /\ Z.min (memsize d) (memsize_decr d) <= memsize d'
        <= Z.max (memsize d) (memsize_incr d).
Proof.
  intros Hd.
  destruct (sched_rebalance_tracked fuel g id d Hd) as (d' & Hd' & F & C & _).
  destruct (sched_rebalance_unshrunk fuel g id d Hd) as (_ & d1 & Hd1 & _ & _ & Hlow).
  rewrite Hd' in Hd1. injection Hd1 as <-.
  exists d'. split; [exact Hd'|]. split; [exact F|]. lia.
Qed.

Lemma rebalance_size_window_witness :
  exists d' : domain_info,
    managed (snd (sched_rebalance 100 full_host)) !! 1 = Some d'
    /\ rebalance_frame idle_big d'
    /\ Z.min (memsize idle_big) (memsize_decr idle_big) <= memsize d'
        <= Z.max (memsize idle_big) (memsize_incr idle_big).
Proof. apply (rebalance_size_window 100 full_host 1 idle_big). reflexivity. Defined.


(** X7: the rebalancing stage leaves the record of a managed domain exactly
    as it is when the domain has no valid data for the tick, is not
    runnable, or is being trimmed to its quota. *)
Theorem rebalance_leaves_nonparticipants (fuel : nat) (g : globals) (id : Z)
    (d : domain_info) :
  managed g !! id = Some d ->
  valid_data d && runnable d && negb (trimming_to_quota d) = false ->
  managed (snd (sched_rebalance fuel g)) !! id = Some d.
Proof.
  intros Hd Hnp.
  destruct (sched_rebalance_tracked fuel g id d Hd) as (d' & Hd' & _ & _ & [P|P]).
  - unfold rebalance_participant in P. congruence.
  - now rewrite Hd', P.
Qed.

Lemma rebalance_leaves_nonparticipants_witness :
  managed (snd (sched_rebalance 100 quiet_host)) !! 1 = Some was_idle.
Proof.
  apply (rebalance_leaves_nonparticipants 100 quiet_host 1 was_idle); reflexivity.
Defined.


(** X8: the rebalancing stage expands no managed domain whose [fast_rate]
    is in the low rate category, and none whose scheduled size has reached
    its [memsize_incr]. *)
Theorem rebalance_expands_only_pressed (fuel : nat) (g : globals) (id : Z)
    (d : domain_info) :
  managed g !! id = Some d ->
  rate_category d (fast_rate d) = C_LOW \/ memsize_incr d <= memsize d ->
  memsize (deref (snd (sched_rebalance fuel g)) id) <= memsize d.
Proof.
  intros Hd Hidle.
  destruct (sched_rebalance_tracked fuel g id d Hd) as (d' & Hd' & _ & C & _).
  rewrite (deref_lookup _ _ _ Hd').
  destruct C as [C|[[E1 E2] C]]; [exact C|]. destruct Hidle; [congruence|lia].
Qed.

Lemma rebalance_expands_only_pressed_witness :
  memsize (deref (snd (sched_rebalance 100 full_host)) 1) <= memsize idle_big.
Proof.
  apply (rebalance_expands_only_pressed 100 full_host 1 idle_big); [reflexivity|].
  left. reflexivity.
Defined.


(** ** Stage 3: the domains the soft reserve leaves alone *)

Lemma trim_loop_untouched (floor : domain_info -> Z) (id : Z) :
  forall (vec : list Z) (goal : Z) (g : globals),
    id ∉ vec ->
    managed (snd (trim_loop floor vec goal g)) !! id = managed g !! id.
Proof.
  induction vec as [|a vec IH]; intros goal g Hin; [reflexivity|].
  apply not_elem_of_cons in Hin as [Hne Hin].
  cbn [trim_loop]. destruct (_ >? 0); [|now apply IH].
  destruct (_ <=? 0); cbn [snd]; [|rewrite IH by exact Hin];
    apply lookup_upd_dom_ne; congruence.
Qed.

(** A domain that the filter of a round rejects. *)
Lemma soft_round_untouched (floor : domain_info -> Z) (vec : list Z) (goal : Z)
    (g : globals) (id : Z) :
  id ∉ vec ->
  managed (snd (if goal <=? 0 then (goal, g) else trim_loop floor vec goal g)) !! id
  = managed g !! id.
Proof.
  intros Hin. destruct (goal <=? 0); [reflexivity|]. now apply trim_loop_untouched.
Qed.

Ltac soft_round_exempt Hd Hex :=
  apply soft_round_untouched;
  let Hin := fresh "Hin" in
  intros Hin; apply elem_of_sort_by, list_elem_of_filter in Hin as [Hin _];
  cbv zeta in Hin; rewrite (deref_lookup _ _ _ Hd) in Hin;
  apply Is_true_true in Hin;
  repeat match type of Hin with
         | (_ && _) = true => let H := fresh "H" in apply andb_true_iff in Hin as [Hin H]
         end;
  destruct Hex as [Hex|[Hex|[Hex|[Hex1 Hex2]]]];
  repeat match goal with
         | H : negb _ = true |- _ => apply negb_true_iff in H
         end;
  try congruence;
  repeat match goal with
         | H : (_ =? 0) = false |- _ => apply Z.eqb_neq in H
         end;
  congruence.

Lemma soft_reclaim_rounds_exempt (goal : Z) (g : globals) (id : Z) (d : domain_info) :
  managed g !! id = Some d -> soft_reserve_exempt d ->
  managed (snd (soft_reclaim_round_1 goal g)) !! id = Some d
  /\ managed (snd (soft_reclaim_round_2 goal g)) !! id = Some d
  /\ managed (snd (soft_reclaim_round_3 goal g)) !! id = Some d.
Proof.
  intros Hd Hex. rewrite <- Hd.
  split; [|split].
  - unfold soft_reclaim_round_1. soft_round_exempt Hd Hex.
  - unfold soft_reclaim_round_2. soft_round_exempt Hd Hex.
  - unfold soft_reclaim_round_3. soft_round_exempt Hd Hex.
Qed.

(** X9: the soft-reserve stage leaves the record of a managed domain
    exactly as it is when the domain has no valid data for the tick, is
    not runnable, is being trimmed to its quota, or has its counters
    [time_rate_below_low] and [time_rate_below_high] both at 0. *)
Theorem soft_reserve_leaves_exempt (g : globals) (id : Z) (d : domain_info) :
  managed g !! id = Some d ->
  valid_data d = false \/ runnable d = false \/ trimming_to_quota d = true
  \/ (time_rate_below_low d = 0 /\ time_rate_below_high d = 0) ->
  managed (sched_reserved_soft g) !! id = Some d.
Proof.
  intros Hd Hex. unfold sched_reserved_soft. destruct (_ <? _); [|exact Hd].
  unfold soft_reclaim.
  set (req := roundup (config.host_reserved_soft (cfg g) - host_free g) (memquant_kbs g)).
  destruct (soft_reclaim_rounds_exempt req g id d Hd Hex) as (H1 & _ & _).
  destruct (soft_reclaim_round_1 req g) as [goal1 g1]. cbn [snd] in H1.
  destruct (soft_reclaim_rounds_exempt goal1 g1 id d H1 Hex) as (_ & H2 & _).
  destruct (soft_reclaim_round_2 goal1 g1) as [goal2 g2]. cbn [snd] in H2.
  destruct (soft_reclaim_rounds_exempt goal2 g2 id d H2 Hex) as (_ & _ & H3).
  destruct (soft_reclaim_round_3 goal2 g2) as [goal3 g3]. exact H3.
Qed.

Lemma soft_reserve_leaves_exempt_witness :
  managed (sched_reserved_soft short_host) !! 2 = Some hungry.
Proof.
  apply (soft_reserve_leaves_exempt short_host 2 hungry); [reflexivity|].
  right. right. right. split; reflexivity.
Defined.


(** ** Rate smoothing: what [slow_rate] can be *)

(** X10: on a history whose ticks are in order, [calc_rates] returns; it
    keeps the newest five samples, the current one first; [fast_rate] is
    the current rate, and [slow_rate] is not below the current rate.  When
    the current rate and the rates of the history are of a magnitude of
    2^48 at most, no operation of the average rounds, and [slow_rate] is
    not above the largest of them. *)
Theorem calc_rates_bounds (now : Z) (dom : domain_info) (M : Z) :
  ticks_descend (mk_rate_record now (rate dom) :: rate_history dom) ->
  M <= 2 ^ 48 ->
  - 2 ^ 48 <= rate dom <= M ->
  (forall r, r ∈ rate_history dom -> - 2 ^ 48 <= rr_rate r <= M) ->
  exists dom', calc_rates now dom = Ok dom'
    /\ rate_history dom' = take 5 (mk_rate_record now (rate dom) :: rate_history dom)
    /\ fast_rate dom' = rate dom
    /\ rate dom <= slow_rate dom' <= M.
Proof.
  intros Hord HM HR Hall.
  destruct (calc_rates_ok now dom Hord) as (dom' & E & _ & Ef & _ & Eh & Elow & Eup).
  exists dom'. split; [exact E|]. split; [exact Eh|]. split; [exact Ef|].
  split; [exact Elow|].
  apply (Eup (- 2 ^ 48) M (2 ^ 48)); try assumption; lia.
Qed.

Ltac ticks_in_order :=
  let i := fresh "i" in
  let j := fresh "j" in
  let ri := fresh "ri" in
  let rj := fresh "rj" in
  let Hij := fresh "Hij" in
  let Hi := fresh "Hi" in
  let Hj := fresh "Hj" in
  intros i j ri rj Hij Hi Hj;
  do 7 (destruct i as [|i];
        [do 7 (destruct j as [|j];
               [try lia; cbn in Hi, Hj;
                try (injection Hi as <-; injection Hj as <-; cbn; lia)|]);
         cbn in Hj; discriminate|]);
  cbn in Hi; discriminate.

Lemma calc_rates_bounds_witness :
  exists dom', calc_rates 1000 steady = Ok dom'
    /\ rate_history dom' = take 5 (mk_rate_record 1000 (rate steady) :: rate_history steady)
    /\ fast_rate dom' = rate steady
    /\ rate steady <= slow_rate dom' <= 50.
Proof.
  apply (calc_rates_bounds 1000 steady 50).
  - ticks_in_order.
  - lia.
  - cbn. lia.
  - intros r Hr. cbn in Hr.
    repeat (apply elem_of_cons in Hr as [->|Hr]; [cbn; lia|]).
    now apply elem_of_nil in Hr.
Defined.

Lemma Qtrunc_weighted_once (r : Z) :
  10 * Z.abs r < 2 ^ 53 ->
  Qtrunc (fdiv (fadd 0 (fmul (double_of_long r) 10)) (fadd 0 10)) = r.
Proof.
  intros Hr. rewrite double_of_long_inject by lia.
  change 10%Q with (inject_Z 10). change 0%Q with (inject_Z 0).
  rewrite fmul_inject by lia. rewrite !fadd_inject by lia.
  unfold fdiv. rewrite (round64_inject _ r); [apply Qtrunc_inject; reflexivity| |lia].
  rewrite !inject_Z_plus, inject_Z_mult. field.
Qed.

(** X11: when the newest sample of the history is three ticks old or
    older (more than one report was missed), or the history is empty,
    [calc_rates] disregards the history: [slow_rate] is the current rate,
    for a rate small enough for its tenfold to be a double
    ([10 * |rate| < 2^53]). *)
Theorem calc_rates_after_gap (now : Z) (dom : domain_info) :
  10 * Z.abs (rate dom) < 2 ^ 53 ->
  match rate_history dom with
  | [] => True
  | r1 :: _ => 3 <= now - tick r1 <= 2 ^ 31
  end ->
  exists dom', calc_rates now dom = Ok dom'
    /\ fast_rate dom' = rate dom /\ slow_rate dom' = rate dom.
Proof.
  intros Hsmall Hgap. unfold calc_rates, weight_samples.
  destruct (rate_history dom) as [|r1 rest] eqn:Eh.
  - cbn [take nslow_weights slow_weights length rate_history sched upd_sched
         set_rate_history upd_cur cur set_fast_rate Nat.min weight_samples_loop
         Nat.leb Nat.eqb lookup list_lookup tick rr_rate obind nth].
    rewrite (Qtrunc_weighted_once (rate dom) Hsmall).
    eexists; split; [reflexivity|]. cbn. split; [reflexivity|lia].
  - change (take nslow_weights (mk_rate_record now (rate dom) :: r1 :: rest))
      with (mk_rate_record now (rate dom) :: r1 :: take 3 rest).
    cbn [rate_history sched upd_sched set_rate_history upd_cur cur].
    change nslow_weights with 5%nat.
    change (Nat.min 5 (length (mk_rate_record now (rate dom) :: r1 :: take 3 rest)))
      with (S (S (Nat.min 3 (length (take 3 rest))))).
    cbn [weight_samples_loop Nat.leb Nat.eqb lookup list_lookup tick].
    change ((mk_rate_record now (rate dom) :: r1 :: take 3 rest) !! 0%nat)
      with (Some (mk_rate_record now (rate dom))).
    cbn [Nat.leb Nat.eqb tick rr_rate].
    change ((mk_rate_record now (rate dom) :: r1 :: take 3 rest) !! 1%nat)
      with (Some r1).
    cbn [Nat.leb Nat.eqb].
    rewrite gap_small by lia.
    destruct (Z.ltb_spec (now - tick r1 - 1) 0); [lia|].
    destruct (Z.gtb_spec (now - tick r1 - 1) 1); [|lia].
    cbn [obind nth slow_weights].
    rewrite (Qtrunc_weighted_once (rate dom) Hsmall).
    eexists; split; [reflexivity|]. cbn. split; [reflexivity|lia].
Qed.

Lemma gap_negative (d : Z) :
  0 <= d < 2 ^ 31 -> to_int (to_ulong (to_ulong (- d) - 1)) = - d - 1.
Proof.
  intros Hd. unfold to_int, to_ulong, ULONG_MOD, INT_MOD.
  rewrite Zminus_mod_idemp_l.
  replace ((- d - 1) mod 2 ^ 64) with (2 ^ 64 - d - 1).
  2:{ apply Z.mod_unique with (q := -1); lia. }
  replace ((2 ^ 64 - d - 1) mod 2 ^ 32) with (2 ^ 32 - d - 1).
  2:{ apply Z.mod_unique with (q := 2 ^ 32 - 1); lia. }
  destruct (Z.ltb_spec (2 ^ 32 - d - 1) (2 ^ 31)); lia.
Qed.

(** X12: [calc_rates] ends the daemon with the message
    [bug: weight_samples bad gap] when the newest sample of the history
    carries the current tick or a later one. *)
Theorem calc_rates_bad_gap (now : Z) (dom : domain_info) (r1 : rate_record)
    (rest : list rate_record) :
  rate_history dom = r1 :: rest ->
  0 <= tick r1 - now < 2 ^ 31 ->
  calc_rates now dom = Fatal "bug: weight_samples bad gap".
Proof.
  intros Eh Hgap. unfold calc_rates, weight_samples. rewrite Eh.
  change (take nslow_weights (mk_rate_record now (rate dom) :: r1 :: rest))
    with (mk_rate_record now (rate dom) :: r1 :: take 3 rest).
  cbn [rate_history sched upd_sched set_rate_history upd_cur cur].
  change nslow_weights with 5%nat.
  change (Nat.min 5 (length (mk_rate_record now (rate dom) :: r1 :: take 3 rest)))
    with (S (S (Nat.min 3 (length (take 3 rest))))).
  cbn [weight_samples_loop Nat.leb Nat.eqb].
  change ((mk_rate_record now (rate dom) :: r1 :: take 3 rest) !! 0%nat)
    with (Some (mk_rate_record now (rate dom))).
  cbn [Nat.leb Nat.eqb tick rr_rate].
  change ((mk_rate_record now (rate dom) :: r1 :: take 3 rest) !! 1%nat)
    with (Some r1).
  cbn [Nat.leb Nat.eqb].
  replace (now - tick r1) with (- (tick r1 - now)) by lia.
  rewrite gap_negative by lia.
  destruct (Z.ltb_spec (- (tick r1 - now) - 1) 0); [reflexivity|lia].
Qed.

Lemma calc_rates_after_gap_witness :
  exists dom', calc_rates 1005 steady = Ok dom'
    /\ fast_rate dom' = rate steady /\ slow_rate dom' = rate steady.
Proof. apply (calc_rates_after_gap 1005 steady); cbn; lia. Defined.

Lemma calc_rates_bad_gap_witness :
  calc_rates 999 steady = Fatal "bug: weight_samples bad gap".
Proof.
  apply (calc_rates_bad_gap 999 steady (mk_rate_record 999 50)
           [mk_rate_record 998 50; mk_rate_record 997 50; mk_rate_record 996 50;
            mk_rate_record 995 50]); [reflexivity|cbn; lia].
Defined.

(** ** Reports: the verdict of the parser *)

Section ReportVerdict.
Context `{Libc}.

(** X13: for a report that begins with the line [A], [parse_domain_report]
    returns true exactly when the last line with the key [action] has the
    value [report], and the last lines with the keys [kbsec] and [freepct]
    exist and have values that [a2long] and [a2double] accept; in every
    other case the report is counted as malformed, which is the case in
    which the source unmanages the domain.  Either way the raw report is
    released. *)
Theorem parse_domain_report_verdict (dom : domain_info) (lines : list string)
    (last_line : string) :
  Forall (fun l => no_newline l = true) lines ->
  no_newline last_line = true ->
  report_raw dom = Some (String "A" (String newline (unlines lines +:+ last_line))) ->
  (report_ret (fst (parse_domain_report dom)) = true <->
     last_value "action" (lines ++ [last_line]) = Some "report"%string
     /\ (exists k, last_value "kbsec" (lines ++ [last_line]) = Some k
                   /\ fst (a2long k) = true)
     /\ (exists f, last_value "freepct" (lines ++ [last_line]) = Some f
                   /\ fst (a2double f) = true))
  /\ (report_ret (fst (parse_domain_report dom)) = false ->
      fst (parse_domain_report dom) = ReportMalformed)
  /\ report_raw (snd (parse_domain_report dom)) = None.
Proof.
  intros Hlines Hlast Hraw. unfold parse_domain_report. rewrite Hraw.
  change (Ascii.eqb "A" (ascii_of_nat 65)) with true.
  change (Ascii.eqb newline newline) with true. cbn [negb orb].
  rewrite (tokens_of_lines lines last_line Hlines Hlast).
  rewrite !lookup_tokens. change (k2v ∅ _) with (@None string).
  destruct (last_value "action" (lines ++ [last_line])) as [a|];
    [|cbn; split; [split; [discriminate|intros (? & _); discriminate]|auto]].
  destruct (String.eqb_spec a "report") as [->|Hne]; cbn [negb];
    [|cbn; split; [split; [discriminate|intros (? & _); congruence]|auto]].
  destruct (last_value "kbsec" (lines ++ [last_line])) as [k|];
    [|cbn; split; [split; [discriminate|intros (_ & (? & ? & _) & _); discriminate]|auto]].
  destruct (a2long k) as [ok1 v1] eqn:E1. destruct ok1; cbn [negb];
    [|cbn; split;
      [split; [discriminate|intros (_ & (? & [= <-] & Hk) & _); rewrite E1 in Hk;
                            discriminate]|auto]].
  destruct (last_value "freepct" (lines ++ [last_line])) as [f|];
    [|cbn; split; [split; [discriminate|intros (_ & _ & (? & ? & _)); discriminate]|auto]].
  destruct (a2double f) as [ok2 v2] eqn:E2. destruct ok2; cbn [negb];
    [|cbn; split;
      [split; [discriminate|intros (_ & _ & (? & [= <-] & Hf)); rewrite E2 in Hf;
                            discriminate]|auto]].
  cbn. split; [|split; [discriminate|reflexivity]].
  split; [|reflexivity]. intros _. split; [reflexivity|].
  split; [exists k|exists f]; rewrite ?E1, ?E2; auto.
Qed.

(** X14: a raw report that does not begin with the line [A] (the empty
    report and a report of the one character [A] included) is malformed:
    [parse_domain_report] releases it and writes no other field of the
    record. *)
Theorem parse_domain_report_version (dom : domain_info) (raw : string) :
  report_raw dom = Some raw ->
  (forall body, raw <> String "A" (String newline body)) ->
  parse_domain_report dom = (ReportMalformed, upd_cur (set_report_raw None) dom).
Proof.
  intros Hraw Hver. unfold parse_domain_report. rewrite Hraw.
  destruct raw as [|c0 [|c1 body]]; try reflexivity.
  destruct (Ascii.eqb_spec c0 (ascii_of_nat 65)) as [->|]; [|reflexivity].
  destruct (Ascii.eqb_spec c1 newline) as [->|]; [|reflexivity].
  exfalso. now apply (Hver body).
Qed.

End ReportVerdict.

Lemma parse_domain_report_verdict_witness :
  (report_ret (fst (@parse_domain_report libc_model sparse)) = true <->
     last_value "action"
       (["action: report"; "seq: x y z"; "garbage"; ""; "kbsec: 7"]%string ++ ["freepct: 12.5"%string])
       = Some "report"%string
     /\ (exists k, last_value "kbsec"
           (["action: report"; "seq: x y z"; "garbage"; ""; "kbsec: 7"]%string ++ ["freepct: 12.5"%string])
           = Some k /\ fst (@a2long libc_model k) = true)
     /\ (exists f, last_value "freepct"
           (["action: report"; "seq: x y z"; "garbage"; ""; "kbsec: 7"]%string ++ ["freepct: 12.5"%string])
           = Some f /\ fst (@a2double libc_model f) = true))
  /\ (report_ret (fst (@parse_domain_report libc_model sparse)) = false ->
      fst (@parse_domain_report libc_model sparse) = ReportMalformed)
  /\ report_raw (snd (@parse_domain_report libc_model sparse)) = None.
Proof.
  apply (@parse_domain_report_verdict libc_model sparse
           ["action: report"; "seq: x y z"; "garbage"; ""; "kbsec: 7"]%string
           "freepct: 12.5").
  - repeat constructor.
  - reflexivity.
  - reflexivity.
Defined.

Lemma parse_domain_report_version_witness :
  @parse_domain_report libc_model unversioned
  = (ReportMalformed, upd_cur (set_report_raw None) unversioned).
Proof.
  apply (@parse_domain_report_version libc_model unversioned report_unversioned).
  - reflexivity.
  - intros body. discriminate.
Defined.

(** ** Stage 1: accounting for a report *)

Lemma ticks_descend_rate (t a b : Z) (h : list rate_record) :
  ticks_descend (mk_rate_record t a :: h) -> ticks_descend (mk_rate_record t b :: h).
Proof.
  intros Hord i j ri rj Hij Hi Hj.
  destruct j as [|j]; [lia|]. cbn in Hj.
  destruct i as [|i].
  - cbn in Hi. injection Hi as <-.
    apply (Hord 0%nat (S j) (mk_rate_record t a) rj Hij eq_refl Hj).
  - cbn in Hi. apply (Hord (S i) (S j) ri rj Hij Hi Hj).
Qed.

(** What [account_report] makes of a record whose report has been parsed. *)
Lemma account_report_spec (g : globals) (dom : domain_info) :
  ticks_descend (mk_rate_record (sched_tick g) 0 :: rate_history dom) ->
  exists slow : Z,
    tick_rate g dom (rate dom) (freepct dom) <= slow
    /\ account_report g dom = Ok (
       mk_domain (domain_id dom) (addr dom) (xs dom) (xc dom) (act dom)
         (mk_sched (sched_tick g) 0
            (take 5 (mk_rate_record (sched_tick g)
                       (tick_rate g dom (rate dom) (freepct dom)) :: rate_history dom))
            (if slow <=? rate_low dom
             then time_rate_below_low dom + config.interval (cfg g) else 0)
            (if tick_rate g dom (rate dom) (freepct dom) <? rate_high dom
             then time_rate_below_high dom + config.interval (cfg g) else 0)
            (last_expand_tick dom) (preshrink dom) (preshrink_tick dom))
         (set_slow_rate slow
            (set_fast_rate (tick_rate g dom (rate dom) (freepct dom))
               (set_rate (tick_rate g dom (rate dom) (freepct dom)) (cur dom))))).
Proof.
  intros Hord. unfold account_report.
  set (r := tick_rate g dom (rate dom) (freepct dom)).
  set (d1 := upd_sched (set_last_report_tick (sched_tick g))
               (upd_sched (set_no_report_time 0) dom)).
  set (d2 := if negb (Qle_bool (freepct d1) (fmul (config.guest_free_threshold (cfg g)) 100))
             then upd_cur (set_rate 0) d1 else d1).
  set (d3 := if rate d2 <=? rate_zero d2 then upd_cur (set_rate 0) d2 else d2).
  assert (E3 : d3 = upd_cur (set_rate r) d1).
  { subst d3 d2 r. unfold tick_rate.
    change (freepct d1) with (freepct dom).
    destruct (negb (Qle_bool (freepct dom) _)).
    - cbn. destruct (0 <=? rate_zero dom); now destruct dom as [? ? ? ? ? ? []].
    - change (rate d1) with (rate dom). change (rate_zero d1) with (rate_zero dom).
      destruct (rate dom <=? rate_zero dom); now destruct dom as [? ? ? ? ? ? []]. }
  rewrite E3. unfold calc_rates.
  change (take nslow_weights
            (mk_rate_record (sched_tick g) (rate (upd_cur (set_rate r) d1))
             :: rate_history (upd_cur (set_rate r) d1)))
    with (mk_rate_record (sched_tick g) r :: take 4 (rate_history dom)).
  destruct (weight_samples_ok (mk_rate_record (sched_tick g) r)
              (take 4 (rate_history dom))) as (w & E & _).
  { apply (ticks_descend_take 5 (mk_rate_record (sched_tick g) r :: rate_history dom)).
    eapply ticks_descend_rate, Hord. }
  cbn [rate_history sched upd_sched set_rate_history upd_cur cur].
  rewrite E. cbn [obind]. clear E3 d3 d2 E Hord. subst d1. cbv zeta.
  generalize r. clear r. intros r.
  destruct dom as [i a xs0 xc0 [] [] []].
  lazy -[Z.max Z.le Z.leb Z.ltb Qtrunc Z.add config.interval sched_tick cfg].
  exists (Z.max r (Qtrunc w)).
  destruct (Z.max r (Qtrunc w) <=? _); destruct (r <? _);
    (split; [lia|reflexivity]).
Qed.

Section StageOne.
Context `{Libc}.

Lemma parse_domain_report_cur (dom dom1 : domain_info) (st : report_status) :
  parse_domain_report dom = (st, dom1) ->
  xcinfo dom1 = xcinfo dom /\ valid_data dom1 = valid_data dom
  /\ trimming_to_quota dom1 = trimming_to_quota dom
  /\ memsize dom1 = memsize dom /\ domain_id dom1 = domain_id dom.
Proof.
  unfold parse_domain_report. intros E.
  repeat case_match; simplify_eq; auto.
Qed.

(** X15: for a domain whose report is parsed and whose history is in
    order, stage 1 records the report at the current tick: [rate] and
    [fast_rate] are the reported rate, or 0 when the report says that the
    guest has more free memory than the global [guest_free_threshold] (its
    [freepct] is above the product of the threshold by 100, rounded as the
    multiplication of doubles rounds it) or that the rate is not above
    [rate_zero]; [slow_rate] is not below it; and each of the two counters
    of time at a low rate grows by the interval or is reset. *)
Theorem collect_report_accounting (g : globals) (dom dom1 : domain_info) :
  parse_domain_report dom = (ReportParsed, dom1) ->
  ticks_descend (mk_rate_record (sched_tick g) 0 :: rate_history dom) ->
  exists dom',
    collect_report g dom = Ok (Some dom')
    /\ rate dom' = tick_rate g dom (rate dom1) (freepct dom1)
    /\ fast_rate dom' = rate dom'
    /\ rate dom' <= slow_rate dom'
    /\ last_report_tick dom' = sched_tick g
    /\ no_report_time dom' = 0
    /\ time_rate_below_low dom' =
       (if slow_rate dom' <=? rate_low dom
        then time_rate_below_low dom + config.interval (cfg g) else 0)
    /\ time_rate_below_high dom' =
       (if rate dom' <? rate_high dom
        then time_rate_below_high dom + config.interval (cfg g) else 0).
Proof.
  intros Hparse Hord. unfold collect_report. rewrite Hparse.
  destruct (parse_domain_report_frame _ _ _ Hparse) as (Hs & Ha & _).
  destruct (account_report_spec g dom1) as (slow & Hslow & E).
  { change (rate_history dom1) with (rate_history (sched dom1)). now rewrite Hs. }
  rewrite E. cbn [obind]. eexists. split; [reflexivity|].
  assert (Et : tick_rate g dom1 (rate dom1) (freepct dom1)
               = tick_rate g dom (rate dom1) (freepct dom1)).
  { unfold tick_rate. change (rate_zero dom1) with (rate_zero (act dom1)).
    now rewrite Ha. }
  rewrite Et in *.
  change (rate_low dom1) with (rate_low (act dom1)).
  change (rate_high dom1) with (rate_high (act dom1)).
  change (time_rate_below_low dom1) with (time_rate_below_low (sched dom1)).
  change (time_rate_below_high dom1) with (time_rate_below_high (sched dom1)).
  rewrite Ha, Hs. cbn. repeat split; auto.
Qed.

Context `{Host}.

(** X16: in stage 1, a runnable domain whose report is parsed has valid
    data for the tick, with the tick as its [last_report_tick]; a domain
    that is not runnable has its report accounted for all the same, but
    its [valid_data] is left as it is.  (At the last tick before the tick
    counter wraps around the source does not set [valid_data].) *)
Theorem collect_domain_fresh_report (g : globals) (dom dom1 : domain_info) (x : xen) :
  parse_domain_report dom = (ReportParsed, dom1) ->
  ticks_descend (mk_rate_record (sched_tick g) 0 :: rate_history dom) ->
  0 <= sched_tick g < ULONG_MOD - 1 ->
  exists dom',
    collect_domain g dom x = Ok (Collected dom' x 0)
    /\ last_report_tick dom' = sched_tick g
    /\ valid_data dom' = (runnable dom || valid_data dom).
Proof.
  intros Hparse Hord Htick. unfold collect_domain. rewrite Hparse.
  destruct (parse_domain_report_frame _ _ _ Hparse) as (Hs & _).
  destruct (parse_domain_report_cur _ _ _ Hparse) as (Hx & Hv & _).
  destruct (account_report_spec g dom1) as (slow & Hslow & E).
  { change (rate_history dom1) with (rate_history (sched dom1)). now rewrite Hs. }
  rewrite E. cbn [obind]. eexists. split; [reflexivity|].
  unfold participate, runnable. cbn [xcinfo cur set_slow_rate set_fast_rate set_rate
    last_report_tick sched].
  change (xcinfo (cur dom1)) with (xcinfo dom1). rewrite Hx.
  assert (Ew : (sched_tick g >? to_ulong (sched_tick g + 1)) = false).
  { unfold to_ulong. rewrite Z.mod_small by lia.
    destruct (Z.gtb_spec (sched_tick g) (sched_tick g + 1)); [lia|reflexivity]. }
  rewrite Ew.
  destruct (negb (Z.land (flags (xcinfo dom)) _ =? 0)); cbn; auto.
Qed.

(** X17: in stage 1, a runnable domain from which no report has come has
    the interval added to its [no_report_time] and keeps its rate data.
    Then either it is trimmed to its quota for being unresponsive (only
    when [trim_unresponsive] is positive and exceeded and the scheduler is
    not paused), and has no valid data for the tick; or it has valid data
    exactly when its last report is not older than the tick before. *)
Theorem collect_domain_missed_report (g : globals) (dom : domain_info) (x : xen) :
  report_raw dom = None ->
  runnable dom = true ->
  valid_data dom = false ->
  trimming_to_quota dom = false ->
  exists dom' x' freeing,
    collect_domain g dom x = Ok (Collected dom' x' freeing)
    /\ no_report_time dom' = no_report_time dom + config.interval (cfg g)
    /\ rate dom' = rate dom /\ fast_rate dom' = fast_rate dom
    /\ slow_rate dom' = slow_rate dom /\ rate_history dom' = rate_history dom
    /\ last_report_tick dom' = last_report_tick dom
    /\ ((trimming_to_quota dom' = true /\ valid_data dom' = false
         /\ memsize dom' = dmem_quota dom /\ memsize0 dom' = dmem_quota dom
         /\ memgoal0 dom' = dmem_quota dom
         /\ freeing = Z.max 0 (memsize dom - dmem_quota dom)
         /\ 0 < trim_unresponsive dom
            < no_report_time dom + config.interval (cfg g)
         /\ memsched_pause_level g = 0)
        \/ (trimming_to_quota dom' = false /\ memsize dom' = memsize dom
            /\ freeing = 0
            /\ (valid_data dom' = true <->
                sched_tick g <= to_ulong (last_report_tick dom + 1)))).
Proof.
  intros Hraw Hrun Hval Htrim. unfold collect_domain, parse_domain_report.
  rewrite Hraw. unfold without_report. rewrite Hrun. cbv zeta.
  set (dom1 := upd_sched (set_no_report_time
                            (no_report_time dom + config.interval (cfg g))) dom).
  assert (Hp : forall x' : xen, exists dom',
             Collected (participate g dom1) x' 0 = Collected dom' x' 0
             /\ no_report_time dom' = no_report_time dom + config.interval (cfg g)
             /\ rate dom' = rate dom /\ fast_rate dom' = fast_rate dom
             /\ slow_rate dom' = slow_rate dom /\ rate_history dom' = rate_history dom
             /\ last_report_tick dom' = last_report_tick dom
             /\ trimming_to_quota dom' = false /\ memsize dom' = memsize dom
             /\ (valid_data dom' = true <->
                 sched_tick g <= to_ulong (last_report_tick dom + 1))).
  { intros x'. eexists. split; [reflexivity|].
    unfold participate. change (runnable dom1) with (runnable dom). rewrite Hrun.
    cbn [negb]. change (last_report_tick dom1) with (last_report_tick dom).
    destruct (Z.gtb_spec (sched_tick g) (to_ulong (last_report_tick dom + 1)));
      cbn; repeat split; auto; try lia; try congruence. }
  assert (Hno : forall x' : xen, exists dom' x'' freeing,
             Ok (Collected (participate g dom1) x' 0)
               = Ok (Collected dom' x'' freeing)
             /\ no_report_time dom' = no_report_time dom + config.interval (cfg g)
             /\ rate dom' = rate dom /\ fast_rate dom' = fast_rate dom
             /\ slow_rate dom' = slow_rate dom /\ rate_history dom' = rate_history dom
             /\ last_report_tick dom' = last_report_tick dom
             /\ ((trimming_to_quota dom' = true /\ valid_data dom' = false
                  /\ memsize dom' = dmem_quota dom /\ memsize0 dom' = dmem_quota dom
                  /\ memgoal0 dom' = dmem_quota dom
                  /\ freeing = Z.max 0 (memsize dom - dmem_quota dom)
                  /\ 0 < trim_unresponsive dom
                     < no_report_time dom + config.interval (cfg g)
                  /\ memsched_pause_level g = 0)
                 \/ (trimming_to_quota dom' = false /\ memsize dom' = memsize dom
                     /\ freeing = 0
                     /\ (valid_data dom' = true <->
                         sched_tick g <= to_ulong (last_report_tick dom + 1))))).
  { intros x'. destruct (Hp x') as (dom' & E & A & B & C & D & F & G & I & J & K).
    exists dom', x', 0. rewrite E. split; [reflexivity|].
    repeat (split; [assumption|]). right. auto. }
  destruct ((trim_unresponsive dom1 >? 0) && (no_report_time dom1 >? trim_unresponsive dom1)
            && (memsched_pause_level g =? 0)) eqn:Hcond; [|apply Hno].
  destruct (trim_to_quota g dom1 x) as [[|] x'] eqn:Etrim; [|apply Hno].
  apply andb_true_iff in Hcond as [Hcond Hpause].
  apply andb_true_iff in Hcond as [Hpos Hover].
  apply Z.gtb_lt in Hpos, Hover. apply Z.eqb_eq in Hpause.
  eexists _, x', _. split; [reflexivity|].
  cbn. repeat (split; [reflexivity|]). left.
  repeat split; auto; try (cbn in Hpos, Hover; lia).
Qed.


End StageOne.

Lemma collect_report_accounting_witness :
  exists dom',
    @collect_report libc_model (sample_globals default_config 0 [sparse]) sparse = Ok (Some dom')
    /\ rate dom' = tick_rate (sample_globals default_config 0 [sparse]) sparse 7 (125 # 10)
    /\ fast_rate dom' = rate dom'
    /\ rate dom' <= slow_rate dom'
    /\ last_report_tick dom' = 1000
    /\ no_report_time dom' = 0
    /\ time_rate_below_low dom' = (if slow_rate dom' <=? 0 then 0 + 5 else 0)
    /\ time_rate_below_high dom' = (if rate dom' <? 200 then 0 + 5 else 0).
Proof.
  apply (@collect_report_accounting libc_model (sample_globals default_config 0 [sparse]) sparse
           (upd_cur (set_report_raw None)
              (upd_cur (set_freepct (125 # 10)) (upd_cur (set_rate 7) sparse)))).
  - reflexivity.
  - intros i j ri rj Hij Hi Hj. destruct j as [|[|j]]; try lia; discriminate.
Defined.

Lemma collect_domain_fresh_report_witness :
  exists dom',
    @collect_domain libc_model still_host (sample_globals default_config 0 [sparse]) sparse tt
      = Ok (Collected dom' tt 0)
    /\ last_report_tick dom' = 1000
    /\ valid_data dom' = (runnable sparse || valid_data sparse).
Proof.
  apply (@collect_domain_fresh_report libc_model still_host
           (sample_globals default_config 0 [sparse]) sparse
           (upd_cur (set_report_raw None)
              (upd_cur (set_freepct (125 # 10)) (upd_cur (set_rate 7) sparse))) tt).
  - reflexivity.
  - intros i j ri rj Hij Hi Hj. destruct j as [|[|j]]; try lia; discriminate.
  - vm_compute. split; [discriminate|reflexivity].
Defined.

Lemma collect_domain_missed_report_witness :
  exists dom' x' freeing,
    @collect_domain libc_model still_host (sample_globals default_config 0 [silent]) silent tt
      = Ok (Collected dom' x' freeing)
    /\ no_report_time dom' = 5 + 5
    /\ rate dom' = rate silent /\ fast_rate dom' = fast_rate silent
    /\ slow_rate dom' = slow_rate silent /\ rate_history dom' = rate_history silent
    /\ last_report_tick dom' = 998
    /\ ((trimming_to_quota dom' = true /\ valid_data dom' = false
         /\ memsize dom' = 2000 /\ memsize0 dom' = 2000 /\ memgoal0 dom' = 2000
         /\ freeing = Z.max 0 (memsize silent - 2000)
         /\ 0 < 200 < 5 + 5
         /\ memsched_pause_level (sample_globals default_config 0 [silent]) = 0)
        \/ (trimming_to_quota dom' = false /\ memsize dom' = memsize silent
            /\ freeing = 0
            /\ (valid_data dom' = true <-> 1000 <= to_ulong (998 + 1)))).
Proof.
  apply (@collect_domain_missed_report libc_model still_host
           (sample_globals default_config 0 [silent]) silent tt); reflexivity.
Defined.


(** ** Per-tick size margins *)

Lemma roundup_mono (a b r : Z) : 0 < r -> a <= b -> roundup a r <= roundup b r.
Proof.
  intros Hr Hab. unfold roundup.
  apply Z.mul_le_mono_nonneg_r; [lia|]. apply Z.quot_le_mono; lia.
Qed.

Lemma Qtrunc_scale_up (m : Z) (k : Q) :
  0 <= m -> (0 <= k)%Q -> m <= Qtrunc (inject_Z m * (1 + k))%Q.
Proof.
  intros Hm Hk. apply Qtrunc_ge.
  assert (0 <= inject_Z m)%Q by (rewrite (Zle_Qle 0 m) in Hm; exact Hm).
  nra.
Qed.

Lemma Qtrunc_scale_down (m : Z) (k : Q) :
  0 <= m -> (0 <= k)%Q -> Qtrunc (inject_Z m * (1 - k))%Q <= m.
Proof.
  intros Hm Hk. apply Qtrunc_le.
  assert (0 <= inject_Z m)%Q by (rewrite (Zle_Qle 0 m) in Hm; exact Hm).
  nra.
Qed.

Lemma eval_incr_bounds (g : globals) (dom : domain_info) :
  0 < memquant_kbs g -> dmem_min dom <= dmem_max dom ->
  0 <= memsize0 dom -> (0 <= dmem_incr dom)%Q ->
  dmem_min dom <= eval_incr g dom <= dmem_max dom
  /\ Z.min (dmem_max dom) (Z.max (dmem_min dom) (roundup (memsize0 dom) (memquant_kbs g)))
     <= eval_incr g dom.
Proof.
  intros Hq Hmm Hm Hk. unfold eval_incr. cbv zeta.
  pose proof (Qtrunc_scale_up (memsize0 dom) (dmem_incr dom) Hm Hk) as Hup.
  pose proof (roundup_mono _ _ (memquant_kbs g) Hq Hup). lia.
Qed.

Lemma eval_decr_bounds (g : globals) (dom : domain_info) :
  0 < memquant_kbs g -> dmem_min dom <= dmem_max dom ->
  0 <= memsize0 dom -> (0 <= dmem_decr dom)%Q ->
  dmem_min dom <= eval_decr g dom <= dmem_max dom
  /\ eval_decr g dom
     <= Z.min (dmem_max dom) (Z.max (dmem_min dom) (roundup (memsize0 dom) (memquant_kbs g))).
Proof.
  intros Hq Hmm Hm Hk. unfold eval_decr. cbv zeta.
  pose proof (Qtrunc_scale_down (memsize0 dom) (dmem_decr dom) Hm Hk) as Hdown.
  pose proof (roundup_mono _ _ (memquant_kbs g) Hq Hdown).
  destruct (negb (preshrink dom =? 0) && _); [|lia].
  set (m1 := roundup (Qtrunc _) _) in *.
  set (decr := Z.max (memsize0 dom - Z.min (dmem_max dom) (Z.max (dmem_min dom) m1)
                      - preshrink dom) 0).
  assert (Hd : memsize0 dom - decr <= memsize0 dom) by lia.
  pose proof (roundup_mono _ _ (memquant_kbs g) Hq Hd). lia.
Qed.

(** X19: [record_memory_info] ends in [fatal_msg] exactly when the size it
    computes for the domain is negative.  Otherwise, with a positive
    quantum, [dmem_min <= dmem_max] and non-negative [dmem_incr] and
    [dmem_decr], the margins it records are ordered and stay within the
    limits of the domain: [dmem_min <= memsize_decr <= memsize_incr <=
    dmem_max]; a size that is not above [dmem_max] is not above
    [memsize_incr]; and for a size that is not below [dmem_min],
    [memsize_decr] is below the size plus one quantum. *)
Theorem record_memory_info_margins (g : globals) (info : xc_domaininfo_t) (dom : domain_info) :
  0 < memquant_kbs g ->
  dmem_min dom <= dmem_max dom ->
  (0 <= dmem_incr dom)%Q ->
  (0 <= dmem_decr dom)%Q ->
  let size := to_long (pagesize_kbs g * tot_pages info - xen_data_size dom) in
  (size < 0 -> record_memory_info g info dom = Fatal "bug: memsize < 0")
  /\ (0 <= size ->
      exists dom',
        record_memory_info g info dom = Ok dom'
        /\ memsize dom' = size /\ memsize0 dom' = size
        /\ valid_memory_data dom' = true
        /\ dmem_min dom <= memsize_decr dom' <= memsize_incr dom'
        /\ memsize_incr dom' <= dmem_max dom
        /\ (size <= dmem_max dom -> size <= memsize_incr dom')
        /\ (dmem_min dom <= size -> memsize_decr dom' < size + memquant_kbs g)).
Proof.
  intros Hq Hmm Hi Hd size. unfold record_memory_info. cbv zeta.
  set (d2 := upd_cur (set_memsize0 _) _).
  assert (Es : memsize d2 = size) by reflexivity. rewrite Es. split.
  - intros Hneg. apply Z.ltb_lt in Hneg. now rewrite Hneg.
  - intros Hpos. destruct (Z.ltb_spec size 0) as [|_]; [lia|].
    set (d3 := upd_cur (set_memgoal0 _) d2).
    set (d4 := upd_cur (set_memsize_incr (eval_incr g d3)) d3).
    eexists. split; [reflexivity|].
    destruct (eval_decr_bounds g d4 Hq Hmm Hpos Hd) as (Hd1 & Hd2).
    destruct (eval_incr_bounds g d3 Hq Hmm Hpos Hi) as (Hi1 & Hi2).
    change (memsize0 d4) with size in Hd2. change (memsize0 d3) with size in Hi2.
    change (dmem_max d4) with (dmem_max dom) in *.
    change (dmem_min d4) with (dmem_min dom) in *.
    change (dmem_max d3) with (dmem_max dom) in *.
    change (dmem_min d3) with (dmem_min dom) in *.
    destruct (roundup_spec size (memquant_kbs g) Hpos Hq) as (_ & Hr).
    change (memsize_decr (upd_cur (set_valid_memory_data true)
                            (upd_cur (set_memsize_decr (eval_decr g d4)) d4)))
      with (eval_decr g d4).
    change (memsize_incr (upd_cur (set_valid_memory_data true)
                            (upd_cur (set_memsize_decr (eval_decr g d4)) d4)))
      with (eval_incr g d3).
    repeat split; try reflexivity; try lia.
Qed.

Lemma record_memory_info_margins_witness :
  let g := sample_globals default_config 0 [] in
  let info := mk_xcinfo XEN_DOMINF_running 375 0 in
  let size := to_long (pagesize_kbs g * tot_pages info - xen_data_size was_idle) in
  (size < 0 -> record_memory_info g info was_idle = Fatal "bug: memsize < 0")
  /\ (0 <= size ->
      exists dom',
        record_memory_info g info was_idle = Ok dom'
        /\ memsize dom' = size /\ memsize0 dom' = size
        /\ valid_memory_data dom' = true
        /\ dmem_min was_idle <= memsize_decr dom' <= memsize_incr dom'
        /\ memsize_incr dom' <= dmem_max was_idle
        /\ (size <= dmem_max was_idle -> size <= memsize_incr dom')
        /\ (dmem_min was_idle <= size -> memsize_decr dom' < size + memquant_kbs g)).
Proof.
  apply (record_memory_info_margins (sample_globals default_config 0 [])
           (mk_xcinfo XEN_DOMINF_running 375 0) was_idle).
  - reflexivity.
  - simpl. lia.
  - unfold Qle. simpl. lia.
  - unfold Qle. simpl. lia.
Defined.

(** ** Stage 2: what the hard reserve takes *)

Lemma trimmed_from_upd (a : Z) (f : domain_info -> domain_info) (goal : Z) (g : globals) :
  (forall d, memsize (f d) = memsize d) ->
  trimmed_from g goal (goal, upd_dom a f g).
Proof.
  intros Hf. unfold trimmed_from. cbn [fst snd]. split; [|split; [|intros; lia]].
  - rewrite total_memsize_upd_dom. destruct (managed g !! a); [rewrite Hf|]; lia.
  - exists (alter f a (managed g)). split; [reflexivity|apply dom_alter_L].
Qed.

Lemma trimmed_from_fold (step : globals -> Z -> globals) (goal : Z) :
  (forall g a, trimmed_from g goal (goal, step g a)) ->
  forall (vec : list Z) (g : globals), trimmed_from g goal (goal, fold_left step vec g).
Proof.
  intros Hstep. induction vec as [|a vec IH]; intros g; [apply trimmed_from_refl|].
  cbn [fold_left]. eapply trimmed_from_trans; [apply (Hstep g a)|]. apply IH.
Qed.

Lemma trimmed_from_dom (g : globals) (goal : Z) (r : Z * globals) :
  trimmed_from g goal r -> dom (managed (snd r)) = dom (managed g).
Proof. intros (_ & (m' & E & D) & _). now rewrite E. Qed.

Lemma slice_pass_trimmed (floor : domain_info -> Z) :
  forall (vec : list Z) (goal : Z) (g : globals),
    (forall x, x ∈ vec -> x ∈ dom (managed g)) ->
    trimmed_from g goal (snd (fst (slice_pass floor vec goal g)), snd (slice_pass floor vec goal g))
    /\ forall x, x ∈ fst (fst (slice_pass floor vec goal g)) -> x ∈ vec.
Proof.
  induction vec as [|a vec IH]; intros goal g Hin;
    [split; [apply trimmed_from_refl|auto]|].
  cbn [slice_pass]. cbv zeta.
  assert (Hin' : forall x, x ∈ vec -> x ∈ dom (managed g)).
  { intros x Hx. apply Hin. now apply list_elem_of_further. }
  set (fl := Z.max (eval_more_decr g (deref g a)) (floor (deref g a))).
  destruct (Z.gtb_spec (memsize (deref g a) - fl) 0) as [Htrim|Htrim].
  - set (t := Z.min (memsize (deref g a) - fl) goal).
    set (g1 := upd_dom a (upd_cur (set_memsize (memsize (deref g a) - t))) g).
    assert (H1 : trimmed_from g goal (goal - t, g1)).
    { unfold trimmed_from. cbn [fst snd]. split.
      - subst g1. rewrite total_memsize_upd_dom.
        rewrite (deref_dom g a) by (apply Hin, list_elem_of_here). cbn. lia.
      - split; [|subst t; intros; lia].
        exists (alter (upd_cur (set_memsize (memsize (deref g a) - t))) a (managed g)).
        split; [reflexivity|apply dom_alter_L]. }
    destruct (goal - t <=? 0); cbn [fst snd]; [split; [exact H1|auto]|].
    destruct (IH (goal - t) g1) as (H2 & Hsub).
    { intros x Hx. subst g1. rewrite dom_upd_dom. now apply Hin'. }
    destruct (slice_pass floor vec (goal - t) g1) as [[rest goal2] g2]. cbn [fst snd] in *.
    assert (H12 : trimmed_from g goal (goal2, g2)).
    { eapply trimmed_from_trans; [exact H1|exact H2]. }
    destruct (_ <=? _); cbn [fst snd]; (split; [exact H12|]).
    + intros x Hx. apply list_elem_of_further. auto.
    + intros x Hx. apply elem_of_cons in Hx as [->|Hx];
        [apply list_elem_of_here|apply list_elem_of_further; auto].
  - destruct (IH goal g Hin') as (H2 & Hsub).
    destruct (slice_pass floor vec goal g) as [[rest goal2] g2]. cbn [fst snd] in *.
    destruct (_ <=? _); cbn [fst snd]; (split; [exact H2|]).
    + intros x Hx. apply list_elem_of_further. auto.
    + intros x Hx. apply elem_of_cons in Hx as [->|Hx];
        [apply list_elem_of_here|apply list_elem_of_further; auto].
Qed.

Lemma eval_resist_force_memsize (ctx : eval_force_context) (d : domain_info) :
  memsize (eval_resist_force ctx d) = memsize d.
Proof. unfold eval_resist_force. repeat case_match; reflexivity. Qed.

Lemma slice_loop_trimmed (floor : domain_info -> Z) :
  forall (fuel : nat) (vec : list Z) (goal : Z) (g : globals),
    (forall x, x ∈ vec -> x ∈ dom (managed g)) ->
    trimmed_from g goal (snd (slice_loop fuel floor vec goal g)).
Proof.
  induction fuel as [|fuel IH]; intros vec goal g Hin; [apply trimmed_from_refl|].
  cbn [slice_loop]. destruct (_ && _); [|apply trimmed_from_refl]. cbv zeta.
  set (ctx := eval_resist_force_context g vec).
  set (g1 := fold_left (fun g id => upd_dom id (eval_resist_force ctx) g) vec g).
  assert (H1 : trimmed_from g goal (goal, g1)).
  { apply trimmed_from_fold. intros g0 a. apply trimmed_from_upd.
    apply eval_resist_force_memsize. }
  set (vec1 := sort_by g1 sortfunc_asc_by_resist_force vec).
  assert (Hin1 : forall x, x ∈ vec1 -> x ∈ dom (managed g1)).
  { intros x Hx. apply elem_of_sort_by in Hx.
    pose proof (trimmed_from_dom _ _ _ H1) as D1. cbn [snd] in D1. rewrite D1. auto. }
  destruct (slice_pass_trimmed floor vec1 goal g1 Hin1) as (H2 & Hsub).
  destruct (slice_pass floor vec1 goal g1) as [[vec2 goal2] g2]. cbn [fst snd] in *.
  eapply trimmed_from_trans; [exact H1|]. cbn [fst snd].
  eapply trimmed_from_trans; [exact H2|]. cbn [fst snd].
  apply IH. intros x Hx.
  pose proof (trimmed_from_dom _ _ _ H2) as D2. cbn [snd] in D2. rewrite D2. auto.
Qed.

Lemma set_rates_memsize (v : Z) (d : domain_info) : memsize (set_rates v d) = memsize d.
Proof. reflexivity. Qed.

Lemma hard_reclaim_rounds_trimmed (goal : Z) (g : globals) :
  trimmed_from g goal (hard_reclaim_round_1 goal g)
  /\ trimmed_from g goal (hard_reclaim_round_2 goal g)
  /\ trimmed_from g goal (hard_reclaim_round_3 goal g).
Proof.
  split; [|split]; apply soft_round_trimmed; soft_round_ids.
Qed.

Lemma hard_reclaim_round_4_trimmed (fuel : nat) (goal : Z) (g : globals) :
  trimmed_from g goal (snd (hard_reclaim_round_4 fuel goal g)).
Proof.
  unfold hard_reclaim_round_4. destruct (goal <=? 0); [apply trimmed_from_refl|].
  cbv zeta. set (vec := filter _ (managed_ids g)).
  set (g1 := fold_left _ vec g).
  assert (H1 : trimmed_from g goal (goal, g1)).
  { apply trimmed_from_fold. intros g0 a.
    destruct (negb _); [|apply trimmed_from_refl].
    apply trimmed_from_upd. intros d. apply set_rates_memsize. }
  eapply trimmed_from_trans; [exact H1|]. cbn [fst snd].
  apply slice_loop_trimmed. intros x Hx.
  pose proof (trimmed_from_dom _ _ _ H1) as D1. cbn [snd] in D1. rewrite D1.
  apply list_elem_of_filter in Hx as [_ Hx]. now apply managed_ids_dom.
Qed.

Section HardReserve.
Context `{Host}.

Lemma hard_reclaim_round_5_trimmed (fuel : nat) (goal : Z) (x : xen) (g : globals) :
  trimmed_from g goal (snd (hard_reclaim_round_5 fuel goal x g)).
Proof.
  unfold hard_reclaim_round_5. destruct (goal <=? 0); [apply trimmed_from_refl|].
  cbv zeta. set (vec := filter _ (managed_ids g)).
  set (g1 := fold_left _ vec g).
  assert (H1 : trimmed_from g goal (goal, g1)).
  { apply trimmed_from_fold. intros g0 a.
    destruct (negb (valid_data _)); [|apply trimmed_from_refl].
    destruct (_ && _); apply trimmed_from_upd; intros d; apply set_rates_memsize. }
  eapply trimmed_from_trans; [exact H1|]. cbn [fst snd].
  apply slice_loop_trimmed. intros y Hy.
  pose proof (trimmed_from_dom _ _ _ H1) as D1. cbn [snd] in D1. rewrite D1.
  apply list_elem_of_filter in Hy as [_ Hy]. now apply managed_ids_dom.
Qed.

(** [hard_reclaim] returns what it has taken from the domains, which is
    not negative and not more than the goal rounded up to the quantum. *)
Lemma hard_reclaim_account (fuel : nat) (goal : Z) (x : xen) (g : globals) :
  trimmed_from g (roundup goal (memquant_kbs g))
    (roundup goal (memquant_kbs g) - fst (snd (hard_reclaim fuel goal x g)),
     snd (snd (hard_reclaim fuel goal x g))).
Proof.
  unfold hard_reclaim. cbv zeta. set (req := roundup goal (memquant_kbs g)).
  destruct (hard_reclaim_rounds_trimmed req g) as (H1 & _ & _).
  destruct (hard_reclaim_round_1 req g) as [goal1 g1].
  destruct (hard_reclaim_rounds_trimmed goal1 g1) as (_ & H2 & _).
  destruct (hard_reclaim_round_2 goal1 g1) as [goal2 g2].
  destruct (hard_reclaim_rounds_trimmed goal2 g2) as (_ & _ & H3).
  destruct (hard_reclaim_round_3 goal2 g2) as [goal3 g3].
  pose proof (hard_reclaim_round_4_trimmed fuel goal3 g3) as H4.
  destruct (hard_reclaim_round_4 fuel goal3 g3) as [st4 [goal4 g4]].
  pose proof (trimmed_from_trans _ _ _ _
                (trimmed_from_trans _ _ _ _ (trimmed_from_trans _ _ _ _ H1 H2) H3) H4) as H14.
  cbn [fst snd] in *.
  assert (Hstop : trimmed_from g req (req - (req - goal4), g4)).
  { replace (req - (req - goal4)) with goal4 by lia. exact H14. }
  destruct st4; cbn [fst snd]; try exact Hstop.
  pose proof (hard_reclaim_round_5_trimmed fuel goal4 x g4) as H5.
  destruct (hard_reclaim_round_5 fuel goal4 x g4) as [st5 [goal5 g5]].
  cbn [fst snd] in *.
  replace (req - (req - goal5)) with goal5 by lia.
  eapply trimmed_from_trans; [exact H14|exact H5].
Qed.

End HardReserve.

Section HardReserveAccount.
Context `{Host}.

(** X20: the hard-reserve stage (stage 2) neither creates nor loses
    memory: what it adds to the free memory of the host is what it takes
    from the scheduled sizes of the managed domains, and it manages the
    same domains after as before, wherever its loops stop. *)
Theorem hard_reserve_conserves_memory (fuel : nat) (x : xen) (g : globals) :
  total_memory (snd (sched_reserved_hard fuel x g)) = total_memory g
  /\ dom (managed (snd (sched_reserved_hard fuel x g))) = dom (managed g).
Proof.
  unfold sched_reserved_hard. destruct (_ <? _); [|auto]. cbv zeta.
  destruct (hard_reclaim_account fuel (config.host_reserved_hard (cfg g) - host_free g) x g)
    as (A & (m' & E & D) & _).
  destruct (hard_reclaim fuel _ x g) as [st [reclaimed g1]]. cbn [fst snd] in *.
  unfold total_memory. rewrite E in *. cbn [host_free managed set_host_free set_managed].
  split; [|exact D].
  unfold total_memsize in *. cbn [managed set_host_free set_managed] in *. lia.
Qed.

(** X21: with a positive allocation quantum, the hard-reserve stage does
    nothing when the free memory is not below [host_reserved_hard];
    otherwise it does not lower the free memory, and raises it to less than
    one quantum above the reserve. *)
Theorem hard_reserve_reclaim_bounds (fuel : nat) (x : xen) (g : globals) :
  0 < memquant_kbs g ->
  (config.host_reserved_hard (cfg g) <= host_free g ->
   sched_reserved_hard fuel x g = (Finished, g))
  /\ (host_free g < config.host_reserved_hard (cfg g) ->
      host_free g <= host_free (snd (sched_reserved_hard fuel x g))
                  < config.host_reserved_hard (cfg g) + memquant_kbs g).
Proof.
  intros Hq. unfold sched_reserved_hard.
  destruct (Z.ltb_spec (host_free g) (config.host_reserved_hard (cfg g))) as [Hlt|Hge].
  - split; [lia|]. intros _. cbv zeta.
    destruct (hard_reclaim_account fuel (config.host_reserved_hard (cfg g) - host_free g) x g)
      as (_ & (m' & E & _) & B).
    destruct (hard_reclaim fuel _ x g) as [st [reclaimed g1]]. cbn [fst snd] in *.
    rewrite E. cbn [host_free set_host_free set_managed].
    pose proof (roundup_spec (config.host_reserved_hard (cfg g) - host_free g)
                  (memquant_kbs g)). lia.
  - split; [reflexivity|lia].
Qed.

End HardReserveAccount.

(** ** Stage 2: what the hard reserve does to one domain *)

Lemma reclaim_frame_refl (d : domain_info) : reclaim_frame d d.
Proof. now destruct d as [? ? ? ? ? ? []]. Qed.

Lemma reclaim_frame_trans (d0 d1 d2 : domain_info) :
  reclaim_frame d0 d1 -> reclaim_frame d1 d2 -> reclaim_frame d0 d2.
Proof.
  unfold reclaim_frame. intros E1 E2. rewrite E2. rewrite E1 at 1.
  destruct d0 as [? ? ? ? ? ? []]. reflexivity.
Qed.

Lemma reclaim_frame_memsize (v : Z) (d : domain_info) :
  reclaim_frame d (upd_cur (set_memsize v) d).
Proof. now destruct d as [? ? ? ? ? ? []]. Qed.

Lemma reclaim_frame_set_rates (v : Z) (d : domain_info) : reclaim_frame d (set_rates v d).
Proof. now destruct d as [? ? ? ? ? ? []]. Qed.

Lemma reclaim_frame_resist_force (ctx : eval_force_context) (d : domain_info) :
  reclaim_frame d (eval_resist_force ctx d).
Proof.
  unfold eval_resist_force. destruct d as [? ? ? ? ? ? []].
  repeat case_match; reflexivity.
Qed.

(** What the frame leaves alone. *)
Lemma reclaim_frame_fields (d0 d : domain_info) :
  reclaim_frame d0 d ->
  act d = act d0 /\ sched d = sched d0 /\ xc d = xc d0 /\ xs d = xs d0
  /\ memsize_incr d = memsize_incr d0 /\ memsize_decr d = memsize_decr d0
  /\ valid_data d = valid_data d0 /\ runnable d = runnable d0
  /\ trimming_to_quota d = trimming_to_quota d0.
Proof. intros ->. now destruct d0 as [? ? ? ? ? ? []]. Qed.

Lemma slice_pass_sub (floor : domain_info -> Z) :
  forall (vec : list Z) (goal : Z) (g : globals) (x : Z),
    x ∈ fst (fst (slice_pass floor vec goal g)) -> x ∈ vec.
Proof.
  induction vec as [|a vec IH]; intros goal g x; [auto|].
  cbn [slice_pass]. cbv zeta.
  destruct (_ >? 0).
  - destruct (_ <=? 0); cbn [fst snd]; [auto|].
    specialize (IH (goal - Z.min (memsize (deref g a) -
                      Z.max (eval_more_decr g (deref g a)) (floor (deref g a))) goal)
                   (upd_dom a (upd_cur (set_memsize (memsize (deref g a) -
                      Z.min (memsize (deref g a) -
                      Z.max (eval_more_decr g (deref g a)) (floor (deref g a))) goal))) g) x).
    destruct (slice_pass floor vec _ _) as [[rest goal2] g2]. cbn [fst snd] in *.
    destruct (_ <=? _); cbn [fst snd]; intros Hx.
    + apply list_elem_of_further. auto.
    + apply elem_of_cons in Hx as [->|Hx];
        [apply list_elem_of_here|apply list_elem_of_further; auto].
  - specialize (IH goal g x).
    destruct (slice_pass floor vec goal g) as [[rest goal2] g2]. cbn [fst snd] in *.
    destruct (_ <=? _); cbn [fst snd]; intros Hx.
    + apply list_elem_of_further. auto.
    + apply elem_of_cons in Hx as [->|Hx];
        [apply list_elem_of_here|apply list_elem_of_further; auto].
Qed.

Lemma tracked_fold_in (R : domain_info -> Prop) (id : Z) (step : globals -> Z -> globals)
    (vec : list Z) :
  (forall g a, a ∈ vec -> tracked R id g -> tracked R id (step g a)) ->
  forall g : globals, tracked R id g -> tracked R id (fold_left step vec g).
Proof.
  induction vec as [|a vec IH]; intros Hstep g Hk; [exact Hk|].
  cbn [fold_left]. apply IH.
  - intros g0 b Hb. apply Hstep. now apply list_elem_of_further.
  - apply Hstep; [apply list_elem_of_here|exact Hk].
Qed.

Section HardReclaimed.

(** [id] is a handle and [d0] the record it stood for when the stage was
    entered. *)
Variables (id : Z) (d0 : domain_info).

Local Abbreviation low :=
  (Z.min (memsize_decr d0) (Z.min (dmem_quota d0) (dmem_min d0))).

Local Abbreviation reclaims := (tracked (hard_reclaimed d0) id).

Lemma hard_reclaimed_frame (f : domain_info -> domain_info) (d : domain_info) :
  reclaim_frame d (f d) -> memsize (f d) = memsize d -> runnable d0 = true ->
  hard_reclaimed d0 d -> hard_reclaimed d0 (f d).
Proof.
  intros Hf Hm Hr (F & B & _). split; [eapply reclaim_frame_trans; eauto|].
  split; [rewrite Hm; exact B|now left].
Qed.

Lemma hard_reclaimed_shrink (v : Z) (d : domain_info) :
  runnable d0 = true -> low <= v <= memsize d ->
  hard_reclaimed d0 d -> hard_reclaimed d0 (upd_cur (set_memsize v) d).
Proof.
  intros Hr Hv (F & B & _). split.
  - eapply reclaim_frame_trans; [exact F|apply reclaim_frame_memsize].
  - split; [|now left]. change (memsize (upd_cur (set_memsize v) d)) with v. lia.
Qed.

Lemma hard_reclaimed_runnable (g : globals) :
  reclaims g -> runnable (deref g id) = true -> runnable d0 = true.
Proof.
  intros (d & Hd & F & _) Hr. rewrite (deref_lookup g id d Hd) in Hr.
  destruct (reclaim_frame_fields _ _ F) as (_ & _ & _ & _ & _ & _ & _ & E & _).
  now rewrite <- E.
Qed.

Lemma trim_loop_reclaimed (floor : domain_info -> Z) :
  (forall d, reclaim_frame d0 d -> low <= floor d) ->
  forall (vec : list Z) (goal : Z) (g : globals),
    0 <= goal ->
    (id ∈ vec -> runnable d0 = true) ->
    reclaims g ->
    reclaims (snd (trim_loop floor vec goal g)).
Proof.
  intros Hfloor. induction vec as [|a vec IH]; intros goal g Hgoal Hin Hk; [exact Hk|].
  cbn [trim_loop].
  assert (Hin' : id ∈ vec -> runnable d0 = true).
  { intros Hx. apply Hin. now apply list_elem_of_further. }
  destruct (Z.gtb_spec (memsize (deref g a) - floor (deref g a)) 0) as [Htrim|Htrim];
    [|now apply IH].
  set (t := Z.min (memsize (deref g a) - floor (deref g a)) goal).
  assert (Hk1 : reclaims (upd_dom a (upd_cur (set_memsize (memsize (deref g a) - t))) g)).
  { apply tracked_upd; [exact Hk|]. intros -> d Hd HR.
    subst t. rewrite (deref_lookup g id d Hd) in *.
    apply hard_reclaimed_shrink; [apply Hin, list_elem_of_here| |exact HR].
    destruct HR as (F & _). pose proof (Hfloor d F). lia. }
  destruct (Z.leb_spec (goal - t) 0); [exact Hk1|].
  apply IH; [lia|exact Hin'|exact Hk1].
Qed.

Lemma slice_pass_reclaimed (floor : domain_info -> Z) :
  (forall d, reclaim_frame d0 d -> low <= floor d) ->
  forall (vec : list Z) (goal : Z) (g : globals),
    0 <= goal ->
    (id ∈ vec -> runnable d0 = true) ->
    reclaims g ->
    reclaims (snd (slice_pass floor vec goal g)).
Proof.
  intros Hfloor. induction vec as [|a vec IH]; intros goal g Hgoal Hin Hk; [exact Hk|].
  cbn [slice_pass]. cbv zeta.
  assert (Hin' : id ∈ vec -> runnable d0 = true).
  { intros Hx. apply Hin. now apply list_elem_of_further. }
  set (fl := Z.max (eval_more_decr g (deref g a)) (floor (deref g a))).
  destruct (Z.gtb_spec (memsize (deref g a) - fl) 0) as [Htrim|Htrim].
  - set (t := Z.min (memsize (deref g a) - fl) goal).
    set (g1 := upd_dom a (upd_cur (set_memsize (memsize (deref g a) - t))) g).
    assert (Hk1 : reclaims g1).
    { apply tracked_upd; [exact Hk|]. intros -> d Hd HR.
      subst t fl. rewrite (deref_lookup g id d Hd) in *.
      apply hard_reclaimed_shrink; [apply Hin, list_elem_of_here| |exact HR].
      destruct HR as (F & _). pose proof (Hfloor d F). lia. }
    destruct (Z.leb_spec (goal - t) 0); cbn [snd]; [exact Hk1|].
    specialize (IH (goal - t) g1 ltac:(lia) Hin' Hk1).
    destruct (slice_pass floor vec (goal - t) g1) as [[rest goal2] g2].
    destruct (_ <=? _); exact IH.
  - specialize (IH goal g Hgoal Hin' Hk).
    destruct (slice_pass floor vec goal g) as [[rest goal2] g2].
    destruct (_ <=? _); exact IH.
Qed.

Lemma slice_loop_reclaimed (floor : domain_info -> Z) :
  (forall d, reclaim_frame d0 d -> low <= floor d) ->
  forall (fuel : nat) (vec : list Z) (goal : Z) (g : globals),
    (id ∈ vec -> runnable d0 = true) ->
    reclaims g ->
    reclaims (snd (snd (slice_loop fuel floor vec goal g))).
Proof.
  intros Hfloor. induction fuel as [|fuel IH]; intros vec goal g Hin Hk; [exact Hk|].
  cbn [slice_loop]. destruct (Z.gtb_spec goal 0) as [Hgoal|]; cbn [andb]; [|exact Hk].
  destruct (negb _); [|exact Hk]. cbv zeta.
  set (ctx := eval_resist_force_context g vec).
  set (g1 := fold_left (fun g id => upd_dom id (eval_resist_force ctx) g) vec g).
  assert (Hk1 : reclaims g1).
  { apply tracked_fold_in; [|exact Hk]. intros g0 a Ha Hk0.
    apply tracked_upd; [exact Hk0|]. intros -> d _ HR.
    apply hard_reclaimed_frame; auto using reclaim_frame_resist_force,
      eval_resist_force_memsize. }
  set (vec1 := sort_by g1 sortfunc_asc_by_resist_force vec).
  assert (Hin1 : id ∈ vec1 -> runnable d0 = true).
  { intros Hx. apply Hin. now apply elem_of_sort_by in Hx. }
  pose proof (slice_pass_reclaimed floor Hfloor vec1 goal g1 ltac:(lia) Hin1 Hk1) as Hk2.
  pose proof (slice_pass_sub floor vec1 goal g1 id) as Hsub.
  destruct (slice_pass floor vec1 goal g1) as [[vec2 goal2] g2]. cbn [fst snd] in *.
  apply IH; [auto|exact Hk2].
Qed.

End HardReclaimed.

Ltac runnable_member Hin :=
  apply list_elem_of_filter in Hin as [Hin _];
  cbv zeta in Hin; apply Is_true_true in Hin;
  repeat match type of Hin with
         | (_ && _) = true => let H := fresh "H" in apply andb_true_iff in Hin as [Hin H]
         end;
  assumption.

Section HardReserveDomain.
Context `{Host}.
Variables (id : Z) (d0 : domain_info).

Local Abbreviation low :=
  (Z.min (memsize_decr d0) (Z.min (dmem_quota d0) (dmem_min d0))).

Local Abbreviation reclaims := (tracked (hard_reclaimed d0) id).

Lemma hard_round_reclaimed (floor : domain_info -> Z) (vec : list Z) (goal : Z)
    (g : globals) :
  (forall d, reclaim_frame d0 d -> low <= floor d) ->
  (id ∈ vec -> runnable (deref g id) = true) ->
  reclaims g ->
  reclaims (snd (if goal <=? 0 then (goal, g) else trim_loop floor vec goal g)).
Proof.
  intros Hfloor Hin Hk. destruct (Z.leb_spec goal 0); [exact Hk|].
  apply trim_loop_reclaimed; [exact Hfloor|lia| |exact Hk].
  intros Hx. apply (hard_reclaimed_runnable id d0 g Hk). auto.
Qed.

Lemma hard_reclaim_rounds_reclaimed (goal : Z) (g : globals) :
  reclaims g ->
  reclaims (snd (hard_reclaim_round_1 goal g))
  /\ reclaims (snd (hard_reclaim_round_2 goal g))
  /\ reclaims (snd (hard_reclaim_round_3 goal g)).
Proof.
  intros Hk. split; [|split]; apply hard_round_reclaimed; try exact Hk.
  - intros d F. destruct (reclaim_frame_fields _ _ F) as (_ & _ & _ & _ & _ & E & _).
    rewrite E. lia.
  - intros Hin. apply elem_of_sort_by in Hin. runnable_member Hin.
  - intros d F. destruct (reclaim_frame_fields _ _ F) as (E & _).
    change (dmem_quota d) with (dmem_quota (act d)). rewrite E. lia.
  - intros Hin. apply elem_of_sort_by in Hin. runnable_member Hin.
  - intros d F. destruct (reclaim_frame_fields _ _ F) as (E & _).
    change (dmem_quota d) with (dmem_quota (act d)). rewrite E. lia.
  - intros Hin. apply elem_of_sort_by in Hin. runnable_member Hin.
Qed.

Lemma hard_reclaim_round_4_reclaimed (fuel : nat) (goal : Z) (g : globals) :
  reclaims g -> reclaims (snd (snd (hard_reclaim_round_4 fuel goal g))).
Proof.
  intros Hk. unfold hard_reclaim_round_4. destruct (goal <=? 0); [exact Hk|].
  cbv zeta. set (vec := filter _ (managed_ids g)).
  assert (Hin : id ∈ vec -> runnable d0 = true).
  { intros Hin. apply (hard_reclaimed_runnable id d0 g Hk). runnable_member Hin. }
  apply slice_loop_reclaimed; [|exact Hin|].
  - intros d F. destruct (reclaim_frame_fields _ _ F) as (E & _).
    change (dmem_quota d) with (dmem_quota (act d)). rewrite E. lia.
  - apply tracked_fold_in; [|exact Hk]. intros g0 a Ha Hk0.
    destruct (negb _); [|exact Hk0].
    apply tracked_upd; [exact Hk0|]. intros -> d _ HR.
    apply hard_reclaimed_frame; auto using reclaim_frame_set_rates.
Qed.

Lemma hard_reclaim_round_5_reclaimed (fuel : nat) (goal : Z) (x : xen) (g : globals) :
  reclaims g -> reclaims (snd (snd (hard_reclaim_round_5 fuel goal x g))).
Proof.
  intros Hk. unfold hard_reclaim_round_5. destruct (goal <=? 0); [exact Hk|].
  cbv zeta. set (vec := filter _ (managed_ids g)).
  assert (Hin : id ∈ vec -> runnable d0 = true).
  { intros Hin. apply (hard_reclaimed_runnable id d0 g Hk). runnable_member Hin. }
  apply slice_loop_reclaimed; [|exact Hin|].
  - intros d F. destruct (reclaim_frame_fields _ _ F) as (E & _).
    change (dmem_min d) with (dmem_min (act d)). rewrite E. lia.
  - apply tracked_fold_in; [|exact Hk]. intros g0 a Ha Hk0.
    destruct (negb (valid_data _)); [|exact Hk0].
    destruct (_ && _); (apply tracked_upd; [exact Hk0|]); intros -> d _ HR;
      apply hard_reclaimed_frame; auto using reclaim_frame_set_rates.
Qed.

Lemma hard_reclaim_reclaimed (fuel : nat) (goal : Z) (x : xen) (g : globals) :
  reclaims g -> reclaims (snd (snd (hard_reclaim fuel goal x g))).
Proof.
  intros Hk. unfold hard_reclaim. cbv zeta. set (req := roundup goal (memquant_kbs g)).
  destruct (hard_reclaim_rounds_reclaimed req g Hk) as (H1 & _ & _).
  destruct (hard_reclaim_round_1 req g) as [goal1 g1]. cbn [snd] in H1.
  destruct (hard_reclaim_rounds_reclaimed goal1 g1 H1) as (_ & H2 & _).
  destruct (hard_reclaim_round_2 goal1 g1) as [goal2 g2]. cbn [snd] in H2.
  destruct (hard_reclaim_rounds_reclaimed goal2 g2 H2) as (_ & _ & H3).
  destruct (hard_reclaim_round_3 goal2 g2) as [goal3 g3]. cbn [snd] in H3.
  pose proof (hard_reclaim_round_4_reclaimed fuel goal3 g3 H3) as H4.
  destruct (hard_reclaim_round_4 fuel goal3 g3) as [st4 [goal4 g4]]. cbn [snd] in H4.
  destruct st4; cbn [snd]; try exact H4.
  pose proof (hard_reclaim_round_5_reclaimed fuel goal4 x g4 H4) as H5.
  destruct (hard_reclaim_round_5 fuel goal4 x g4) as [st5 [goal5 g5]]. exact H5.
Qed.

Lemma sched_reserved_hard_reclaimed (fuel : nat) (x : xen) (g : globals) :
  managed g !! id = Some d0 ->
  reclaims (snd (sched_reserved_hard fuel x g)).
Proof.
  intros Hd.
  assert (Hk : reclaims g).
  { exists d0. split; [exact Hd|]. split; [apply reclaim_frame_refl|].
    split; [lia|now right]. }
  unfold sched_reserved_hard. destruct (_ <? _); [|exact Hk]. cbv zeta.
  pose proof (hard_reclaim_reclaimed fuel
                (config.host_reserved_hard (cfg g) - host_free g) x g Hk) as Hr.
  destruct (hard_reclaim fuel _ x g) as [st [reclaimed g1]]. cbn [snd] in *.
  eapply tracked_managed; [|exact Hr]. reflexivity.
Qed.

End HardReserveDomain.

Section HardReserveFloor.
Context `{Host}.

(** X22: for every managed domain, the hard-reserve stage changes nothing
    of its record but the scheduled size, the three rates and the resist
    force; it raises no domain's scheduled size, and takes no domain below
    the least of its [memsize_decr], [dmem_quota] and [dmem_min], or below
    its size when that is lower: with [dmem_min] not above the other two,
    no domain is taken below [dmem_min]. *)
Theorem hard_reserve_floor (fuel : nat) (x : xen) (g : globals) (id : Z) (d : domain_info) :
  managed g !! id = Some d ->
  exists d' : domain_info,
    managed (snd (sched_reserved_hard fuel x g)) !! id = Some d'
    /\ reclaim_frame d d'
    /\ Z.min (memsize d) (Z.min (memsize_decr d) (Z.min (dmem_quota d) (dmem_min d)))
       <= memsize d' <= memsize d.
Proof.
  intros Hd.
  destruct (sched_reserved_hard_reclaimed id d fuel x g Hd) as (d' & Hd' & F & B & _).
  exists d'. auto.
Qed.

(** X23: the hard-reserve stage leaves the record of a managed domain
    that is not runnable (paused, shut down or dying) exactly as it is. *)
Theorem hard_reserve_leaves_stopped (fuel : nat) (x : xen) (g : globals) (id : Z)
    (d : domain_info) :
  managed g !! id = Some d ->
  runnable d = false ->
  managed (snd (sched_reserved_hard fuel x g)) !! id = Some d.
Proof.
  intros Hd Hr.
  destruct (sched_reserved_hard_reclaimed id d fuel x g Hd) as (d' & Hd' & _ & _ & [E| ->]).
  - congruence.
  - exact Hd'.
Qed.

End HardReserveFloor.

Lemma hard_reserve_floor_witness :
  exists d' : domain_info,
    managed (snd (@sched_reserved_hard still_host 100 tt starved_host)) !! 2 = Some d'
    /\ reclaim_frame hungry d'
    /\ Z.min (memsize hungry)
         (Z.min (memsize_decr hungry) (Z.min (dmem_quota hungry) (dmem_min hungry)))
       <= memsize d' <= memsize hungry.
Proof. apply (@hard_reserve_floor still_host 100 tt starved_host 2 hungry). reflexivity. Defined.

Lemma hard_reserve_leaves_stopped_witness :
  managed (snd (@sched_reserved_hard still_host 100 tt starved_host)) !! 1 = Some paused.
Proof.
  apply (@hard_reserve_leaves_stopped still_host 100 tt starved_host 1 paused); reflexivity.
Defined.

(** ** Stage 2: when the hard reserve gives up *)



Section Settled.

Variables (floor : domain_info -> Z) (id : Z).
Hypothesis floor_act : forall d d' : domain_info, act d' = act d -> floor d' = floor d.







End Settled.

Section HardReserveExhausts.
Context `{Host}.




End HardReserveExhausts.


Lemma hard_reserve_reclaim_bounds_witness :
  (config.host_reserved_hard (cfg starved_host) <= host_free starved_host ->
   @sched_reserved_hard still_host 100 tt starved_host = (Finished, starved_host))
  /\ (host_free starved_host < config.host_reserved_hard (cfg starved_host) ->
      host_free starved_host
        <= host_free (snd (@sched_reserved_hard still_host 100 tt starved_host))
        < config.host_reserved_hard (cfg starved_host) + memquant_kbs starved_host).
Proof. apply (@hard_reserve_reclaim_bounds still_host 100 tt starved_host). reflexivity. Defined.

(** ** Settings resolution: the values in effect *)








(** ** The free-memory operator command: its answers *)

Section FreeMemStatus.
Context `{Host}.

(** X26: the free-memory command answers with status [P], [A] or [N]:
    with [P] exactly when the scheduler is not paused, and with [N] (the
    amount cannot be had) only when the request was made with [must]. *)
Theorem sched_freemem_status (fuel : nat) (u_reqamt : Z)
    (above_slack draw_reserved_hard must : bool) (timeout : Z) (w : globals * xen) :
  let reply :=
    fst (snd (sched_freemem fuel u_reqamt above_slack draw_reserved_hard must timeout w)) in
  (reply_status reply = "P"%char <-> memsched_pause_level (fst w) = 0)
  /\ (reply_status reply = "N"%char -> must = true)
  /\ (reply_status reply = "P"%char \/ reply_status reply = "A"%char
      \/ reply_status reply = "N"%char).
Proof.
  unfold sched_freemem. cbv zeta.
  destruct (Z.eqb_spec (memsched_pause_level (fst w)) 0) as [Hp|Hp].
  { cbn. split; [tauto|]. split; [discriminate|auto]. }
  assert (Hshape : forall (s : status) (c : ascii) (a b : Z) (w' : globals * xen),
             (c = "A"%char \/ (c = "N"%char /\ must = true)) ->
             let reply := fst (snd (s, (mk_reply c (to_ulong a) (to_ulong b), w'))) in
             (reply_status reply = "P"%char <-> memsched_pause_level (fst w) = 0)
             /\ (reply_status reply = "N"%char -> must = true)
             /\ (reply_status reply = "P"%char \/ reply_status reply = "A"%char
                 \/ reply_status reply = "N"%char)).
  { intros s c a b w' [->|[-> Hm]]; cbn;
      (split; [split; [discriminate|contradiction]|]); split; auto; discriminate. }
  repeat (case_match; try (apply Hshape; auto; fail)); subst;
    apply Hshape; auto.
  all: right; split; [reflexivity|].
  all: repeat match goal with
              | H : (_ && _) = true |- _ => apply andb_true_iff in H as [? ?]
              end; assumption.
Qed.

End FreeMemStatus.

(** ** Insertion into the sorted vectors of stage 4 *)

(** The binary search ends at the point that parts the vector, when the
    test that steers it holds from some element on. *)
Lemma insert_position_spec (before : Z -> bool) (vec : list Z) :
  (forall (i j : nat) (m n : Z), (i <= j)%nat ->
     vec !! i = Some m -> vec !! j = Some n -> before m = true -> before n = true) ->
  forall (fuel : nat) (start end_ : Z),
    0 <= start <= end_ + 1 -> end_ < Z.of_nat (length vec) ->
    end_ - start + 1 <= Z.of_nat fuel ->
    (forall (i : nat) (m : Z), Z.of_nat i < start -> vec !! i = Some m -> before m = false) ->
    (forall (i : nat) (m : Z), end_ < Z.of_nat i -> vec !! i = Some m -> before m = true) ->
    0 <= insert_position fuel before vec start end_ <= Z.of_nat (length vec)
    /\ (forall (i : nat) (m : Z),
          Z.of_nat i < insert_position fuel before vec start end_ ->
          vec !! i = Some m -> before m = false)
    /\ (forall (i : nat) (m : Z),
          insert_position fuel before vec start end_ <= Z.of_nat i ->
          vec !! i = Some m -> before m = true).
Proof.
  intros Hmono. induction fuel as [|fuel IH]; intros start end_ Hse Hend Hfuel Hlo Hhi.
  - cbn [insert_position]. split; [lia|]. split; [exact Hlo|].
    intros i m Hi. apply Hhi. lia.
  - cbn [insert_position]. destruct (Z.leb_spec start end_) as [Hle|Hgt].
    2:{ split; [lia|]. split; [exact Hlo|]. intros i m Hi. apply Hhi. lia. }
    cbv zeta. set (mid := Z.quot (start + end_) 2).
    assert (Hmid : start <= mid <= end_).
    { subst mid. rewrite Z.quot_div_nonneg by lia.
      split; [apply Z.div_le_lower_bound|apply Z.div_le_upper_bound]; lia. }
    destruct (lookup_lt_is_Some_2 vec (Z.to_nat mid)) as [m Hm]; [lia|].
    rewrite Hm. destruct (before m) eqn:Hb.
    + apply IH; try lia; [exact Hlo|].
      intros i n Hi Hn. apply (Hmono (Z.to_nat mid) i m n); auto. lia.
    + apply IH; try lia; [|exact Hhi].
      intros i n Hi Hn. destruct (before n) eqn:Hbn; [|reflexivity].
      rewrite <- Hb. symmetry.
      apply (Hmono i (Z.to_nat mid) n m); auto. lia.
Qed.

Lemma insert_at_position (before : Z -> bool) (vec : list Z) (id : Z) :
  (forall (i j : nat) (m n : Z), (i <= j)%nat ->
     vec !! i = Some m -> vec !! j = Some n -> before m = true -> before n = true) ->
  exists p : nat,
    insert_at vec (Z.to_nat (insert_position (S (length vec)) before vec 0
                               (Z.of_nat (length vec) - 1))) id
    = take p vec ++ id :: drop p vec
    /\ Forall (fun m => before m = false) (take p vec)
    /\ Forall (fun m => before m = true) (drop p vec).
Proof.
  intros Hmono.
  destruct (insert_position_spec before vec Hmono (S (length vec)) 0
              (Z.of_nat (length vec) - 1)) as (Hp & Hlo & Hhi);
    [lia|lia|lia|intros i m Hi; lia
    |intros i m Hi Hm; apply lookup_lt_Some in Hm; lia|].
  set (p := insert_position _ _ _ _ _) in *.
  exists (Z.to_nat p). split; [reflexivity|]. split.
  - apply Forall_lookup. intros i m Hm.
    apply lookup_take_Some in Hm as [Hm Hi]. apply (Hlo i m); [lia|exact Hm].
  - apply Forall_lookup. intros i m Hm. rewrite lookup_drop in Hm.
    apply (Hhi (Z.to_nat p + i)%nat m); [lia|exact Hm].
Qed.

Lemma strongly_sorted_lookup {A} (R : A -> A -> Prop) (l : list A) :
  StronglySorted R l ->
  forall (i j : nat) (x y : A),
    (i < j)%nat -> l !! i = Some x -> l !! j = Some y -> R x y.
Proof.
  induction 1 as [|a l Hs IH Ha]; intros i j x y Hij Hx Hy; [discriminate|].
  destruct j as [|j]; [lia|]. cbn in Hy. destruct i as [|i].
  - cbn in Hx. injection Hx as <-.
    rewrite Forall_lookup in Ha. now apply (Ha j y).
  - cbn in Hx. apply (IH i j x y); [lia|exact Hx|exact Hy].
Qed.

(** X27: [insert_into_vec_expand] puts a domain into a vector sorted by
    descending expand force after every domain with a greater force and
    before every domain with the same or a smaller force, and
    [insert_into_vec_shrink] puts a domain into a vector sorted by
    ascending resist force after every domain with a smaller force and
    before every domain with the same or a greater force; no element of
    the vector is lost or moved. *)
Theorem insert_into_vec_sorted (g : globals) (vec : list Z) (id : Z) :
  (StronglySorted (fun m n => (expand_force (deref g n) <= expand_force (deref g m))%Q) vec ->
   exists p : nat,
     insert_into_vec_expand g vec id = take p vec ++ id :: drop p vec
     /\ Forall (fun m => (expand_force (deref g id) < expand_force (deref g m))%Q) (take p vec)
     /\ Forall (fun m => (expand_force (deref g m) <= expand_force (deref g id))%Q)
          (drop p vec))
  /\ (StronglySorted (fun m n => (resist_force (deref g m) <= resist_force (deref g n))%Q) vec ->
      exists p : nat,
        insert_into_vec_shrink g vec id = take p vec ++ id :: drop p vec
        /\ Forall (fun m => (resist_force (deref g m) < resist_force (deref g id))%Q)
             (take p vec)
        /\ Forall (fun m => (resist_force (deref g id) <= resist_force (deref g m))%Q)
             (drop p vec)).
Proof.
  split; intros Hsorted.
  - unfold insert_into_vec_expand. cbv zeta.
    destruct (insert_at_position
                (fun m => Qle_bool (expand_force (deref g m)) (expand_force (deref g id)))
                vec id) as (p & E & Hlo & Hhi).
    { intros i j m n Hij Hm Hn Hb. apply Qle_bool_iff. apply Qle_bool_iff in Hb.
      destruct (decide (i = j)) as [->|Hne]; [congruence|].
      eapply Qle_trans; [|exact Hb].
      apply (strongly_sorted_lookup _ vec Hsorted i j m n); [lia|exact Hm|exact Hn]. }
    exists p. split; [exact E|]. split.
    + eapply Forall_impl; [exact Hlo|]. cbv beta. intros m Hb.
      apply Qnot_le_lt. intros Hle. apply Qle_bool_iff in Hle. congruence.
    + eapply Forall_impl; [exact Hhi|]. cbv beta. intros m Hb. now apply Qle_bool_iff.
  - unfold insert_into_vec_shrink. cbv zeta.
    destruct (insert_at_position
                (fun m => Qle_bool (resist_force (deref g id)) (resist_force (deref g m)))
                vec id) as (p & E & Hlo & Hhi).
    { intros i j m n Hij Hm Hn Hb. apply Qle_bool_iff. apply Qle_bool_iff in Hb.
      destruct (decide (i = j)) as [->|Hne]; [congruence|].
      eapply Qle_trans; [exact Hb|].
      apply (strongly_sorted_lookup _ vec Hsorted i j m n); [lia|exact Hm|exact Hn]. }
    exists p. split; [exact E|]. split.
    + eapply Forall_impl; [exact Hlo|]. cbv beta. intros m Hb.
      apply Qnot_le_lt. intros Hle. apply Qle_bool_iff in Hle. congruence.
    + eapply Forall_impl; [exact Hhi|]. cbv beta. intros m Hb. now apply Qle_bool_iff.
Qed.

Lemma insert_into_vec_sorted_witness :
  (exists p : nat,
     insert_into_vec_expand contested_host [4; 5] 5 = take p [4; 5] ++ 5 :: drop p [4; 5]
     /\ Forall (fun m => (expand_force (deref contested_host 5)
                          < expand_force (deref contested_host m))%Q) (take p [4; 5])
     /\ Forall (fun m => (expand_force (deref contested_host m)
                          <= expand_force (deref contested_host 5))%Q) (drop p [4; 5]))
  /\ (exists p : nat,
        insert_into_vec_shrink contested_host [4; 5] 4 = take p [4; 5] ++ 4 :: drop p [4; 5]
        /\ Forall (fun m => (resist_force (deref contested_host m)
                             < resist_force (deref contested_host 4))%Q) (take p [4; 5])
        /\ Forall (fun m => (resist_force (deref contested_host 4)
                             <= resist_force (deref contested_host m))%Q) (drop p [4; 5])).
Proof.
  split.
  - apply (proj1 (insert_into_vec_sorted contested_host [4; 5] 5)).
    repeat constructor. vm_compute. discriminate.
  - apply (proj2 (insert_into_vec_sorted contested_host [4; 5] 4)).
    repeat constructor. vm_compute. discriminate.
Defined.

(** ** Domains that have given their allowance *)

(** X28: a domain whose scheduled [memsize] has reached
    or fallen below its [memsize_decr] is not shrunk by what remains of
    the tick after the hard-reserve stage: neither by the soft-reserve
    stage, nor by any call of [rebalance_domains], nor by the loop of the
    rebalancing stage from any of its states, nor by the rebalancing stage
    as a whole. *)
Theorem spent_domain_not_shrunk (g : globals) (id : Z) (d : domain_info) :
  managed g !! id = Some d ->
  memsize d <= memsize_decr d ->
  (forall goal, memsize d <= memsize (deref (snd (soft_reclaim goal g)) id))
  /\ memsize d <= memsize (deref (sched_reserved_soft g) id)
  /\ (forall fuel ctx e need vec,
        memsize d <= memsize (deref (snd (snd (rebalance_domains fuel ctx e need vec g))) id))
  /\ (forall fuel expand_ctx resist_ctx vec_expand vec_shrink,
        memsize d <= memsize (deref (rb_globals (snd
          (rebalance_loop fuel expand_ctx resist_ctx
             (mk_rebalance vec_expand vec_shrink g)))) id))
  /\ (forall fuel, memsize d <= memsize (deref (snd (sched_rebalance fuel g)) id))
  /\ (forall fuel,
        memsize d <= memsize (deref (snd (sched_rebalance fuel (sched_reserved_soft g))) id)).
Proof.
  intros Hd Hspent.
  assert (Hk : kept id d (sched_tick g) True g) by
    (split; [reflexivity|]; exists d; repeat split; auto; left; lia).
  split; [intros goal; eapply kept_spent; [|exact Hspent];
          now apply soft_reclaim_unshrunk|].
  split; [eapply kept_spent; [|exact Hspent]; now apply sched_reserved_soft_unshrunk|].
  split.
  { intros fuel ctx e need vec. eapply kept_spent; [|exact Hspent].
    apply (rebalance_domains_kept id d (sched_tick g) True ctx e fuel need vec g); auto. }
  split.
  { intros fuel expand_ctx resist_ctx ve vs. eapply kept_spent; [|exact Hspent].
    apply (rebalance_loop_kept id d (sched_tick g) True expand_ctx resist_ctx fuel
             (mk_rebalance ve vs g)); auto. }
  split; [intros fuel; eapply kept_spent; [|exact Hspent];
          now apply sched_rebalance_unshrunk|].
  intros fuel.
  apply (kept_spent _ id d (sched_tick g) (is_shrink_soft_protected g d = false));
    [|exact Hspent].
  apply (unshrunk_trans g (sched_reserved_soft g));
    [now apply sched_reserved_soft_unshrunk|].
  intros d1 Hd1. now apply sched_rebalance_unshrunk.
Qed.

Lemma spent_domain_not_shrunk_witness :
  (forall goal, memsize spent <= memsize (deref (snd (soft_reclaim goal spent_host)) 1))
  /\ memsize spent <= memsize (deref (sched_reserved_soft spent_host) 1)
  /\ (forall fuel ctx e need vec,
        memsize spent
        <= memsize (deref (snd (snd (rebalance_domains fuel ctx e need vec spent_host))) 1))
  /\ (forall fuel expand_ctx resist_ctx vec_expand vec_shrink,
        memsize spent <= memsize (deref (rb_globals (snd
          (rebalance_loop fuel expand_ctx resist_ctx
             (mk_rebalance vec_expand vec_shrink spent_host)))) 1))
  /\ (forall fuel, memsize spent <= memsize (deref (snd (sched_rebalance fuel spent_host)) 1))
  /\ (forall fuel,
        memsize spent
        <= memsize (deref (snd (sched_rebalance fuel (sched_reserved_soft spent_host))) 1)).
Proof.
  apply (spent_domain_not_shrunk spent_host 1 spent); [reflexivity|].
  vm_compute. discriminate.
Defined.
